(** * templater: path conversion, change detection and the output gate

    A shallow embedding of [main.go] (the current version of the program,
    the first one in the source file) and the properties of its path mapping,
    its change classification, its scanner pattern and its output gate.

    Go strings are byte sequences: they are modelled as [string] (a list of
    8-bit characters).  The functions of Go's standard library that the
    program calls ([strings], [path], [path/filepath], [bytes], [reflect],
    [regexp], [os]) are modelled in the modules of the same names below,
    each from its documented behaviour on a Unix system. *)

From Stdlib Require Import Ascii String List Bool Arith NArith Lia.
From stdpp Require Import base option strings gmap sorting.

Open Scope string_scope.
Open Scope list_scope.

#[global] Arguments String.append !_ _ / : simpl nomatch.

(** ** Strings as Go uses them *)

(** [s[n:]] *)
Fixpoint sdrop (n : nat) (s : string) : string :=
  match n, s with
  | O, _ => s
  | S n', String _ s' => sdrop n' s'
  | S _, EmptyString => EmptyString
  end.

(** [s[:n]] *)
Fixpoint stake (n : nat) (s : string) : string :=
  match n, s with
  | O, _ => EmptyString
  | S n', String c s' => String c (stake n' s')
  | S _, EmptyString => EmptyString
  end.

(** [true] when character [c] occurs in [s] *)
Fixpoint smem (c : ascii) (s : string) : bool :=
  match s with
  | EmptyString => false
  | String a s' => Ascii.eqb a c || smem c s'
  end.

Definition slash : ascii := "/"%char.
Definition newline : ascii := "010"%char.

Module strings.

(** [strings.HasPrefix(s, prefix)] *)
Definition HasPrefix (s pre : string) : bool := String.prefix pre s.

(** [strings.Index(s, substr)]: the position of the first occurrence of
    [substr] in [s]; [None] stands for Go's [-1]. *)
Fixpoint Index (s substr : string) : option nat :=
  if String.prefix substr s then Some 0
  else match s with
       | EmptyString => None
       | String _ s' => S <$> Index s' substr
       end.

(** [strings.Contains(s, substr)]: [substr] occurs somewhere in [s]. *)
Fixpoint Contains (s substr : string) : bool :=
  String.prefix substr s ||
  match s with
  | EmptyString => false
  | String _ s' => Contains s' substr
  end.

(** [strings.Replace(s, old, new, n)] for a non-empty [old] and [n >= 0].
    The library's loop runs at most [n] times; each round finds the next
    occurrence [j] of [old] at or after [start], copies [s[start:j]] and
    [new], and moves [start] behind the occurrence; the rest of [s] is
    copied at the end. *)
Fixpoint Replace (s old new : string) (n : nat) : string :=
  match n with
  | O => s
  | S n' =>
      match Index s old with
      | None => s
      | Some j =>
          stake j s +:+ new +:+ Replace (sdrop (j + String.length old) s) old new n'
      end
  end.

Definition isASCII (c : ascii) : bool := Nat.ltb (nat_of_ascii c) 128.

(** the table [asciiSpace]: tab, newline, vertical tab, form feed,
    carriage return and space *)
Definition asciiSpace (c : ascii) : bool :=
  let n := nat_of_ascii c in
  Nat.eqb n 9 || Nat.eqb n 10 || Nat.eqb n 11 || Nat.eqb n 12 || Nat.eqb n 13 || Nat.eqb n 32.

Fixpoint srev_onto (s acc : string) : string :=
  match s with
  | EmptyString => acc
  | String c s' => srev_onto s' (String c acc)
  end.

Definition srev (s : string) : string := srev_onto s EmptyString.

Section Unicode.

(** The Unicode-aware parts of the library, which work on the UTF-8
    decoding of their arguments and on the Unicode tables, are left
    open: [TrimFunc(s, unicode.IsSpace)], [TrimRightFunc(s,
    unicode.IsSpace)], and the part of [EqualFold] that compares the
    rest of two strings rune by rune under simple case folding. *)
Variable TrimFunc_IsSpace : string -> string.
Variable TrimRightFunc_IsSpace : string -> string.
Variable EqualFold_unicode : string -> string -> bool.

(** second loop of [TrimSpace]: from the end of [s[start:]], given here
    reversed *)
Fixpoint TrimSpace_stop (r : string) : string :=
  match r with
  | EmptyString => EmptyString
  | String c r' =>
      if negb (isASCII c) then TrimRightFunc_IsSpace (srev r)
      else if asciiSpace c then TrimSpace_stop r'
      else srev r
  end.

(** [strings.TrimSpace]: the loop over the ASCII bytes at the start, then
    the one at the end; a byte outside ASCII hands the rest over to the
    Unicode-aware functions. *)
Fixpoint TrimSpace (s : string) : string :=
  match s with
  | EmptyString => EmptyString
  | String c s' =>
      if negb (isASCII c) then TrimFunc_IsSpace s
      else if asciiSpace c then TrimSpace s'
      else TrimSpace_stop (srev s)
  end.

(** [sr] and [tr] are the same ASCII letter in different case *)
Definition foldASCII (sr tr : ascii) : bool :=
  let a := Nat.min (nat_of_ascii sr) (nat_of_ascii tr) in
  let b := Nat.max (nat_of_ascii sr) (nat_of_ascii tr) in
  Nat.leb 65 a && Nat.leb a 90 && Nat.eqb b (a + 32).

(** [strings.EqualFold]: the loop over ASCII bytes; at the first byte
    outside ASCII in either string the rest is compared by the
    Unicode-aware part; at the end both strings must be exhausted. *)
Fixpoint EqualFold (s t : string) : bool :=
  match s, t with
  | String sr s', String tr t' =>
      if negb (isASCII sr && isASCII tr) then EqualFold_unicode s t
      else if Ascii.eqb tr sr then EqualFold s' t'
      else if foldASCII sr tr then EqualFold s' t'
      else false
  | EmptyString, EmptyString => true
  | _, _ => false
  end.

End Unicode.

End strings.

Module path.

(** [strings.Split(s, "/")] *)
Fixpoint split (s : string) : list string :=
  match s with
  | EmptyString => [EmptyString]
  | String c s' =>
      if Ascii.eqb c slash then EmptyString :: split s'
      else match split s' with
           | [] => [String c EmptyString]
           | e :: es => String c e :: es
           end
  end.

(** [strings.Join(elems, "/")] *)
Fixpoint join (elems : list string) : string :=
  match elems with
  | [] => EmptyString
  | [e] => e
  | e :: es => e +:+ "/" +:+ join es
  end.

(** [path.IsAbs] *)
Definition IsAbs (p : string) : bool :=
  match p with
  | String c _ => Ascii.eqb c slash
  | EmptyString => false
  end.

(** One round of the loop of [path.Clean], on the elements between
    slashes; [out] holds the elements written so far, last one first.
    Empty elements and [.] are dropped; [..] removes the last real element
    if there is one, is dropped at the root, and is kept in front of a
    relative path. *)
Definition clean_step (rooted : bool) (out : list string) (e : string) : list string :=
  if String.eqb e "" || String.eqb e "." then out
  else if String.eqb e ".." then
    match out with
    | top :: rest => if String.eqb top ".." then e :: out else rest
    | [] => if rooted then [] else [e]
    end
  else e :: out.

(** [path.Clean] *)
Definition Clean (p : string) : string :=
  if String.eqb p "" then "."
  else
    let rooted := IsAbs p in
    let out := rev (fold_left (clean_step rooted) (split p) []) in
    let body := join out in
    if rooted then "/" +:+ body
    else if String.eqb body "" then "." else body.

(** index of the first character after the last slash; [0] without a slash
    (Go's [LastIndexByteString(path, '/') + 1]) *)
Fixpoint afterLastSlash (s : string) : nat :=
  match s with
  | EmptyString => 0
  | String c s' =>
      if smem slash s' then S (afterLastSlash s')
      else if Ascii.eqb c slash then 1 else 0
  end.

(** [path.Split] *)
Definition Split (p : string) : string * string :=
  let i := afterLastSlash p in (stake i p, sdrop i p).

(** [path.Dir] *)
Definition Dir (p : string) : string := Clean (fst (Split p)).

(** the loop of [path.Base] that strips trailing slashes *)
Fixpoint stripTrailingSlashes (s : string) : string :=
  match s with
  | EmptyString => EmptyString
  | String c s' =>
      match stripTrailingSlashes s' with
      | EmptyString => if Ascii.eqb c slash then EmptyString else String c EmptyString
      | r => String c r
      end
  end.

(** [path.Base] *)
Definition Base (p : string) : string :=
  if String.eqb p "" then "."
  else
    let p1 := stripTrailingSlashes p in
    let p2 := sdrop (afterLastSlash p1) p1 in
    if String.eqb p2 "" then "/" else p2.

(** [path.Join(a, b)]: empty elements in front are ignored, the others are
    joined by a slash and the result is cleaned; all empty gives [""]. *)
Definition Join (a b : string) : string :=
  if String.eqb a "" then
    if String.eqb b "" then "" else Clean b
  else Clean (a +:+ "/" +:+ b).

End path.


Module bytes.

(** A Go [[]byte]: [None] is the nil slice, [Some d] an allocated slice
    with contents [d] (possibly of length 0). *)
Definition slice : Type := option string.

Definition data (b : slice) : string := default EmptyString b.

(** [bytes.Buffer], as far as the program uses it: the slice [buf]; the
    read offset stays 0 until the buffer is drained by [io.Copy]. *)
Record Buffer : Type := mkBuffer { buf : slice }.

(** [new(bytes.Buffer)]: the zero value, whose [buf] is nil *)
Definition new : Buffer := mkBuffer None.

(** [b.Write(p)]: a write of no bytes reslices [buf] to its own length and
    so keeps a nil [buf] nil; any other write grows the buffer. *)
Definition Write (b : Buffer) (p : string) : Buffer :=
  match p with
  | EmptyString => b
  | _ => mkBuffer (Some (data (buf b) +:+ p))
  end.

(** [b.ReadFrom(r)] for a reader that yields [d] and then end of file: the
    buffer is grown by [MinRead] before the first read, so [buf] is
    allocated even when [d] is empty. *)
Definition ReadFrom (b : Buffer) (d : string) : Buffer :=
  mkBuffer (Some (data (buf b) +:+ d)).

(** [b.Bytes()] *)
Definition Bytes (b : Buffer) : slice := buf b.

(** [b.Len()] *)
Definition Len (b : Buffer) : nat := String.length (data (buf b)).

End bytes.

Module reflect.

(** [reflect.DeepEqual] on two [[]byte] values: both nil or both non-nil,
    of the same length and with equal elements.  A nil slice and an empty
    non-nil slice are not deeply equal. *)
Definition DeepEqual (x y : bytes.slice) : bool :=
  match x, y with
  | None, None => true
  | Some a, Some b => String.eqb a b
  | _, _ => false
  end.

End reflect.

Module regexp.

(** The fragment of Go's regular expressions that [templRegEx] uses.
    Capture groups do not change what matches and are left out.  No flags
    are set: [^] and [$] match at the beginning and the end of the text
    only, and [.] matches any character except a newline.  The library
    takes one UTF-8 encoded character for [.], or one byte that is not part
    of a valid encoding; here [.] takes one byte.  For [templRegEx] the two
    agree: what follows its [.*] begins with an ASCII character, and an
    ASCII byte is never part of the encoding of another character. *)
Inductive Regexp : Type :=
| BeginText                       (* ^ *)
| EndText                         (* $ *)
| AnyCharNotNL                    (* . *)
| Literal (l : string)
| Concat (a b : Regexp)
| Alternate (a b : Regexp)
| Star (a : Regexp).

(** [matchK r atStart s k]: [r] matches a prefix of [s], which begins at
    the start of the text when [atStart], and [k] accepts what follows.
    The loop of [Star] runs on while the body consumes input. *)
Fixpoint matchK (r : Regexp) (atStart : bool) (s : string)
    (k : bool -> string -> bool) {struct r} : bool :=
  match r with
  | BeginText => atStart && k atStart s
  | EndText => String.eqb s "" && k atStart s
  | AnyCharNotNL =>
      match s with
      | String c s' => negb (Ascii.eqb c newline) && k false s'
      | EmptyString => false
      end
  | Literal l =>
      String.prefix l s && k (atStart && String.eqb l "") (sdrop (String.length l) s)
  | Concat a b => matchK a atStart s (fun st s' => matchK b st s' k)
  | Alternate a b => matchK a atStart s k || matchK b atStart s k
  | Star a =>
      (fix loop (fuel : nat) (st : bool) (s0 : string) {struct fuel} : bool :=
         k st s0 ||
         match fuel with
         | O => false
         | S fuel' =>
             matchK a st s0 (fun st' s' =>
               Nat.ltb (String.length s') (String.length s0) && loop fuel' st' s')
         end) (String.length s) atStart s
  end.

Fixpoint searchFrom (re : Regexp) (atStart : bool) (s : string) : bool :=
  matchK re atStart s (fun _ _ => true) ||
  match s with
  | String _ s' => searchFrom re false s'
  | EmptyString => false
  end.

(** [re.MatchString(s)]: some substring of [s] matches [re]. *)
Definition MatchString (re : Regexp) (s : string) : bool := searchFrom re true s.

End regexp.

(** ** The operating system

    A file system of regular files and directories, without links.  The
    program runs as one user who is not the superuser and owns every file;
    directories can always be searched and written, so that only the
    permission bits of regular files decide what may be opened.  Names are
    absolute, as in a scan, and denote the entry of their cleaned form. *)
Module os.

Inductive Errno : Type :=
| ENOENT | EACCES | EISDIR | ENOTDIR | ENOTEMPTY | EEXIST | ENOSPC.

Definition Errno_text (e : Errno) : string :=
  match e with
  | ENOENT => "no such file or directory"
  | EACCES => "permission denied"
  | EISDIR => "is a directory"
  | ENOTDIR => "not a directory"
  | ENOTEMPTY => "directory not empty"
  | EEXIST => "file exists"
  | ENOSPC => "no space left on device"
  end.

(** Go's [error] values that occur: [*os.PathError] and the values made
    by [errors.New]. *)
Inductive error : Type :=
| PathError (op name : string) (e : Errno)
| errorString (s : string).

Definition Error (e : error) : string :=
  match e with
  | PathError op name en => op +:+ " " +:+ name +:+ ": " +:+ Errno_text en
  | errorString s => s
  end.

#[global] Instance Errno_eq_dec : EqDecision Errno.
Proof. solve_decision. Defined.

#[global] Instance error_eq_dec : EqDecision error.
Proof. solve_decision. Defined.

(** [os.IsNotExist] *)
Definition IsNotExist (e : error) : bool :=
  match e with
  | PathError _ _ ENOENT => true
  | _ => false
  end.

Inductive result (A : Type) : Type :=
| OK (a : A)
| Err (e : error).
Arguments OK {A} a.
Arguments Err {A} e.

Inductive Node : Type :=
| File (perm : N) (contents : string)
| Directory (perm : N).

(** owner may read: bit 0400; owner may write: bit 0200 *)
Definition readable (perm : N) : bool := N.testbit perm 8.
Definition writable (perm : N) : bool := N.testbit perm 7.

Definition ModePerm : N := 511.     (* 0777 *)

Definition key (name : string) : string := path.Clean name.

(** the directories above a cleaned name, nearest first *)
Fixpoint parents (fuel : nat) (k : string) : list string :=
  match fuel with
  | O => []
  | S fuel' =>
      let d := path.Dir k in
      if String.eqb d k then [] else d :: parents fuel' d
  end.

Definition ancestors (k : string) : list string :=
  rev (parents (String.length k) k).

(** the error of walking down to the directory that holds [k]: the first
    name on the way that is missing or is not a directory *)
Fixpoint walk (fs : gmap string Node) (dirs : list string) : option Errno :=
  match dirs with
  | [] => None
  | d :: rest =>
      match fs !! d with
      | None => Some ENOENT
      | Some (File _ _) => Some ENOTDIR
      | Some (Directory _) => walk fs rest
      end
  end.

Definition lookup (fs : gmap string Node) (op name : string) : result Node :=
  match walk fs (ancestors (key name)) with
  | Some e => Err (PathError op name e)
  | None =>
      match fs !! key name with
      | None => Err (PathError op name ENOENT)
      | Some n => OK n
      end
  end.

(** [os.Stat] *)
Definition Stat (fs : gmap string Node) (name : string) : result Node :=
  lookup fs "stat" name.

(** [os.Open]: open for reading; the handle is the entry's name *)
Definition Open (fs : gmap string Node) (name : string) : result string :=
  match lookup fs "open" name with
  | Err e => Err e
  | OK (Directory _) => OK (key name)
  | OK (File perm _) =>
      if readable perm then OK (key name) else Err (PathError "open" name EACCES)
  end.

(** reading an open file to its end *)
Definition ReadAll (fs : gmap string Node) (h : string) : result string :=
  match fs !! h with
  | Some (File _ d) => OK d
  | Some (Directory _) => Err (PathError "read" h EISDIR)
  | None => Err (PathError "read" h ENOENT)
  end.

Definition hasEntries (fs : gmap string Node) (k : string) : bool :=
  bool_decide (map_Exists (fun k' _ => k' <> k /\ path.Dir k' = k) fs).

(** [os.Remove]: unlinks a file, removes an empty directory *)
Definition Remove (fs : gmap string Node) (name : string)
    : gmap string Node * option error :=
  match lookup fs "remove" name with
  | Err e => (fs, Some e)
  | OK (File _ _) => (delete (key name) fs, None)
  | OK (Directory _) =>
      if hasEntries fs (key name) then (fs, Some (PathError "remove" name ENOTEMPTY))
      else (delete (key name) fs, None)
  end.

(** [os.Mkdir] of the cleaned name [k] below existing directories *)
Definition Mkdir (umask : N) (fs : gmap string Node) (k : string) (perm : N)
    : gmap string Node * option error :=
  match fs !! k with
  | Some _ => (fs, Some (PathError "mkdir" k EEXIST))
  | None => (<[k := Directory (N.ldiff perm umask)]> fs, None)
  end.

(** the loop of [os.MkdirAll], from the top directory down: a directory
    that exists is kept, a file in the way is an error, a missing
    directory is made *)
Fixpoint mkdirs (umask : N) (fs : gmap string Node) (dirs : list string) (perm : N)
    : gmap string Node * option error :=
  match dirs with
  | [] => (fs, None)
  | d :: rest =>
      match fs !! d with
      | Some (Directory _) => mkdirs umask fs rest perm
      | Some (File _ _) => (fs, Some (PathError "mkdir" d ENOTDIR))
      | None =>
          match Mkdir umask fs d perm with
          | (fs', None) => mkdirs umask fs' rest perm
          | (fs', Some e) => (fs', Some e)
          end
      end
  end.

(** [os.MkdirAll] *)
Definition MkdirAll (umask : N) (fs : gmap string Node) (name : string) (perm : N)
    : gmap string Node * option error :=
  mkdirs umask fs (ancestors (key name) ++ [key name]) perm.

(** [os.Create]: [OpenFile(name, O_RDWR|O_CREATE|O_TRUNC, 0666)] *)
Definition Create (umask : N) (fs : gmap string Node) (name : string)
    : gmap string Node * result string :=
  match walk fs (ancestors (key name)) with
  | Some e => (fs, Err (PathError "open" name e))
  | None =>
      match fs !! key name with
      | None => (<[key name := File (N.ldiff 438 umask) ""]> fs, OK (key name))
      | Some (Directory _) => (fs, Err (PathError "open" name EISDIR))
      | Some (File perm _) =>
          if readable perm && writable perm
          then (<[key name := File perm ""]> fs, OK (key name))
          else (fs, Err (PathError "open" name EACCES))
      end
  end.

(** [os.Chmod] *)
Definition Chmod (fs : gmap string Node) (name : string) (mode : N)
    : gmap string Node * option error :=
  match lookup fs "chmod" name with
  | Err e => (fs, Some e)
  | OK (File _ d) => (<[key name := File mode d]> fs, None)
  | OK (Directory _) => (<[key name := Directory mode]> fs, None)
  end.

(** writing [d] at the end of the open file [h]; [full] says that the
    device has no space left *)
Definition Write (full : bool) (fs : gmap string Node) (h : string) (d : string)
    : gmap string Node * option error :=
  match fs !! h with
  | Some (File perm old) =>
      if full then (fs, Some (PathError "write" h ENOSPC))
      else (<[h := File perm (old +:+ d)]> fs, None)
  | _ => (fs, Some (PathError "write" h EISDIR))
  end.

End os.

Module filepath.

(** [filepath.Join] is [path.Join] on Unix. *)
Definition Join : string -> string -> string := path.Join.

(** [filepath.Abs] on Unix; [getwd] is the result of [os.Getwd]. *)
Definition Abs (getwd : os.result string) (p : string) : os.result string :=
  if path.IsAbs p then os.OK (path.Clean p)
  else match getwd with
       | os.Err e => os.Err e
       | os.OK wd => os.OK (Join wd p)
       end.

End filepath.

(** ** The program: [main.go] *)

(** How a call ends: it returns, or the process exits through [log.Fatalf],
    or it panics. *)
Inductive outcome (A : Type) : Type :=
| Ret (a : A)
| Fatal (msg : string)
| Panic (msg : string).
Arguments Ret {A} a.
Arguments Fatal {A} msg.
Arguments Panic {A} msg.

#[global] Instance outcome_ret : MRet outcome := fun A a => Ret a.
#[global] Instance outcome_bind : MBind outcome := fun A B f m =>
  match m with
  | Ret a => f a
  | Fatal msg => Fatal msg
  | Panic msg => Panic msg
  end.

(** [type Flags struct] with the values the pointers refer to *)
Record Flags : Type := mkFlags {
  scan : bool;
  porcelain : bool;
  dryRun : bool;
  interactive : bool;
  readOnly : bool;
  out : string;
  in_ : string;
  origParent : string;
  newParent : string;
  hostOverride : string;
  userOverride : string
}.

(** What the program takes from outside: the working directory, the
    library's [filepath.Rel], the template engine applied to a template text
    with the process's configuration (the chunks it writes, in order, and
    the error of [t.Parse] or [templ.Execute]), and the Unicode-aware parts
    of the [strings] package. *)
Record Env : Type := mkEnv {
  Getwd : os.result string;
  filepath_Rel : string -> string -> os.result string;
  template_Execute : string -> list string * option os.error;
  TrimFunc_IsSpace : string -> string;
  TrimRightFunc_IsSpace : string -> string;
  EqualFold_unicode : string -> string -> bool
}.

(** The state the program works on: the file system, the process's umask,
    whether the device is full, what each read of a line from standard
    input will return, and what has been printed and logged so far. *)
Record World : Type := mkWorld {
  fs : gmap string os.Node;
  umask : N;
  full : bool;
  stdin : list string;
  stdout : list string;
  logs : list string
}.

Definition set_fs (w : World) (fs' : gmap string os.Node) : World :=
  mkWorld fs' (umask w) (full w) (stdin w) (stdout w) (logs w).

(** Stateful calls *)
Definition M (A : Type) : Type := World -> World * outcome A.

Definition ret {A : Type} (a : A) : M A := fun w => (w, Ret a).

Definition bind {A B : Type} (m : M A) (k : A -> M B) : M B := fun w =>
  match m w with
  | (w', Ret a) => k a w'
  | (w', Fatal msg) => (w', Fatal msg)
  | (w', Panic msg) => (w', Panic msg)
  end.

Notation "x <- m ;; k" := (bind m (fun x => k))
  (at level 100, m at next level, right associativity).
Notation "m ;;; k" := (bind m (fun _ => k))
  (at level 100, right associativity).

Definition fmt_Printf (line : string) : M unit := fun w =>
  (mkWorld (fs w) (umask w) (full w) (stdin w) (stdout w ++ [line]) (logs w), Ret tt).

Definition log_Printf (line : string) : M unit := fun w =>
  (mkWorld (fs w) (umask w) (full w) (stdin w) (stdout w) (logs w ++ [line]), Ret tt).

Definition panic {A : Type} (msg : string) : M A := fun w => (w, Panic msg).

(** [log.Fatalf]: the message is logged and the process exits. *)
Definition log_Fatalf {A : Type} (msg : string) : M A := fun w =>
  (mkWorld (fs w) (umask w) (full w) (stdin w) (stdout w) (logs w ++ [msg]), Fatal msg).

(** a call without effect on the world other than its fatal message *)
Definition lift {A : Type} (o : outcome A) : M A :=
  match o with
  | Ret a => ret a
  | Fatal msg => log_Fatalf msg
  | Panic msg => panic msg
  end.

(** [reader.ReadString('\n')] on standard input; the error is dropped by
    the caller, and at the end of the input the text is empty. *)
Definition ReadString : M string := fun w =>
  (mkWorld (fs w) (umask w) (full w) (tl (stdin w)) (stdout w) (logs w),
   Ret (hd "" (stdin w))).

Definition tab : string := String "009" "".
Definition nl : string := String "010" "".

Definition extension : string := "tmpl".

(** [templRegEx]: [^.*(\.tmpl)(\.|$)] *)
Definition templRegEx : regexp.Regexp :=
  regexp.Concat regexp.BeginText
    (regexp.Concat (regexp.Star regexp.AnyCharNotNL)
       (regexp.Concat (regexp.Literal ("." +:+ extension))
          (regexp.Alternate (regexp.Literal ".") regexp.EndText))).

Definition stripTempl (base : string) : string :=
  strings.Replace base ("." +:+ extension) "" 1.

(** The decision of a scan for one file (the variable [mode]) *)
Inductive Mode : Type := KEEP | MODIFY | CREATE | FAIL.

Definition Mode_text (m : Mode) : string :=
  match m with
  | KEEP => "KEEP" | MODIFY => "MODIFY" | CREATE => "CREATE" | FAIL => "FAIL"
  end.

Inductive Reader : Type := StdinReader | FileReader (h : string).
Inductive Writer : Type := Discard | StdoutWriter | FileWriter (h : string).

Definition skipReplace : os.error := os.errorString "should skip".

Definition markFileReadOnly (outputPath : string) : M (option os.error) := fun w =>
  let (fs', e) := os.Chmod (fs w) outputPath 292 in (set_fs w fs', Ret e).

Definition createOutputFile (outputPath : string) : M (os.result Writer) := fun w =>
  let (fs1, _) := os.Remove (fs w) outputPath in
  let dir := path.Dir outputPath in
  match os.MkdirAll (umask w) fs1 dir os.ModePerm with
  | (fs2, Some err) => (set_fs w fs2, Ret (os.Err err))
  | (fs2, None) =>
      match os.Create (umask w) fs2 outputPath with
      | (fs3, os.OK h) => (set_fs w fs3, Ret (os.OK (FileWriter h)))
      | (fs3, os.Err err) => (set_fs w fs3, Ret (os.Err err))
      end
  end.

(** [io.Copy(w, b)]: the buffer is drained into the writer; an empty buffer
    writes nothing. *)
Definition io_Copy (wr : Writer) (b : bytes.Buffer) : M (option os.error) :=
  if Nat.eqb (bytes.Len b) 0 then ret None
  else match wr with
       | Discard => ret None
       | StdoutWriter => fmt_Printf (bytes.data (bytes.Bytes b)) ;;; ret None
       | FileWriter h => fun w =>
           let (fs', e) := os.Write (full w) (fs w) h (bytes.data (bytes.Bytes b)) in
           (set_fs w fs', Ret e)
       end.

Section Program.

Variable env : Env.
Variable flags : Flags.

Definition nicePath (p : string) : outcome string :=
  match Getwd env with
  | os.Err err => Fatal ("Failed to get working dir: " +:+ os.Error err)
  | os.OK cwd =>
      match filepath_Rel env cwd p with
      | os.Err err => Panic (os.Error err)
      | os.OK out => Ret out
      end
  end.

Definition shouldScan : bool :=
  scan flags && String.eqb (in_ flags) "" && String.eqb (out flags) "".

Definition shouldDryRun : bool := dryRun flags.

Definition isStdin : bool := String.eqb (in_ flags) "" && negb (scan flags).

Definition shouldPromptBeforeWrite : bool := interactive flags && negb isStdin.

Definition newParentAbs : outcome string :=
  match filepath.Abs (Getwd env) (newParent flags) with
  | os.Err err => Fatal ("Error for " +:+ newParent flags +:+ ": " +:+ os.Error err)
  | os.OK abs => Ret abs
  end.

Definition origParentAbs : outcome string :=
  match filepath.Abs (Getwd env) (origParent flags) with
  | os.Err err => Fatal ("Error for " +:+ origParent flags +:+ ": " +:+ os.Error err)
  | os.OK abs => Ret abs
  end.

(** [convertOutputPath], lines 262 to 278: the variable [outputDir] from
    the two prefixes and the directory of the input. *)
Definition convertOutputDir (origParent newParent inputDir : string) : outcome string :=
  let canConvertDir := negb (String.eqb origParent "") && negb (String.eqb newParent "") in
  if canConvertDir && negb (strings.HasPrefix inputDir origParent)
  then Fatal ("Fatal: " +:+ inputDir +:+ " is not under " +:+ origParent)
  else
    Ret (if canConvertDir then
           if Nat.eqb (String.length origParent) (String.length inputDir)
           then newParent
           else newParent +:+ sdrop (String.length origParent) inputDir
         else inputDir).

(** [convertOutputPath], lines 243 to 254: the path to convert; [None] is
    the early return of the empty string. *)
Definition convertInputPath (scannedPath : string) : outcome (option string) :=
  if String.eqb scannedPath "" then
    if String.eqb (in_ flags) "" then Ret None
    else match filepath.Abs (Getwd env) (in_ flags) with
         | os.Err err => Fatal ("Error for " +:+ in_ flags +:+ ": " +:+ os.Error err)
         | os.OK abs => Ret (Some abs)
         end
  else Ret (Some scannedPath).

Definition convertOutputPath (scannedPath : string) : outcome string :=
  start ← convertInputPath scannedPath;
  match start with
  | None => Ret ""
  | Some scannedPath =>
      origParent ← origParentAbs;
      newParent ← newParentAbs;
      let scannedPath := path.Clean scannedPath in
      let inputDir := path.Dir scannedPath in
      let inputBase := path.Base scannedPath in
      outputDir ← convertOutputDir origParent newParent inputDir;
      Ret (path.Join outputDir (stripTempl inputBase))
  end.

Definition promptAndCreateOutputFile (outputPath : string) : M (os.result Writer) :=
  if shouldDryRun then ret (os.OK Discard)
  else if negb shouldPromptBeforeWrite then createOutputFile outputPath
  else fun w =>
    match os.Stat (fs w) outputPath with
    | os.Err _ => createOutputFile outputPath w
    | os.OK _ =>
        (fmt_Printf ("Replace " +:+ outputPath +:+ "? [y|n] ") ;;;
         text <- ReadString ;;
         let text := strings.TrimSpace (TrimFunc_IsSpace env) (TrimRightFunc_IsSpace env) text in
         if strings.EqualFold (EqualFold_unicode env) text "y"
            || strings.EqualFold (EqualFold_unicode env) text "yes"
         then createOutputFile outputPath
         else ret (os.Err skipReplace)) w
    end.

Definition inputReader (scannedPath : string) : M (os.result Reader) := fun w =>
  let open name :=
    match os.Open (fs w) name with
    | os.OK h => (w, Ret (os.OK (FileReader h)))
    | os.Err err => (w, Ret (os.Err err))
    end in
  if negb (String.eqb scannedPath "") then open scannedPath
  else if isStdin then (w, Ret (os.OK StdinReader))
  else open (in_ flags).

Definition getOutputPathForNonScan : outcome string :=
  if shouldScan then Panic "Don't call this if we are scanning"
  else if String.eqb (out flags) "" then convertOutputPath ""
  else Ret (out flags).

Definition getExistingOutputFileContents (outputPath : string)
    : M (os.result bytes.Buffer) :=
  if String.eqb outputPath "" then panic "outputPath required"
  else fun w =>
    match os.Open (fs w) outputPath with
    | os.Err err => (w, Ret (os.Err err))
    | os.OK file =>
        match os.ReadAll (fs w) file with
        | os.Err err => (w, Ret (os.Err err))
        | os.OK d => (w, Ret (os.OK (bytes.ReadFrom bytes.new d)))
        end
    end.

Definition outputWriter (outputPath : string) : M (os.result Writer) :=
  if negb (String.eqb outputPath "") then promptAndCreateOutputFile outputPath
  else
    outputPath <- lift getOutputPathForNonScan ;;
    if String.eqb outputPath "" then ret (os.OK StdoutWriter)
    else promptAndCreateOutputFile outputPath.

(** [ioutil.ReadAll(r)] *)
Definition ReadAll (r : Reader) : M (os.result string) := fun w =>
  match r with
  | FileReader h => (w, Ret (os.ReadAll (fs w) h))
  | StdinReader =>
      (mkWorld (fs w) (umask w) (full w) [] (stdout w) (logs w),
       Ret (os.OK (fold_right String.append "" (stdin w))))
  end.

(** [executeTemplate(r, b)] with a buffer for the writer, as [scan] calls
    it: the buffer after the call and the error returned.  The
    configuration that [config()] hands to the template is part of
    [template_Execute]; loading it is not modelled. *)
Definition executeTemplate (r : Reader) (b : bytes.Buffer)
    : M (bytes.Buffer * option os.error) :=
  bs <- ReadAll r ;;
  match bs with
  | os.Err err => ret (b, Some err)
  | os.OK bs =>
      let (chunks, err) := template_Execute env bs in
      ret (fold_left bytes.Write chunks b, err)
  end.

(** [os.FileInfo], as far as the walk function reads it; the walk passes one
    for every entry below a root that can be read *)
Record FileInfo : Type := mkFileInfo { Name : string; IsDir : bool }.

(** What the walk function returns: [nil] or [filepath.SkipDir]. *)
Inductive WalkErr : Type := WalkNil | SkipDir.

(** [scan], lines 84 to 104: the template is rendered into a fresh buffer
    and the decision is taken; the buffer is handed on. *)
Definition scan_classify (scannedPath outputPath : string) (r : Reader)
    : M (Mode * bytes.Buffer) :=
  res <- executeTemplate r bytes.new ;;
  let (b, err) := res in
  match err with
  | Some err =>
      np <- lift (nicePath scannedPath) ;;
      log_Printf ("Failed to execute template " +:+ np +:+ ":" +:+ nl +:+ "    "
                    +:+ os.Error err +:+ nl) ;;;
      ret (FAIL, b)
  | None =>
      existing <- getExistingOutputFileContents outputPath ;;
      match existing with
      | os.Err err =>
          (if negb (os.IsNotExist err)
           then log_Printf ("Unexpected error getting existing output contents: "
                              +:+ os.Error err)
           else ret tt) ;;;
          ret (CREATE, b)
      | os.OK existing =>
          if negb (reflect.DeepEqual (bytes.Bytes b) (bytes.Bytes existing))
          then ret (MODIFY, b)
          else ret (KEEP, b)
      end
  end.

(** [scan], lines 106 to 129: the write; [None] when the walk function
    returns before the status line. *)
Definition scan_write (outputPath : string) (mode : Mode) (b : bytes.Buffer)
    : M (option Mode) :=
  match mode with
  | MODIFY | CREATE =>
      wr <- outputWriter outputPath ;;
      match wr with
      | os.Err err =>
          if bool_decide (err = skipReplace) then ret None
          else
            np <- lift (nicePath outputPath) ;;
            log_Printf ("Failed to create file " +:+ np +:+ ": " +:+ os.Error err
                          +:+ " ... skipping") ;;;
            ret None
      | os.OK wr =>
          cerr <- io_Copy wr b ;;
          mode <- (match cerr with
                   | Some err =>
                       log_Printf ("Unexpected error copying file: " +:+ os.Error err) ;;;
                       ret FAIL
                   | None => ret mode
                   end) ;;
          (if readOnly flags then
             err <- markFileReadOnly outputPath ;;
             match err with
             | Some err =>
                 log_Printf ("Failed to mark output path read only: " +:+ os.Error err)
             | None => ret tt
             end
           else ret tt) ;;;
          ret (Some mode)
      end
  | KEEP | FAIL => ret (Some mode)
  end.

(** [scan], lines 131 to 144: the status line *)
Definition scan_report (scannedPath outputPath : string) (mode : Mode) : M unit :=
  if porcelain flags then
    src <- lift (nicePath scannedPath) ;;
    dst <- lift (nicePath outputPath) ;;
    fmt_Printf (Mode_text mode +:+ tab +:+ src +:+ tab +:+ dst +:+ nl)
  else
    match mode with
    | KEEP =>
        dst <- lift (nicePath outputPath) ;;
        fmt_Printf ("No change made to " +:+ dst +:+ ". Skipping." +:+ nl)
    | MODIFY =>
        src <- lift (nicePath scannedPath) ;;
        dst <- lift (nicePath outputPath) ;;
        fmt_Printf ("Re-writing " +:+ src +:+ " to " +:+ dst +:+ "." +:+ nl)
    | CREATE =>
        src <- lift (nicePath scannedPath) ;;
        dst <- lift (nicePath outputPath) ;;
        fmt_Printf ("Writing " +:+ src +:+ " to new file " +:+ dst +:+ "." +:+ nl)
    | FAIL =>
        src <- lift (nicePath scannedPath) ;;
        fmt_Printf ("Failed to process " +:+ src +:+ ". Skipping." +:+ nl)
    end.

(** [scan]: the function that [filepath.Walk] calls for every entry below
    the working directory.  The walk goes on to the next entry when it
    returns [nil], and leaves out a directory on [SkipDir]. *)
Definition scan_walkFn (p : string) (info : FileInfo) (err : option os.error)
    : M WalkErr :=
  if IsDir info && String.eqb (Name info) ".templater" then ret SkipDir
  else if bool_decide (err = None) && regexp.MatchString templRegEx (Name info) then
    let scannedPath := p in
    if negb (path.IsAbs scannedPath) then panic (scannedPath +:+ " is not absolute")
    else
      outputPath <- lift (convertOutputPath scannedPath) ;;
      r <- inputReader scannedPath ;;
      match r with
      | os.Err err =>
          np <- lift (nicePath scannedPath) ;;
          log_Printf ("Failed to open for reading " +:+ np +:+ ": " +:+ os.Error err
                        +:+ " ... skipping") ;;;
          ret WalkNil
      | os.OK r =>
          cls <- scan_classify scannedPath outputPath r ;;
          let (mode, b) := cls in
          written <- scan_write outputPath mode b ;;
          match written with
          | None => ret WalkNil
          | Some mode => scan_report scannedPath outputPath mode ;;; ret WalkNil
          end
      end
  else ret WalkNil.

End Program.

(** ** A small installation, for the examples *)

Definition env0 : Env :=
  mkEnv (os.OK "/w")
        (fun base targ => os.OK (sdrop (S (String.length base)) targ))
        (fun text => ([text], None))
        (fun s => s) (fun s => s) (fun _ _ => false).

Definition flags0 : Flags := mkFlags true true false false false "" "" "" "" "" "".

Definition fs0 : gmap string os.Node :=
  <["/" := os.Directory 493]> (<["/w" := os.Directory 493]>
    (<["/w/a.tmpl" := os.File 420 "Hello"]> ∅)).

(** the flags of a scan with the given pair of prefixes *)
Definition prefixFlags (orig new : string) : Flags :=
  mkFlags true true false false false "" "" orig new "" "".

(** the flags of a run on one input file, without prefixes and without an
    output file *)
Definition inputFlags (input : string) : Flags :=
  mkFlags false false false false false "" input "" "" "" "".

(** the working directory [/w] with an empty template [a.tmpl] and an empty
    file [a] *)
Definition fsEmpty : gmap string os.Node :=
  <["/" := os.Directory 493]> (<["/w" := os.Directory 493]>
    (<["/w/a.tmpl" := os.File 420 ""]> (<["/w/a" := os.File 420 ""]> ∅))).

(** the working directory [/w] with a template [a.tmpl] and a directory [a] *)
Definition fsDir : gmap string os.Node :=
  <["/" := os.Directory 493]> (<["/w" := os.Directory 493]>
    (<["/w/a.tmpl" := os.File 420 "Hello"]> (<["/w/a" := os.Directory 493]> ∅))).

(** a scan that asks before it replaces a file *)
Definition interactiveFlags : Flags :=
  mkFlags true true false true false "" "" "" "" "" "".

(** the working directory [/w] with a template [a.tmpl] and an older file
    [a] of the given permissions *)
Definition fsOld (perm : N) : gmap string os.Node :=
  <["/" := os.Directory 493]> (<["/w" := os.Directory 493]>
    (<["/w/a.tmpl" := os.File 420 "Hello"]> (<["/w/a" := os.File perm "old"]> ∅))).

(** a dry run of a scan that is to mark its output read-only *)
Definition dryRunReadOnlyFlags : Flags :=
  mkFlags true true true false true "" "" "" "" "" "".

(** a scan that marks its output read-only *)
Definition readOnlyFlags : Flags :=
  mkFlags true true false false true "" "" "" "" "" "".

Definition world0 : World := mkWorld fs0 18 false [] [] [].


(** ** Vocabulary of the properties *)

(** what must follow the part matched by [.*]: [.tmpl], and then a dot or
    the end of the name *)
Definition afterDotStar (st : bool) (s : string) : bool :=
  regexp.matchK
    (regexp.Concat (regexp.Literal ("." +:+ extension))
       (regexp.Alternate (regexp.Literal ".") regexp.EndText))
    st s (fun _ _ => true).

Definition logged (w : World) (line : string) : World :=
  mkWorld (fs w) (umask w) (full w) (stdin w) (stdout w) (logs w ++ [line]).

(** the bytes of the chunks written, in order *)
Definition rendered (chunks : list string) : string := fold_right String.append "" chunks.

(** the line that the next read from standard input returns; empty at the
    end of the input *)
Definition answer (w : World) : string := hd "" (stdin w).

(** the world after the question has been printed and the answer has been
    read *)
Definition asked (w : World) (outputPath : string) : World :=
  mkWorld (fs w) (umask w) (full w) (tl (stdin w))
    (stdout w ++ ["Replace " +:+ outputPath +:+ "? [y|n] "]) (logs w).

(** the test on the answer in [promptAndCreateOutputFile] *)
Definition accepted (env : Env) (text : string) : bool :=
  let text := strings.TrimSpace (TrimFunc_IsSpace env) (TrimRightFunc_IsSpace env) text in
  strings.EqualFold (EqualFold_unicode env) text "y"
  || strings.EqualFold (EqualFold_unicode env) text "yes".

Definition isDirectoryIn (fs : gmap string os.Node) (d : string) : Prop :=
  exists perm, fs !! d = Some (os.Directory perm).

Definition keeps_fs {A : Type} (m : M A) : Prop := forall w, fs (fst (m w)) = fs w.

Fixpoint sforall (P : ascii -> bool) (s : string) : bool :=
  match s with
  | EmptyString => true
  | String c s' => P c && sforall P s'
  end.

(** an ASCII capital letter as its small letter *)
Definition lowerASCII (c : ascii) : ascii :=
  let n := nat_of_ascii c in
  if Nat.leb 65 n && Nat.leb n 90 then ascii_of_nat (n + 32) else c.

Fixpoint toLower (s : string) : string :=
  match s with
  | EmptyString => EmptyString
  | String c s' => String (lowerASCII c) (toLower s')
  end.

Fixpoint dropSpaces (s : string) : string :=
  match s with
  | EmptyString => EmptyString
  | String c s' => if strings.asciiSpace c then dropSpaces s' else s
  end.

(** [s] without the ASCII white space at its two ends *)
Definition trimASCII (s : string) : string :=
  strings.srev (dropSpaces (strings.srev (dropSpaces s))).

(** ** The whole process

    The functions above take the rendering of a template from
    [template_Execute].  Here the steps behind it are spelled out: the shared
    template [t], the configuration that [config] loads once and keeps in
    [cachedConfig], and the configuration file that [configFile] makes on
    first use.  On top of them come the walk of [scan] through the working
    directory and [main]. *)
Module Full.

Section Process.

(** [AnyConfig], the values parsed from the configuration file, and the
    state of the template [t] *)
Variable AnyConfig : Type.
Variable Template : Type.

Record Config : Type := mkConfig {
  Host : string;
  User : string;
  UserHost : string;
  Values : AnyConfig
}.

(** What the process takes from the system and from the libraries: the
    environment variables, the host name, the name of the current user, the
    strict YAML parser, and the template engine ([t.Parse], which may change
    [t], and [templ.Execute], given as the chunks it writes while no write
    fails and the error it ends with). *)
Record Sys : Type := mkSys {
  Getenv : string -> string;
  Hostname : os.result string;
  user_Current : os.result string;
  yaml_UnmarshalStrict : string -> os.result AnyConfig;
  template_Parse : Template -> string -> Template * option os.error;
  template_ExecuteWith : Template -> Config -> list string * option os.error
}.

(** The state of the process: the world, and the variables [cachedConfig]
    and [t] of the program. *)
Record Process : Type := mkProcess {
  world : World;
  cachedConfig : option Config;
  t : Template
}.

Definition P (A : Type) : Type := Process -> Process * outcome A.

Definition retP {A : Type} (a : A) : P A := fun p => (p, Ret a).

Definition bindP {A B : Type} (m : P A) (k : A -> P B) : P B := fun p =>
  match m p with
  | (p', Ret a) => k a p'
  | (p', Fatal msg) => (p', Fatal msg)
  | (p', Panic msg) => (p', Panic msg)
  end.

Notation "x <~ m ;; k" := (bindP m (fun x => k))
  (at level 100, m at next level, right associativity).
Notation "m ;;~ k" := (bindP m (fun _ => k))
  (at level 100, right associativity).

(** a call that works on the world only *)
Definition liftW {A : Type} (m : M A) : P A := fun p =>
  let (w, o) := m (world p) in (mkProcess w (cachedConfig p) (t p), o).

Variable sys : Sys.
Variable env : Env.
Variable flags : Flags.

Definition defaultConfig : string :=
  "HiDpi: true" +:+ nl +:+ "InDocker: false" +:+ nl.

(** the path that [configFile] settles on: [$TEMPLATER_CONFIG], or
    [$HOME/.config/templater/config] when that is empty *)
Definition configPath : string :=
  let configPath := Getenv sys "TEMPLATER_CONFIG" in
  if String.eqb configPath "" then Getenv sys "HOME" +:+ "/.config/templater/config"
  else configPath.

Definition configFile : M string := fun w =>
  match os.Stat (fs w) configPath with
  | os.OK _ => (w, Ret configPath)
  | os.Err err =>
      if os.IsNotExist err then
        let dir := path.Dir configPath in
        match os.MkdirAll (umask w) (fs w) dir os.ModePerm with
        | (fs1, Some err) => (set_fs w fs1, Panic (os.Error err))
        | (fs1, None) =>
            match os.Create (umask w) fs1 configPath with
            | (fs2, os.Err err) => (set_fs w fs2, Panic (os.Error err))
            | (fs2, os.OK f) =>
                match os.Write (full w) fs2 f defaultConfig with
                | (fs3, Some err) => (set_fs w fs3, Panic (os.Error err))
                | (fs3, None) => (set_fs w fs3, Ret configPath)
                end
            end
        end
      else (w, Ret configPath)
  end.

(** [ioutil.ReadFile] *)
Definition ReadFile (name : string) : M (os.result string) := fun w =>
  match os.Open (fs w) name with
  | os.Err err => (w, Ret (os.Err err))
  | os.OK f => (w, Ret (os.ReadAll (fs w) f))
  end.

Definition config : P Config := fun p =>
  match cachedConfig p with
  | Some c => (p, Ret c)
  | None =>
      (configFile <~ liftW configFile ;;
       bs <~ liftW (ReadFile configFile) ;;
       match bs with
       | os.Err err => liftW (panic (os.Error err))
       | os.OK bs =>
           match yaml_UnmarshalStrict sys bs with
           | os.Err err => liftW (log_Fatalf (os.Error err))
           | os.OK exConfig =>
               match Hostname sys with
               | os.Err err => liftW (panic (os.Error err))
               | os.OK hostName =>
                   match user_Current sys with
                   | os.Err err => liftW (panic (os.Error err))
                   | os.OK username =>
                       let host := if negb (String.eqb (hostOverride flags) "")
                                   then hostOverride flags else hostName in
                       let user := if negb (String.eqb (userOverride flags) "")
                                   then userOverride flags else username in
                       let config := mkConfig host user (user +:+ "@" +:+ host) exConfig in
                       fun p' =>
                         (mkProcess (world p') (Some config) (t p'), Ret config)
                   end
               end
           end
       end) p
  end.

(** [executeTemplate] up to the writing: the template text is read and
    parsed into [t], the configuration is loaded, and the template is
    executed; the result is what [templ.Execute] writes and the error that
    [executeTemplate] returns when every write succeeds. *)
Definition render (r : Reader) : P (list string * option os.error) :=
  bs <~ liftW (ReadAll r) ;;
  match bs with
  | os.Err err => retP ([], Some err)
  | os.OK bs =>
      fun p =>
        let (templ, err) := template_Parse sys (t p) bs in
        match err with
        | Some err => (mkProcess (world p) (cachedConfig p) templ, Ret ([], Some err))
        | None =>
            (config <~ config ;;
             retP (template_ExecuteWith sys templ config))
              (mkProcess (world p) (cachedConfig p) templ)
        end
  end.

(** [executeTemplate(r, b)] with a buffer, as [scan] calls it *)
Definition executeTemplate (r : Reader) (b : bytes.Buffer)
    : P (bytes.Buffer * option os.error) :=
  res <~ render r ;;
  retP (fold_left bytes.Write (fst res) b, snd res).

(** one [Write] of the template engine on the writer that [outputWriter]
    returned *)
Definition Writer_Write (wr : Writer) (d : string) : M (option os.error) :=
  match wr with
  | Discard => ret None
  | StdoutWriter => fmt_Printf d ;;; ret None
  | FileWriter h =>
      if String.eqb d "" then ret None
      else fun w =>
        let (fs', e) := os.Write (full w) (fs w) h d in (set_fs w fs', Ret e)
  end.

(** the writes of [templ.Execute], which ends at the first write that
    fails, with the error of that write *)
Fixpoint writeChunks (wr : Writer) (chunks : list string) (err : option os.error)
    : M (option os.error) :=
  match chunks with
  | [] => ret err
  | d :: rest =>
      e <- Writer_Write wr d ;;
      match e with
      | Some e => ret (Some e)
      | None => writeChunks wr rest err
      end
  end.

(** [executeTemplate(r, w)] with the writer of a run on one file, as [main]
    calls it *)
Definition executeTemplateTo (r : Reader) (wr : Writer) : P (option os.error) :=
  res <~ render r ;;
  liftW (writeChunks wr (fst res) (snd res)).

(** [scan], lines 84 to 104 *)
Definition scan_classify (scannedPath outputPath : string) (r : Reader)
    : P (Mode * bytes.Buffer) :=
  res <~ executeTemplate r bytes.new ;;
  let (b, err) := res in
  match err with
  | Some err =>
      np <~ liftW (lift (nicePath env scannedPath)) ;;
      liftW (log_Printf ("Failed to execute template " +:+ np +:+ ":" +:+ nl +:+ "    "
                           +:+ os.Error err +:+ nl)) ;;~
      retP (FAIL, b)
  | None =>
      existing <~ liftW (getExistingOutputFileContents outputPath) ;;
      match existing with
      | os.Err err =>
          (if negb (os.IsNotExist err)
           then liftW (log_Printf ("Unexpected error getting existing output contents: "
                                     +:+ os.Error err))
           else retP tt) ;;~
          retP (CREATE, b)
      | os.OK existing =>
          if negb (reflect.DeepEqual (bytes.Bytes b) (bytes.Bytes existing))
          then retP (MODIFY, b)
          else retP (KEEP, b)
      end
  end.

(** the function that [scan] hands to [filepath.Walk]; a walk that could not
    read an entry passes no [FileInfo], and the first line of the function
    then fails on the nil value *)
Definition scan_walkFn (p : string) (info : option FileInfo) (err : option os.error)
    : P WalkErr :=
  match info with
  | None => liftW (panic "runtime error: invalid memory address or nil pointer dereference")
  | Some info =>
      if IsDir info && String.eqb (Name info) ".templater" then retP SkipDir
      else if bool_decide (err = None) && regexp.MatchString templRegEx (Name info) then
        let scannedPath := p in
        if negb (path.IsAbs scannedPath)
        then liftW (panic (scannedPath +:+ " is not absolute"))
        else
          outputPath <~ liftW (lift (convertOutputPath env flags scannedPath)) ;;
          r <~ liftW (inputReader flags scannedPath) ;;
          match r with
          | os.Err err =>
              np <~ liftW (lift (nicePath env scannedPath)) ;;
              liftW (log_Printf ("Failed to open for reading " +:+ np +:+ ": "
                                   +:+ os.Error err +:+ " ... skipping")) ;;~
              retP WalkNil
          | os.OK r =>
              cls <~ scan_classify scannedPath outputPath r ;;
              let (mode, b) := cls in
              written <~ liftW (scan_write env flags outputPath mode b) ;;
              match written with
              | None => retP WalkNil
              | Some mode =>
                  liftW (scan_report env flags scannedPath outputPath mode) ;;~
                  retP WalkNil
              end
          end
      else retP WalkNil
  end.

(** [readDirNames]: the names of the entries of a directory, sorted *)
Definition readDirNames (fs : gmap string os.Node) (dirname : string) : list string :=
  merge_sort String.le
    (map path.Base
       (filter (fun k => k <> os.key dirname /\ path.Dir k = os.key dirname)
          (map fst (map_to_list fs)))).

(** [os.Lstat], for the walk: the name and the kind of an entry *)
Definition lstat (fs : gmap string os.Node) (name : string) : os.result FileInfo :=
  match os.Stat fs name with
  | os.Err err => os.Err err
  | os.OK (os.File _ _) => os.OK (mkFileInfo (path.Base name) false)
  | os.OK (os.Directory _) => os.OK (mkFileInfo (path.Base name) true)
  end.

(** [walk] of [path/filepath]: the function is called on the entry, and for
    a directory on the entries below it, in the order of their names.
    [SkipDir] from a directory leaves out what is below it; from a file it
    leaves out the rest of the directory.  [fuel] bounds the depth of the
    directories that are entered. *)
Fixpoint walk (fuel : nat) (walkFn : string -> option FileInfo -> option os.error -> P WalkErr)
    (p : string) (info : FileInfo) {struct fuel} : P WalkErr :=
  if negb (IsDir info) then walkFn p (Some info) None
  else fun proc =>
    let names := readDirNames (fs (world proc)) p in
    (err1 <~ walkFn p (Some info) None ;;
     match err1 with
     | SkipDir => retP SkipDir
     | WalkNil =>
         match fuel with
         | O => retP WalkNil
         | S fuel' =>
             (fix each (names : list string) : P WalkErr :=
                match names with
                | [] => retP WalkNil
                | name :: rest =>
                    let filename := filepath.Join p name in
                    fun proc' =>
                      match lstat (fs (world proc')) filename with
                      | os.Err err =>
                          (walkFn filename None (Some err) ;;~ each rest) proc'
                      | os.OK fileInfo =>
                          (e <~ walk fuel' walkFn filename fileInfo ;;
                           match e with
                           | WalkNil => each rest
                           | SkipDir => if IsDir fileInfo then each rest else retP SkipDir
                           end) proc'
                      end
                end) names
         end
     end) proc.

(** [filepath.Walk]: an error of the function other than [SkipDir] would be
    returned; the function of [scan] has none. *)
Definition filepath_Walk (fuel : nat)
    (walkFn : string -> option FileInfo -> option os.error -> P WalkErr) (root : string)
    : P unit := fun proc =>
  match lstat (fs (world proc)) root with
  | os.Err err => (walkFn root None (Some err) ;;~ retP tt) proc
  | os.OK info => (walk fuel walkFn root info ;;~ retP tt) proc
  end.

Definition scan (fuel : nat) : P unit :=
  match Getwd env with
  | os.Err err => liftW (log_Fatalf ("Failed to get working dir: " +:+ os.Error err))
  | os.OK cwd => filepath_Walk fuel scan_walkFn cwd
  end.

Definition isValid : bool := true.

(** [main] after [flag.Parse]; [isValid] is [true], and the branch that
    prints the usage is left out. *)
Definition main (fuel : nat) : P unit :=
  if shouldScan flags then scan fuel
  else
    r <~ liftW (inputReader flags "") ;;
    match r with
    | os.Err err =>
        liftW (log_Fatalf ("Failed to open for reading " +:+ in_ flags +:+ ": "
                             +:+ os.Error err))
    | os.OK r =>
        w <~ liftW (outputWriter env flags "") ;;
        match w with
        | os.Err err =>
            liftW (log_Fatalf ("Failed to create file " +:+ out flags +:+ ": "
                                 +:+ os.Error err))
        | os.OK w =>
            stop <~ (if shouldDryRun flags then
                       let read := if isStdin flags then "<stdin>" else in_ flags in
                       o <~ liftW (lift (getOutputPathForNonScan env flags)) ;;
                       np <~ liftW (lift (nicePath env o)) ;;
                       liftW (fmt_Printf ("Will read from " +:+ read +:+ " and write to "
                                            +:+ np +:+ nl)) ;;~
                       retP (isStdin flags)
                     else retP false) ;;
            if stop then retP tt
            else
              err <~ executeTemplateTo r w ;;
              match err with
              | Some err =>
                  liftW (log_Fatalf ("Failed execute template: " +:+ nl +:+ "    "
                                       +:+ os.Error err))
              | None => retP tt
              end
        end
    end.

End Process.

End Full.

Arguments Full.mkConfig {AnyConfig}.
Arguments Full.Host {AnyConfig}.
Arguments Full.User {AnyConfig}.
Arguments Full.UserHost {AnyConfig}.
Arguments Full.Values {AnyConfig}.
Arguments Full.mkSys {AnyConfig Template}.
Arguments Full.Getenv {AnyConfig Template}.
Arguments Full.Hostname {AnyConfig Template}.
Arguments Full.user_Current {AnyConfig Template}.
Arguments Full.yaml_UnmarshalStrict {AnyConfig Template}.
Arguments Full.template_Parse {AnyConfig Template}.
Arguments Full.template_ExecuteWith {AnyConfig Template}.
Arguments Full.mkProcess {AnyConfig Template}.
Arguments Full.world {AnyConfig Template}.
Arguments Full.cachedConfig {AnyConfig Template}.
Arguments Full.t {AnyConfig Template}.
Arguments Full.retP {AnyConfig Template A}.
Arguments Full.bindP {AnyConfig Template A B}.
Arguments Full.liftW {AnyConfig Template A}.
Arguments Full.configPath {AnyConfig Template}.
Arguments Full.configFile {AnyConfig Template}.
Arguments Full.config {AnyConfig Template}.
Arguments Full.render {AnyConfig Template}.
Arguments Full.executeTemplate {AnyConfig Template}.
Arguments Full.executeTemplateTo {AnyConfig Template}.
Arguments Full.scan_classify {AnyConfig Template}.
Arguments Full.scan_walkFn {AnyConfig Template}.
Arguments Full.walk {AnyConfig Template}.
Arguments Full.filepath_Walk {AnyConfig Template}.
Arguments Full.scan {AnyConfig Template}.
Arguments Full.main {AnyConfig Template}.

(** ** The previous version of the program (the second one in [main.go]) *)
Module Previous.

(** [templRegEx]: [^.+(\.tmpl)(\.|$)] *)
Definition templRegEx : regexp.Regexp :=
  regexp.Concat regexp.BeginText
    (regexp.Concat
       (regexp.Concat regexp.AnyCharNotNL (regexp.Star regexp.AnyCharNotNL))
       (regexp.Concat (regexp.Literal ("." +:+ extension))
          (regexp.Alternate (regexp.Literal ".") regexp.EndText))).

(** [createOutputFile] without the call of [os.Remove] *)
Definition createOutputFile (outputPath : string) : M (os.result Writer) := fun w =>
  let dir := path.Dir outputPath in
  match os.MkdirAll (umask w) (fs w) dir os.ModePerm with
  | (fs1, Some err) => (set_fs w fs1, Ret (os.Err err))
  | (fs1, None) =>
      match os.Create (umask w) fs1 outputPath with
      | (fs2, os.OK h) => (set_fs w fs2, Ret (os.OK (FileWriter h)))
      | (fs2, os.Err err) => (set_fs w fs2, Ret (os.Err err))
      end
  end.

Definition isStdin (flags : Flags) : bool := String.eqb (in_ flags) "".

Definition shouldPromptBeforeWrite (flags : Flags) : bool :=
  interactive flags && negb (isStdin flags).

End Previous.

(** ** Further vocabulary *)

(** the write step of [scan] once the gate has handed out a writer *)
Definition scan_write_with (flags : Flags) (outputPath : string) (mode : Mode)
    (b : bytes.Buffer) (wr : Writer) : M (option Mode) :=
  cerr <- io_Copy wr b ;;
  mode <- (match cerr with
           | Some err =>
               log_Printf ("Unexpected error copying file: " +:+ os.Error err) ;;;
               ret FAIL
           | None => ret mode
           end) ;;
  (if readOnly flags then
     err <- markFileReadOnly outputPath ;;
     match err with
     | Some err =>
         log_Printf ("Failed to mark output path read only: " +:+ os.Error err)
     | None => ret tt
     end
   else ret tt) ;;;
  ret (Some mode).

(** a path element without a slash *)
Definition noSlash (e : string) : Prop := smem slash e = false.

(** an element that [path.Clean] keeps as it is: not empty, not [.], not
    [..], without a slash *)
Definition properElement (e : string) : Prop :=
  e <> "" /\ e <> "." /\ e <> ".." /\ noSlash e.

(** the stack of [path.Clean], last element first: proper elements on top of
    [..] elements, and no [..] at all in a rooted path *)
Definition stackOK (rooted : bool) (st : list string) : Prop :=
  exists ps ds, st = ps ++ ds /\ Forall properElement ps /\ Forall (eq "..") ds
                /\ (rooted = true -> ds = []).

(** the configuration file is there, or [os.Stat] fails on it with an error
    that is not "does not exist": [configFile] then creates nothing *)
Definition configSettled {AnyConfig Template : Type} (sys : Full.Sys AnyConfig Template)
    (fs : gmap string os.Node) : Prop :=
  forall err, os.Stat fs (Full.configPath sys) = os.Err err -> os.IsNotExist err = false.

(** a step of the process that keeps every entry of the file system other
    than the configuration file, and that changes nothing at all where the
    configuration file is settled *)
Definition keeps_files {AnyConfig Template A : Type} (sys : Full.Sys AnyConfig Template)
    (m : Full.P AnyConfig Template A) : Prop :=
  forall p,
    (forall k n, k <> os.key (Full.configPath sys) ->
                 fs (Full.world p) !! k = Some n ->
                 fs (Full.world (fst (m p))) !! k = Some n)
    /\ (configSettled sys (fs (Full.world p)) ->
        fs (Full.world (fst (m p))) = fs (Full.world p)).

(** a system for the examples: home directory [/home/u], host [box], user
    [bob]; every configuration file parses; the template engine writes the
    template text and the name of the user *)
Definition sys0 : Full.Sys unit string :=
  Full.mkSys (fun v => if String.eqb v "HOME" then "/home/u" else "")
    (os.OK "box") (os.OK "bob") (fun _ => os.OK tt)
    (fun _ text => (text, None))
    (fun text c => ([text; Full.User c], None)).

(** a tree for the examples: two templates, one of them below [sub], a
    private directory [.templater], and a file that is no template *)
Definition fsTree : gmap string os.Node :=
  <["/" := os.Directory 493]> (<["/w" := os.Directory 493]>
    (<["/w/a.tmpl" := os.File 420 "Hello "]>
    (<["/w/sub" := os.Directory 493]>
    (<["/w/sub/b.tmpl.sh" := os.File 420 "echo "]>
    (<["/w/.templater" := os.Directory 493]>
    (<["/w/.templater/c.tmpl" := os.File 420 "no"]>
    (<["/w/notes.txt" := os.File 420 "x"]> ∅))))))).

(** the same tree with the configuration file of [sys0] in place *)
Definition fsConfigured : gmap string os.Node :=
  <["/home" := os.Directory 493]> (<["/home/u" := os.Directory 493]>
    (<["/home/u/.config" := os.Directory 493]>
    (<["/home/u/.config/templater" := os.Directory 493]>
    (<["/home/u/.config/templater/config" := os.File 420 "HiDpi: false"]> fsTree)))).

(** a process that has not loaded its configuration yet *)
Definition process0 (fs : gmap string os.Node) : Full.Process unit string :=
  Full.mkProcess (mkWorld fs 18 false [] [] []) None "".

(** two states of the process with the same world, the same cached
    configuration and the same template *)
Definition same_process {AnyConfig Template : Type}
    (p p' : Full.Process AnyConfig Template) : Prop :=
  Full.world p' = Full.world p /\ Full.cachedConfig p' = Full.cachedConfig p
  /\ Full.t p' = Full.t p.

(** a step that does nothing to the process when it starts on the files
    [fs0] *)
Definition idle {AnyConfig Template A : Type} (fs0 : gmap string os.Node)
    (m : Full.P AnyConfig Template A) : Prop :=
  forall p, fs (Full.world p) = fs0 -> same_process p (fst (m p)).

(** no entry has a name that the pattern of the scanner matches *)
Definition noTemplates (fs : gmap string os.Node) : Prop :=
  map_Forall (fun k _ => regexp.MatchString templRegEx (path.Base k) = false) fs.

(** the bytes of the existing output file, as [getExistingOutputFileContents]
    reads them *)
Definition contents (fs : gmap string os.Node) (outputPath : string) : os.result string :=
  match os.Open fs outputPath with
  | os.Err err => os.Err err
  | os.OK file => os.ReadAll fs file
  end.

(** the decision as a table: of the error of rendering, the bytes rendered
    and the existing output *)
Definition decision (err : option os.error) (bs : string) (existing : os.result string)
    : Mode :=
  match err with
  | Some _ => FAIL
  | None =>
      match existing with
      | os.Err _ => CREATE
      | os.OK d => if String.eqb bs d && negb (String.eqb d "") then KEEP else MODIFY
      end
  end.

(** the world after the decision: what [scan] logs on the way to it *)
Definition classified (scannedName outputPath : string) (err : option os.error) (w : World)
    : World :=
  match err with
  | Some e =>
      logged w ("Failed to execute template " +:+ scannedName +:+ ":" +:+ nl +:+ "    "
                  +:+ os.Error e +:+ nl)
  | None =>
      match contents (fs w) outputPath with
      | os.Err e =>
          if os.IsNotExist e then w
          else logged w ("Unexpected error getting existing output contents: "
                           +:+ os.Error e)
      | os.OK _ => w
      end
  end.

(** the status line of [scan] *)
Definition statusLine (flags : Flags) (mode : Mode) (src dst : string) : string :=
  if porcelain flags then Mode_text mode +:+ tab +:+ src +:+ tab +:+ dst +:+ nl
  else
    match mode with
    | KEEP => "No change made to " +:+ dst +:+ ". Skipping." +:+ nl
    | MODIFY => "Re-writing " +:+ src +:+ " to " +:+ dst +:+ "." +:+ nl
    | CREATE => "Writing " +:+ src +:+ " to new file " +:+ dst +:+ "." +:+ nl
    | FAIL => "Failed to process " +:+ src +:+ ". Skipping." +:+ nl
    end.

(** the world after a line has been printed *)
Definition printed (w : World) (line : string) : World :=
  mkWorld (fs w) (umask w) (full w) (stdin w) (stdout w ++ [line]) (logs w).

(** a tree without a template: [tmpl] is a name, not an extension *)
Definition fsPlain : gmap string os.Node :=
  <["/" := os.Directory 493]> (<["/w" := os.Directory 493]>
    (<["/w/notes.txt" := os.File 420 "x"]>
    (<["/w/sub" := os.Directory 493]>
    (<["/w/sub/tmpl" := os.File 420 "{{.User}}"]> ∅)))).

(** a run on the file [/w/a.tmpl] with the output [/w/a], asking before a
    replacement *)
Definition askFlags : Flags := mkFlags false false false true false "/w/a" "/w/a.tmpl" "" "" "" "".

(** a dry run of a scan *)
Definition dryRunFlags : Flags := mkFlags true true true false false "" "" "" "" "" "".

(** the tree of [fs0] with a template that its owner may not read *)
Definition fsLocked : gmap string os.Node :=
  <["/w/a.tmpl" := os.File 0 "Hello"]> fs0.

(** the configured tree with the output of [a.tmpl] in place *)
Definition fsRendered : gmap string os.Node :=
  <["/w/a" := os.File 420 "Hello bob"]> fsConfigured.

(** a system whose template engine refuses every template *)
Definition sysRefusing : Full.Sys unit string :=
  Full.mkSys (Full.Getenv sys0) (os.OK "box") (os.OK "bob") (fun _ => os.OK tt)
    (fun t _ => (t, Some (os.errorString "template: unclosed action")))
    (Full.template_ExecuteWith sys0).

(** the absolute path with the elements [ps] *)
Definition rooted (ps : list string) : string := String slash (path.join ps).

(** some directory on the way to [k] has the name [.templater] *)
Definition hiddenPath (k : string) : bool :=
  existsb (String.eqb ".templater") (removelast (path.split k)).

(** every name in the file system is a cleaned absolute path *)
Definition wellFormed (fs : gmap string os.Node) : Prop :=
  map_Forall (fun k _ => path.Clean k = k /\ path.IsAbs k = true) fs.

(** every entry with the name of a template lies below a directory
    [.templater] *)
Definition templatesHidden (fs : gmap string os.Node) : Prop :=
  map_Forall (fun k _ => regexp.MatchString templRegEx (path.Base k) = true ->
                         hiddenPath k = true) fs.

(** what holds of every entry that the walk of [scan] comes to, in a file
    system [fs0] whose templates are hidden: it is a cleaned absolute path
    of [fs0] that is not below a directory [.templater] *)
Definition visited (fs0 : gmap string os.Node) (p : string) (info : FileInfo) : Prop :=
  exists ps, Forall properElement ps /\ p = rooted ps
             /\ existsb (String.eqb ".templater") (removelast ps) = false
             /\ Name info = path.Base p /\ is_Some (fs0 !! p).

(** a tree whose templates all lie below directories [.templater] *)
Definition fsHidden : gmap string os.Node :=
  <["/" := os.Directory 493]> (<["/w" := os.Directory 493]>
    (<["/w/notes.txt" := os.File 420 "x"]>
    (<["/w/.templater" := os.Directory 493]>
    (<["/w/.templater/c.tmpl" := os.File 420 "{{.User}}"]>
    (<["/w/sub" := os.Directory 493]>
    (<["/w/sub/.templater" := os.Directory 493]>
    (<["/w/sub/.templater/d.tmpl.sh" := os.File 420 "{{.Host}}"]> ∅))))))).

(** * Properties *)

(** ** Strings *)

Lemma sapp_nil_r (s : string) : s +:+ "" = s.
Proof. induction s as [|c s IH]; simpl; [reflexivity | now rewrite IH]. Qed.

Lemma sapp_assoc (a b c : string) : (a +:+ b) +:+ c = a +:+ b +:+ c.
Proof. induction a as [|x a IH]; simpl; [reflexivity | now rewrite IH]. Qed.

Lemma slength_app (a b : string) :
  String.length (a +:+ b) = String.length a + String.length b.
Proof. induction a as [|x a IH]; simpl; [reflexivity | now rewrite IH]. Qed.

Lemma sdrop_app (a b : string) : sdrop (String.length a) (a +:+ b) = b.
Proof. induction a as [|x a IH]; simpl; [reflexivity | exact IH]. Qed.

Lemma stake_app (a b : string) : stake (String.length a) (a +:+ b) = a.
Proof. induction a as [|x a IH]; simpl; [now destruct b | now rewrite IH]. Qed.

Lemma stake_sdrop (n : nat) (s : string) : stake n s +:+ sdrop n s = s.
Proof.
  revert s; induction n as [|n IH]; intros [|c s]; simpl; try reflexivity.
  now rewrite IH.
Qed.

Lemma sdrop_sdrop (n m : nat) (s : string) : sdrop n (sdrop m s) = sdrop (m + n) s.
Proof.
  revert s; induction m as [|m IH]; intros s; simpl; [reflexivity|].
  destruct s as [|c s]; [now destruct n | apply IH].
Qed.

Lemma sdrop_ge (n : nat) (s : string) : String.length s <= n -> sdrop n s = "".
Proof.
  revert s; induction n as [|n IH]; intros [|c s]; simpl; intros H;
    try reflexivity; try lia.
  apply IH; lia.
Qed.

Lemma prefix_app (a b : string) : String.prefix a (a +:+ b) = true.
Proof.
  induction a as [|x a IH]; simpl; [now destruct b|].
  destruct (ascii_dec x x) as [_|N]; [exact IH | now elim N].
Qed.

Lemma prefix_split (a s : string) :
  String.prefix a s = true -> s = a +:+ sdrop (String.length a) s.
Proof.
  revert s; induction a as [|x a IH]; intros s H; simpl; [reflexivity|].
  destruct s as [|c s]; simpl in H; [discriminate|].
  destruct (ascii_dec x c) as [->|_]; [|discriminate].
  simpl. now rewrite <- IH.
Qed.

Lemma prefix_length (a s : string) :
  String.prefix a s = true -> String.length a <= String.length s.
Proof.
  intros H. rewrite (prefix_split a s H), slength_app. lia.
Qed.

(** Whether [a] is a prefix is decided by the first [length a] characters. *)
Lemma prefix_app_long (a x y : string) :
  String.length a <= String.length x ->
  String.prefix a (x +:+ y) = String.prefix a x.
Proof.
  revert x; induction a as [|c a IH]; intros x H.
  - now destruct x; destruct y.
  - destruct x as [|d x]; simpl in H; [lia|]. simpl.
    destruct (ascii_dec c d); [apply IH; lia | reflexivity].
Qed.

Lemma Contains_unfold (s sub : string) :
  strings.Contains s sub =
  String.prefix sub s || match s with
                         | EmptyString => false
                         | String _ s' => strings.Contains s' sub
                         end.
Proof. now destruct s. Qed.

Lemma Index_unfold (s sub : string) :
  strings.Index s sub =
  if String.prefix sub s then Some 0
  else match s with
       | EmptyString => None
       | String _ s' => S <$> strings.Index s' sub
       end.
Proof. now destruct s. Qed.

Lemma Contains_spec (s sub : string) :
  strings.Contains s sub = true <-> exists a b, s = a +:+ sub +:+ b.
Proof.
  split.
  - induction s as [|c s IH]; simpl; intros H.
    + rewrite orb_false_r in H. exists "", "".
      destruct sub; [reflexivity | discriminate].
    + apply orb_true_iff in H as [H|H].
      * exists "", (sdrop (String.length sub) (String c s)). simpl.
        now apply prefix_split.
      * destruct (IH H) as (a & b & ->). now exists (String c a), b.
  - intros (a & b & ->). induction a as [|c a IH]; simpl.
    + now rewrite Contains_unfold, prefix_app.
    + rewrite IH. apply orb_true_r.
Qed.

Lemma Index_None (s sub : string) :
  strings.Contains s sub = false -> strings.Index s sub = None.
Proof.
  induction s as [|c s IH]; simpl; intros H; apply orb_false_iff in H as [H1 H2];
    rewrite H1; [reflexivity|].
  now rewrite (IH H2).
Qed.

(** The first occurrence: [old] ends with the character [l], and does not
    occur in [pre] followed by [old] without that last character. *)
Lemma Index_first (pre old' post : string) (l : ascii) :
  strings.Contains (pre +:+ old') (old' +:+ String l "") = false ->
  strings.Index (pre +:+ (old' +:+ String l "") +:+ post) (old' +:+ String l "")
  = Some (String.length pre).
Proof.
  induction pre as [|c pre IH]; intros H.
  - change ("" +:+ (old' +:+ String l "") +:+ post) with ((old' +:+ String l "") +:+ post).
    now rewrite Index_unfold, prefix_app.
  - change (String c pre +:+ old') with (String c (pre +:+ old')) in H.
    rewrite Contains_unfold in H. apply orb_false_iff in H as [H1 H2].
    change (String c pre +:+ (old' +:+ String l "") +:+ post)
      with (String c (pre +:+ (old' +:+ String l "") +:+ post)).
    rewrite Index_unfold, (IH H2).
    replace (String c (pre +:+ (old' +:+ String l "") +:+ post))
      with (String c (pre +:+ old') +:+ (String l "" +:+ post)).
    2:{ simpl. f_equal. now rewrite !sapp_assoc. }
    rewrite prefix_app_long, H1; [reflexivity|].
    simpl. rewrite !slength_app. simpl. lia.
Qed.

Lemma Replace_first (pre old' post new : string) (l : ascii) :
  strings.Contains (pre +:+ old') (old' +:+ String l "") = false ->
  strings.Replace (pre +:+ (old' +:+ String l "") +:+ post) (old' +:+ String l "") new 1
  = pre +:+ new +:+ post.
Proof.
  intros H. cbn [strings.Replace]. rewrite (Index_first _ _ _ _ H).
  rewrite stake_app. f_equal. f_equal.
  now rewrite <- sdrop_sdrop, !sdrop_app.
Qed.

Lemma Replace_absent (s old new : string) (n : nat) :
  strings.Contains s old = false -> strings.Replace s old new n = s.
Proof.
  intros H. destruct n; simpl; [reflexivity|]. now rewrite (Index_None _ _ H).
Qed.

(** ** Suffix stripping *)

(** C4.  [stripTempl] returns a base name without [.tmpl] unchanged; in a
    base name [pre.tmplpost] whose shown [.tmpl] is the first one (there is
    none in [pre.tmp]) it removes exactly that occurrence and keeps [pre]
    and [post], whatever [post] contains. *)
Theorem stripTempl_first_occurrence :
  (forall base : string,
      strings.Contains base ".tmpl" = false -> stripTempl base = base) /\
  (forall pre post : string,
      strings.Contains (pre +:+ ".tmp") ".tmpl" = false ->
      stripTempl (pre +:+ ".tmpl" +:+ post) = pre +:+ post).
Proof.
  split.
  - intros base H. now apply Replace_absent.
  - intros pre post H. unfold stripTempl.
    change ("." +:+ extension) with (".tmp" +:+ String "l" "").
    change (pre +:+ ".tmpl" +:+ post) with (pre +:+ (".tmp" +:+ String "l" "") +:+ post).
    now rewrite (Replace_first pre ".tmp" post "" "l" H).
Qed.

Lemma stripTempl_first_occurrence_witness :
  stripTempl "notes.txt" = "notes.txt" /\
  stripTempl ("a" +:+ ".tmpl" +:+ ".tmpl") = "a" +:+ ".tmpl".
Proof.
  split.
  - apply (proj1 stripTempl_first_occurrence). reflexivity.
  - apply (proj2 stripTempl_first_occurrence "a" ".tmpl"). reflexivity.
Defined.

(** ** The model of [path] on the test tables of the library *)

Example path_Clean_table :
  map path.Clean
    [""; "abc"; "abc/def"; "."; ".."; "../../abc"; "/abc"; "/"; "abc/"; "./"; "../../";
     "/abc/"; "abc//def//ghi"; "//abc"; "///abc"; "//abc//"; "abc/./def"; "/./abc/def";
     "abc/."; "abc/def/ghi/../jkl"; "abc/def/../ghi/../jkl"; "abc/def/.."; "abc/def/../..";
     "/abc/def/../.."; "abc/def/../../.."; "/abc/def/../../..";
     "abc/def/../../../ghi/jkl/../../../mno"; "abc/./../def"; "abc/../../././../def"]
  = ["."; "abc"; "abc/def"; "."; ".."; "../../abc"; "/abc"; "/"; "abc"; "."; "../..";
     "/abc"; "abc/def/ghi"; "/abc"; "/abc"; "/abc"; "abc/def"; "/abc/def";
     "abc"; "abc/def/jkl"; "abc/jkl"; "abc"; ".";
     "/"; ".."; "/";
     "../../mno"; "def"; "../../def"].
Proof. reflexivity. Qed.

Example path_Dir_table :
  map path.Dir [""; "."; "/."; "/"; "////"; "/foo"; "x/"; "abc"; "abc/def"; "abc////def";
                "a/b/.x"; "a/b/c."; "a/b/c.x"]
  = ["."; "."; "/"; "/"; "/"; "/"; "x"; "."; "abc"; "abc"; "a/b"; "a/b"; "a/b"].
Proof. reflexivity. Qed.

Example path_Base_table :
  map path.Base [""; "."; "/."; "/"; "////"; "x/"; "abc"; "abc/def"; "a/b/.x"; "a/b/c.";
                 "a/b/c.x"]
  = ["."; "."; "."; "/"; "/"; "x"; "abc"; "def"; ".x"; "c."; "c.x"].
Proof. reflexivity. Qed.

Example path_Join_table :
  map (fun ab => path.Join (fst ab) (snd ab))
    [("a", "b"); ("a", ""); ("", "b"); ("/", "a"); ("/", ""); ("a/", "b"); ("a/", "");
     ("", "")]
  = ["a/b"; "a"; "b"; "/a"; "/"; "a/b"; "a"; ""].
Proof. reflexivity. Qed.

(** ** Path mapping *)

Lemma Clean_nonempty (p : string) : path.Clean p <> "".
Proof.
  unfold path.Clean. destruct (String.eqb p ""); [discriminate|].
  destruct (path.IsAbs p); [discriminate|]. cbv zeta.
  destruct (String.eqb _ "") eqn:E; [discriminate|].
  now apply String.eqb_neq in E.
Qed.

Lemma Abs_nonempty (getwd : os.result string) (p a : string) :
  p <> "" -> filepath.Abs getwd p = os.OK a -> a <> "".
Proof.
  intros Hp. unfold filepath.Abs.
  destruct (path.IsAbs p).
  - intros [= <-]. apply Clean_nonempty.
  - destruct getwd as [wd|e]; [|discriminate]. intros [= <-].
    unfold filepath.Join, path.Join.
    destruct (String.eqb wd ""); [|apply Clean_nonempty].
    destruct (String.eqb p "") eqn:E; [|apply Clean_nonempty].
    now apply String.eqb_eq in E.
Qed.

Lemma origParentAbs_nonempty (env : Env) (flags : Flags) (o : string) :
  origParent flags <> "" -> origParentAbs env flags = Ret o -> o <> "".
Proof.
  unfold origParentAbs. intros Hp.
  destruct (filepath.Abs _ _) eqn:E; [|discriminate].
  intros [= <-]. eapply Abs_nonempty; eauto.
Qed.

Lemma newParentAbs_nonempty (env : Env) (flags : Flags) (n : string) :
  newParent flags <> "" -> newParentAbs env flags = Ret n -> n <> "".
Proof.
  unfold newParentAbs. intros Hp.
  destruct (filepath.Abs _ _) eqn:E; [|discriminate].
  intros [= <-]. eapply Abs_nonempty; eauto.
Qed.

Lemma eqb_nonempty (s : string) : s <> "" -> String.eqb s "" = false.
Proof. intros H. now apply String.eqb_neq. Qed.

(** With two non-empty prefixes, a directory outside the original prefix is
    fatal. *)
Lemma convertOutputDir_mismatch (o n d : string) :
  o <> "" -> n <> "" -> strings.HasPrefix d o = false ->
  convertOutputDir o n d = Fatal ("Fatal: " +:+ d +:+ " is not under " +:+ o).
Proof.
  intros Ho Hn Hd. unfold convertOutputDir.
  now rewrite (eqb_nonempty o Ho), (eqb_nonempty n Hn), Hd.
Qed.

(** With two non-empty prefixes, a directory under the original prefix is
    mapped to the new prefix followed by the rest of the directory. *)
Lemma convertOutputDir_rewrite (o n d : string) :
  o <> "" -> n <> "" -> strings.HasPrefix d o = true ->
  convertOutputDir o n d = Ret (n +:+ sdrop (String.length o) d).
Proof.
  intros Ho Hn Hd. unfold convertOutputDir.
  rewrite (eqb_nonempty o Ho), (eqb_nonempty n Hn), Hd. simpl.
  destruct (Nat.eqb_spec (String.length o) (String.length d)) as [E|E]; [|reflexivity].
  f_equal. rewrite sdrop_ge by lia. now rewrite sapp_nil_r.
Qed.

(** The whole directory as the original prefix: the new prefix, and nothing
    behind it. *)
Lemma convertOutputDir_whole (o n : string) :
  o <> "" -> n <> "" -> convertOutputDir o n o = Ret n.
Proof.
  intros Ho Hn. unfold convertOutputDir, strings.HasPrefix.
  rewrite (eqb_nonempty o Ho), (eqb_nonempty n Hn).
  rewrite <- (sapp_nil_r o) at 2. rewrite prefix_app. simpl.
  now rewrite Nat.eqb_refl.
Qed.

(** The mapping of directories undoes itself when the prefixes are swapped. *)
Lemma convertOutputDir_round_trip (o n d : string) :
  o <> "" -> n <> "" -> strings.HasPrefix d o = true ->
  convertOutputDir n o (n +:+ sdrop (String.length o) d) = Ret d.
Proof.
  intros Ho Hn Hd.
  rewrite convertOutputDir_rewrite; auto.
  - rewrite sdrop_app. f_equal. symmetry. now apply prefix_split.
  - apply prefix_app.
Qed.

Lemma convertOutputPath_unfold (env : Env) (flags : Flags) (scannedPath p o n : string) :
  convertInputPath env flags scannedPath = Ret (Some p) ->
  origParentAbs env flags = Ret o ->
  newParentAbs env flags = Ret n ->
  convertOutputPath env flags scannedPath =
  match convertOutputDir o n (path.Dir (path.Clean p)) with
  | Ret outputDir => Ret (path.Join outputDir (stripTempl (path.Base (path.Clean p))))
  | Fatal msg => Fatal msg
  | Panic msg => Panic msg
  end.
Proof.
  intros Hp Ho Hn. unfold convertOutputPath. rewrite Hp. cbn.
  rewrite Ho. cbn. rewrite Hn. cbn.
  now destruct (convertOutputDir _ _ _).
Qed.

(** C2.  When both prefixes are configured and the directory of the template
    path does not start with the original prefix (made absolute, as the
    program uses it), [convertOutputPath] ends in [log.Fatalf]: it returns no
    output path at all. *)
Theorem convertOutputPath_prefix_mismatch_fatal
    (env : Env) (flags : Flags) (scannedPath p o n : string) :
  convertInputPath env flags scannedPath = Ret (Some p) ->
  origParent flags <> "" ->
  newParent flags <> "" ->
  origParentAbs env flags = Ret o ->
  newParentAbs env flags = Ret n ->
  strings.HasPrefix (path.Dir (path.Clean p)) o = false ->
  convertOutputPath env flags scannedPath
  = Fatal ("Fatal: " +:+ path.Dir (path.Clean p) +:+ " is not under " +:+ o).
Proof.
  intros Hp Hfo Hfn Ho Hn Hd.
  rewrite (convertOutputPath_unfold env flags scannedPath p o n Hp Ho Hn).
  rewrite convertOutputDir_mismatch; auto.
  - eapply origParentAbs_nonempty; eauto.
  - eapply newParentAbs_nonempty; eauto.
Qed.

Lemma convertOutputPath_prefix_mismatch_fatal_witness :
  convertOutputPath env0 (prefixFlags "/src" "/dst") "/w/sub/a.tmpl"
  = Fatal "Fatal: /w/sub is not under /src".
Proof.
  apply (convertOutputPath_prefix_mismatch_fatal env0 (prefixFlags "/src" "/dst")
           "/w/sub/a.tmpl" "/w/sub/a.tmpl" "/src" "/dst");
    first [reflexivity | discriminate].
Defined.

(** A prefix that is not given is not empty once it has been made absolute:
    it is the working directory, so that the test for two non-empty prefixes
    in [convertOutputPath] always succeeds. *)
Lemma origParentAbs_absent (env : Env) (flags : Flags) (wd : string) :
  Getwd env = os.OK wd -> wd <> "" -> origParent flags = "" ->
  origParentAbs env flags = Ret (path.Clean (wd +:+ "/")).
Proof.
  intros Hwd Hne Ho. unfold origParentAbs, filepath.Abs, filepath.Join, path.Join.
  rewrite Ho, Hwd. simpl. now rewrite (eqb_nonempty wd Hne).
Qed.

Lemma newParentAbs_absent (env : Env) (flags : Flags) (wd : string) :
  Getwd env = os.OK wd -> wd <> "" -> newParent flags = "" ->
  newParentAbs env flags = Ret (path.Clean (wd +:+ "/")).
Proof.
  intros Hwd Hne Ho. unfold newParentAbs, filepath.Abs, filepath.Join, path.Join.
  rewrite Ho, Hwd. simpl. now rewrite (eqb_nonempty wd Hne).
Qed.

(** C3, at the inputs where the program departs from it.  In the working
    directory [/w]: a scan with the new prefix [/dst] and no original prefix
    maps [/w/sub/a.tmpl], whose directory is [/w/sub], to [/dst/sub/a]; and a
    run on the input file [/etc/motd.tmpl] without any prefix is fatal
    instead of giving [/etc/motd]. *)
Theorem convertOutputPath_absent_prefix :
  path.Dir (path.Clean "/w/sub/a.tmpl") = "/w/sub" /\
  convertOutputPath env0 (prefixFlags "" "/dst") "/w/sub/a.tmpl" = Ret "/dst/sub/a" /\
  convertOutputPath env0 (inputFlags "/etc/motd.tmpl") ""
  = Fatal "Fatal: /etc is not under /w".
Proof. repeat split; reflexivity. Qed.

(** C5 fails for the new prefix [/]: the directory [/home/u] under the
    original prefix [/home] gives the output path [/u/a], and the mapping
    with the prefixes swapped takes that path to the directory [/homeu]. *)
Lemma round_trip_counterexample :
  origParentAbs env0 (prefixFlags "/home" "/") = Ret "/home" /\
  newParentAbs env0 (prefixFlags "/home" "/") = Ret "/" /\
  path.Dir (path.Clean "/home/u/a.tmpl") = "/home/u" /\
  strings.HasPrefix "/home/u" "/home" = true /\
  convertOutputPath env0 (prefixFlags "/home" "/") "/home/u/a.tmpl" = Ret "/u/a" /\
  convertOutputDir "/" "/home" (path.Dir (path.Clean "/u/a")) = Ret "/homeu" /\
  convertOutputPath env0 (prefixFlags "/" "/home") "/u/a" = Ret "/homeu/a" /\
  path.Dir "/homeu/a" <> "/home/u".
Proof. repeat split; try reflexivity. discriminate. Qed.

(** C5, amended.  When the directory of the template path has the non-empty
    prefix [o], strict or not, and the new prefix is [n], the output
    directory is [n] followed by the rest of the directory; and when the
    produced output path
    has that same string for its directory, the mapping with the prefixes
    swapped, applied to the produced path, computes the original directory
    for its output directory and returns a path in it. *)
Theorem convertOutputPath_round_trip
    (env : Env) (flags flags' : Flags) (scannedPath p o n out : string) :
  convertInputPath env flags scannedPath = Ret (Some p) ->
  origParentAbs env flags = Ret o ->
  newParentAbs env flags = Ret n ->
  origParentAbs env flags' = Ret n ->
  newParentAbs env flags' = Ret o ->
  o <> "" ->
  n <> "" ->
  strings.HasPrefix (path.Dir (path.Clean p)) o = true ->
  convertOutputPath env flags scannedPath = Ret out ->
  path.Dir (path.Clean out) = n +:+ sdrop (String.length o) (path.Dir (path.Clean p)) ->
  convertOutputDir o n (path.Dir (path.Clean p))
  = Ret (n +:+ sdrop (String.length o) (path.Dir (path.Clean p))) /\
  convertOutputDir n o (path.Dir (path.Clean out)) = Ret (path.Dir (path.Clean p)) /\
  convertOutputPath env flags' out
  = Ret (path.Join (path.Dir (path.Clean p)) (stripTempl (path.Base (path.Clean out)))).
Proof.
  intros Hp Ho Hn Ho' Hn' Hone Hnne Hpre Hout Hdir.
  assert (Hfwd := convertOutputDir_rewrite o n _ Hone Hnne Hpre).
  assert (Hback : convertOutputDir n o (path.Dir (path.Clean out))
                  = Ret (path.Dir (path.Clean p))).
  { rewrite Hdir. now apply convertOutputDir_round_trip. }
  repeat split; try assumption.
  assert (Hne : out <> "").
  { rewrite (convertOutputPath_unfold env flags scannedPath p o n Hp Ho Hn), Hfwd in Hout.
    injection Hout as <-. unfold path.Join.
    destruct n as [|c n]; [congruence|]. simpl. apply Clean_nonempty. }
  rewrite (convertOutputPath_unfold env flags' out out n o); auto.
  - now rewrite Hback.
  - unfold convertInputPath. now rewrite (eqb_nonempty out Hne).
Qed.

Lemma convertOutputPath_round_trip_witness :
  convertOutputDir "/home/u/src" "/dst" (path.Dir (path.Clean "/home/u/src/sub/a.tmpl"))
  = Ret ("/dst" +:+ sdrop (String.length "/home/u/src")
                          (path.Dir (path.Clean "/home/u/src/sub/a.tmpl"))) /\
  convertOutputDir "/dst" "/home/u/src" (path.Dir (path.Clean "/dst/sub/a"))
  = Ret (path.Dir (path.Clean "/home/u/src/sub/a.tmpl")) /\
  convertOutputPath env0 (prefixFlags "/dst" "/home/u/src") "/dst/sub/a"
  = Ret (path.Join (path.Dir (path.Clean "/home/u/src/sub/a.tmpl"))
                   (stripTempl (path.Base (path.Clean "/dst/sub/a")))).
Proof.
  apply (convertOutputPath_round_trip env0 (prefixFlags "/home/u/src" "/dst")
           (prefixFlags "/dst" "/home/u/src")
           "/home/u/src/sub/a.tmpl" "/home/u/src/sub/a.tmpl" "/home/u/src" "/dst"
           "/dst/sub/a");
    first [reflexivity | discriminate].
Defined.

(** ** The scanner's pattern *)

Lemma afterDotStar_spec (st : bool) (s : string) :
  afterDotStar st s = true <->
  exists rest, s = ".tmpl" +:+ rest /\ (rest = "" \/ String.prefix "." rest = true).
Proof.
  unfold afterDotStar. cbn [regexp.matchK].
  change ("." +:+ extension) with ".tmpl".
  rewrite !andb_true_r. split.
  - intros H. apply andb_true_iff in H as [H1 H2].
    exists (sdrop (String.length ".tmpl") s). split; [now apply prefix_split|].
    apply orb_true_iff in H2 as [H2|H2]; [now right | left; now apply String.eqb_eq].
  - intros (rest & -> & H). rewrite prefix_app, sdrop_app. simpl.
    destruct H as [->|H]; [reflexivity | now rewrite H].
Qed.

Lemma dotStar_nil (st : bool) (k : bool -> string -> bool) :
  regexp.matchK (regexp.Star regexp.AnyCharNotNL) st "" k = k st "".
Proof. simpl. apply orb_false_r. Qed.

Lemma dotStar_cons (st : bool) (c : ascii) (s : string) (k : bool -> string -> bool) :
  regexp.matchK (regexp.Star regexp.AnyCharNotNL) st (String c s) k
  = k st (String c s)
    || (negb (Ascii.eqb c newline)
        && regexp.matchK (regexp.Star regexp.AnyCharNotNL) false s k).
Proof.
  cbn [regexp.matchK String.length].
  replace (Nat.ltb (String.length s) (S (String.length s))) with true; [reflexivity|].
  symmetry. apply Nat.ltb_lt. lia.
Qed.

(** [.*] in front of a continuation that does not look at the position: a
    prefix without a newline, and the continuation on the rest. *)
Lemma dotStar_spec (f : string -> bool) (k : bool -> string -> bool) :
  (forall st s, k st s = f s) ->
  forall (s : string) (st : bool),
    regexp.matchK (regexp.Star regexp.AnyCharNotNL) st s k = true <->
    exists pre rest, s = pre +:+ rest /\ smem newline pre = false /\ f rest = true.
Proof.
  intros Hk. induction s as [|c s IH]; intros st.
  - rewrite dotStar_nil, Hk. split.
    + intros H. now exists "", "".
    + intros (pre & rest & E & _ & H). destruct pre; [|discriminate].
      simpl in E. now subst rest.
  - rewrite dotStar_cons, Hk. split.
    + intros H. apply orb_true_iff in H as [H|H].
      * now exists "", (String c s).
      * apply andb_true_iff in H as [Hc H]. apply IH in H as (pre & rest & -> & Hnl & H).
        exists (String c pre), rest. repeat split; [|exact H].
        simpl. rewrite Hnl, orb_false_r. now apply negb_true_iff in Hc.
    + intros (pre & rest & E & Hnl & H). destruct pre as [|d pre].
      * simpl in E. subst rest. now rewrite H.
      * simpl in E. injection E as -> ->. simpl in Hnl.
        apply orb_false_iff in Hnl as [Hc Hnl]. rewrite Hc. simpl.
        apply orb_true_iff. right. apply IH. now exists pre, rest.
Qed.

Lemma templRegEx_at (st : bool) (s : string) :
  regexp.matchK templRegEx st s (fun _ _ => true)
  = st && regexp.matchK (regexp.Star regexp.AnyCharNotNL) st s afterDotStar.
Proof. reflexivity. Qed.

Lemma templRegEx_not_later (s : string) : regexp.searchFrom templRegEx false s = false.
Proof. induction s as [|c s IH]; simpl; [reflexivity | exact IH]. Qed.

Lemma templRegEx_MatchString (name : string) :
  regexp.MatchString templRegEx name
  = regexp.matchK (regexp.Star regexp.AnyCharNotNL) true name afterDotStar.
Proof.
  unfold regexp.MatchString.
  destruct name as [|c s]; cbn [regexp.searchFrom]; rewrite templRegEx_at.
  - now rewrite orb_false_r.
  - now rewrite templRegEx_not_later, orb_false_r.
Qed.

(** The names that [templRegEx] matches: those that consist of a part
    without a newline, then [.tmpl], then nothing or a dot and anything; so
    [foo.tmpl] and [foo.tmpl.bak] match and [footmpl] does not. *)
Lemma templRegEx_matches :
  (forall name : string,
      regexp.MatchString templRegEx name = true <->
      exists pre rest, name = pre +:+ ".tmpl" +:+ rest
                       /\ smem newline pre = false
                       /\ (rest = "" \/ String.prefix "." rest = true)) /\
  regexp.MatchString templRegEx "foo.tmpl" = true /\
  regexp.MatchString templRegEx "foo.tmpl.bak" = true /\
  regexp.MatchString templRegEx "footmpl" = false.
Proof.
  split; [|repeat split; reflexivity].
  intros name. rewrite templRegEx_MatchString.
  rewrite (dotStar_spec (afterDotStar true) afterDotStar).
  2:{ intros st s. unfold afterDotStar. cbn [regexp.matchK].
      now rewrite !andb_true_r. }
  split.
  - intros (pre & tl & -> & Hnl & H). apply afterDotStar_spec in H as (rest & -> & H).
    now exists pre, rest.
  - intros (pre & rest & -> & Hnl & H). exists pre, (".tmpl" +:+ rest).
    repeat split; [exact Hnl|]. apply afterDotStar_spec. now exists rest.
Qed.

(** C9, at the input where the program departs from it.  The name made of
    [a], a newline and [b.tmpl] contains [.tmpl] at its end, and [templRegEx]
    does not match it: the dot of the pattern does not match a newline. *)
Theorem templRegEx_newline :
  (exists pre rest, "a" +:+ nl +:+ "b.tmpl" = pre +:+ ".tmpl" +:+ rest
                    /\ (rest = "" \/ String.prefix "." rest = true)) /\
  regexp.MatchString templRegEx ("a" +:+ nl +:+ "b.tmpl") = false.
Proof.
  split; [|reflexivity].
  exists ("a" +:+ nl +:+ "b"), "". split; [reflexivity | now left].
Qed.

(** ** Change classification *)

Lemma Write_data (b : bytes.Buffer) (p : string) :
  bytes.data (bytes.buf (bytes.Write b p)) = bytes.data (bytes.buf b) +:+ p.
Proof. destruct p; simpl; [now rewrite sapp_nil_r | reflexivity]. Qed.

Lemma Write_nil (b : bytes.Buffer) (p : string) :
  bytes.buf (bytes.Write b p) = None <-> bytes.buf b = None /\ p = "".
Proof.
  destruct p; simpl; [tauto|]. split; [discriminate | intros [_ H]; discriminate].
Qed.

Lemma Write_chunks_data (chunks : list string) (b : bytes.Buffer) :
  bytes.data (bytes.buf (fold_left bytes.Write chunks b))
  = bytes.data (bytes.buf b) +:+ rendered chunks.
Proof.
  revert b; induction chunks as [|p chunks IH]; intros b; simpl.
  - now rewrite sapp_nil_r.
  - now rewrite IH, Write_data, sapp_assoc.
Qed.

Lemma sapp_eq_nil (a b : string) : a +:+ b = "" <-> a = "" /\ b = "".
Proof. destruct a; simpl; [tauto|]. split; [discriminate | intros [H _]; discriminate]. Qed.

Lemma Write_chunks_nil (chunks : list string) (b : bytes.Buffer) :
  bytes.buf (fold_left bytes.Write chunks b) = None <->
  bytes.buf b = None /\ rendered chunks = "".
Proof.
  revert b; induction chunks as [|p chunks IH]; intros b; simpl.
  - tauto.
  - rewrite IH, Write_nil, sapp_eq_nil. tauto.
Qed.

(** What the comparison in [scan] computes: the rendered bytes equal the
    bytes of the file, and are not empty.  A buffer that nothing was written
    to has a nil slice, and the buffer read from a file never has. *)
Lemma DeepEqual_rendered (chunks : list string) (d : string) :
  reflect.DeepEqual (bytes.Bytes (fold_left bytes.Write chunks bytes.new))
                    (bytes.Bytes (bytes.ReadFrom bytes.new d))
  = String.eqb (rendered chunks) d && negb (String.eqb d "").
Proof.
  unfold bytes.Bytes.
  pose proof (Write_chunks_data chunks bytes.new) as Hd.
  pose proof (Write_chunks_nil chunks bytes.new) as Hn.
  destruct (bytes.buf (fold_left bytes.Write chunks bytes.new)) as [x|]; simpl in *.
  - subst x. destruct (String.eqb_spec (rendered chunks) d) as [E|E]; [|reflexivity].
    subst d. simpl. destruct (String.eqb_spec (rendered chunks) "") as [E|E]; [|reflexivity].
    exfalso. assert (@None string = None /\ rendered chunks = "") as H by auto.
    apply Hn in H. discriminate.
  - destruct Hn as [Hn _]. destruct (Hn eq_refl) as [_ E]. rewrite E.
    destruct (String.eqb_spec "" d) as [<-|]; reflexivity.
Qed.

Lemma executeTemplate_file (env : Env) (h : string) (w : World) (bs : string) :
  os.ReadAll (fs w) h = os.OK bs ->
  executeTemplate env (FileReader h) bytes.new w
  = (w, Ret (fold_left bytes.Write (fst (template_Execute env bs)) bytes.new,
             snd (template_Execute env bs))).
Proof.
  intros H. unfold executeTemplate, bind, ReadAll. rewrite H.
  now destruct (template_Execute env bs).
Qed.

(** The decision of [scan] from the outcome of rendering and of the look-up
    of the existing output. *)
Lemma scan_classify_decision
    (env : Env) (scannedPath outputPath np : string) (r : Reader)
    (w w1 : World) (b : bytes.Buffer) (err : option os.error) :
  executeTemplate env r bytes.new w = (w1, Ret (b, err)) ->
  nicePath env scannedPath = Ret np ->
  scan_classify env scannedPath outputPath r w =
  match err with
  | Some e =>
      (logged w1 ("Failed to execute template " +:+ np +:+ ":" +:+ nl +:+ "    "
                    +:+ os.Error e +:+ nl), Ret (FAIL, b))
  | None =>
      match getExistingOutputFileContents outputPath w1 with
      | (w2, Ret (os.Err e)) =>
          (if os.IsNotExist e then w2
           else logged w2 ("Unexpected error getting existing output contents: "
                             +:+ os.Error e),
           Ret (CREATE, b))
      | (w2, Ret (os.OK existing)) =>
          (w2, Ret (if reflect.DeepEqual (bytes.Bytes b) (bytes.Bytes existing)
                    then (KEEP, b) else (MODIFY, b)))
      | (w2, Fatal msg) => (w2, Fatal msg)
      | (w2, Panic msg) => (w2, Panic msg)
      end
  end.
Proof.
  intros Hx Hn. unfold scan_classify, bind. rewrite Hx.
  destruct err as [e|].
  - rewrite Hn. reflexivity.
  - destruct (getExistingOutputFileContents outputPath w1) as [w2 [[ex|e]|msg|msg]];
      try reflexivity.
    + now destruct (reflect.DeepEqual _ _).
    + now destruct (os.IsNotExist e).
Qed.

(** C8.  When rendering succeeds and reading the existing output file fails
    with an error other than "does not exist", the error is logged and the
    decision is CREATE; and the decision is FAIL only when rendering returned
    an error. *)
Theorem scan_classify_lookup_error :
  (forall (env : Env) (scannedPath outputPath : string) (r : Reader)
          (w w1 w2 : World) (b : bytes.Buffer) (err : os.error),
      executeTemplate env r bytes.new w = (w1, Ret (b, None)) ->
      getExistingOutputFileContents outputPath w1 = (w2, Ret (os.Err err)) ->
      os.IsNotExist err = false ->
      scan_classify env scannedPath outputPath r w
      = (logged w2 ("Unexpected error getting existing output contents: "
                      +:+ os.Error err),
         Ret (CREATE, b))) /\
  (forall (env : Env) (scannedPath outputPath : string) (r : Reader)
          (w w' : World) (b : bytes.Buffer),
      scan_classify env scannedPath outputPath r w = (w', Ret (FAIL, b)) ->
      exists w1 e, executeTemplate env r bytes.new w = (w1, Ret (b, Some e))).
Proof.
  split.
  - intros env scannedPath outputPath r w w1 w2 b err Hx Hg Hne.
    unfold scan_classify, bind. rewrite Hx, Hg, Hne. reflexivity.
  - intros env scannedPath outputPath r w w' b.
    unfold scan_classify, bind.
    destruct (executeTemplate env r bytes.new w) as [w1 [[b1 [e|]]|msg|msg]];
      try discriminate.
    + destruct (lift (nicePath env scannedPath) w1) as [w2 [np|msg|msg]];
        try discriminate.
      intros [= <- <-]. now exists w1, e.
    + destruct (getExistingOutputFileContents outputPath w1) as [w2 [[ex|e]|msg|msg]];
        try discriminate.
      * destruct (negb _); discriminate.
      * destruct (negb _); discriminate.
Qed.

Lemma scan_classify_lookup_error_witness :
  scan_classify env0 "/w/a.tmpl" "/w/a" (FileReader "/w/a.tmpl")
    (mkWorld fsDir 18 false [] [] [])
  = (logged (mkWorld fsDir 18 false [] [] [])
       ("Unexpected error getting existing output contents: "
          +:+ os.Error (os.PathError "read" "/w/a" os.EISDIR)),
     Ret (CREATE, bytes.mkBuffer (Some "Hello"))).
Proof.
  apply (proj1 scan_classify_lookup_error env0 "/w/a.tmpl" "/w/a"
           (FileReader "/w/a.tmpl") (mkWorld fsDir 18 false [] [] [])
           (mkWorld fsDir 18 false [] [] []) (mkWorld fsDir 18 false [] [] []));
    reflexivity.
Defined.

(** C1, at the input where the program departs from it.  A template that
    renders to no bytes, next to an existing output file of no bytes: the
    bytes are equal, and the decision is MODIFY. *)
Theorem scan_classify_empty_is_MODIFY :
  os.ReadAll fsEmpty "/w/a" = os.OK (rendered (fst (template_Execute env0 ""))) /\
  snd (scan_classify env0 "/w/a.tmpl" "/w/a" (FileReader "/w/a.tmpl")
         (mkWorld fsEmpty 18 false [] [] []))
  = Ret (MODIFY, bytes.new) /\
  stdout (fst (scan_walkFn env0 flags0 "/w/a.tmpl" (mkFileInfo "a.tmpl" false) None
                 (mkWorld fsEmpty 18 false [] [] [])))
  = ["MODIFY" +:+ tab +:+ "a.tmpl" +:+ tab +:+ "a" +:+ nl].
Proof. repeat split; vm_compute; reflexivity. Qed.

Lemma scan_classify_existing
    (env : Env) (scannedPath outputPath h h' bs d : string) (w : World) :
  os.ReadAll (fs w) h = os.OK bs ->
  snd (template_Execute env bs) = None ->
  outputPath <> "" ->
  os.Open (fs w) outputPath = os.OK h' ->
  os.ReadAll (fs w) h' = os.OK d ->
  snd (scan_classify env scannedPath outputPath (FileReader h) w)
  = Ret (if String.eqb (rendered (fst (template_Execute env bs))) d
            && negb (String.eqb d "")
         then KEEP else MODIFY,
         fold_left bytes.Write (fst (template_Execute env bs)) bytes.new).
Proof.
  intros Hr He Hne Ho Hd. unfold scan_classify, bind.
  rewrite (executeTemplate_file env h w bs Hr), He.
  unfold getExistingOutputFileContents. rewrite (eqb_nonempty _ Hne), Ho, Hd.
  rewrite DeepEqual_rendered. now destruct (_ && _).
Qed.

(** ** The output gate *)

Lemma convertOutputPath_nonempty (env : Env) (flags : Flags) (p out : string) :
  p <> "" -> convertOutputPath env flags p = Ret out -> out <> "".
Proof.
  intros Hp. unfold convertOutputPath, convertInputPath.
  rewrite (eqb_nonempty p Hp). cbn.
  destruct (origParentAbs env flags) as [o|?|?]; cbn; try discriminate.
  destruct (newParentAbs env flags) as [n|?|?]; cbn; try discriminate.
  unfold convertOutputDir.
  destruct (_ && negb (strings.HasPrefix _ _)); cbn; [discriminate|].
  intros [= <-]. unfold path.Join.
  match goal with |- context [String.eqb ?d ""] => destruct (String.eqb_spec d "") as [E|E] end.
  - exfalso. revert E.
    destruct (String.eqb_spec o ""), (String.eqb_spec n ""); simpl;
      try apply Clean_nonempty.
    destruct (Nat.eqb _ _); [assumption|]. rewrite sapp_eq_nil. tauto.
  - apply Clean_nonempty.
Qed.

Lemma promptAndCreateOutputFile_asks
    (env : Env) (flags : Flags) (outputPath : string) (w : World) (n : os.Node) :
  dryRun flags = false ->
  shouldPromptBeforeWrite flags = true ->
  os.Stat (fs w) outputPath = os.OK n ->
  promptAndCreateOutputFile env flags outputPath w =
  if accepted env (answer w) then createOutputFile outputPath (asked w outputPath)
  else (asked w outputPath, Ret (os.Err skipReplace)).
Proof.
  intros Hd Hp Hs. unfold promptAndCreateOutputFile, shouldDryRun.
  rewrite Hd, Hp. cbn [negb]. cbv beta iota. rewrite Hs.
  unfold bind, fmt_Printf, ReadString. cbn [stdin].
  fold (answer w). fold (accepted env (answer w)). fold (asked w outputPath).
  destruct (accepted env (answer w)); reflexivity.
Qed.

(** When the mapping of the path is fatal, so is the walk function: the
    message is logged and the run ends. *)
Lemma scan_walkFn_fatal
    (env : Env) (flags : Flags) (p msg : string) (info : FileInfo) (w : World) :
  IsDir info && String.eqb (Name info) ".templater" = false ->
  regexp.MatchString templRegEx (Name info) = true ->
  path.IsAbs p = true ->
  convertOutputPath env flags p = Fatal msg ->
  scan_walkFn env flags p info None w = (logged w msg, Fatal msg).
Proof.
  intros Hdir Hre Habs Hconv. unfold scan_walkFn. rewrite Hdir, Hre, Habs.
  rewrite bool_decide_eq_true_2 by reflexivity. cbn [negb andb].
  unfold bind at 1. now rewrite Hconv.
Qed.

(** C6.  When the question is asked for an existing output file: after an
    answer that, trimmed, equals [y] or [yes] under case folding, the gate
    goes on to [createOutputFile]; after any other answer it returns
    [skipReplace], and the walk function of the scan returns [nil] at once:
    the files and the log are as they were, and only the question has been
    printed, no status line. *)
Theorem prompt_answer :
  (forall (env : Env) (flags : Flags) (outputPath : string) (w : World) (n : os.Node),
      dryRun flags = false ->
      shouldPromptBeforeWrite flags = true ->
      os.Stat (fs w) outputPath = os.OK n ->
      accepted env (answer w) = true ->
      promptAndCreateOutputFile env flags outputPath w
      = createOutputFile outputPath (asked w outputPath)) /\
  (forall (env : Env) (flags : Flags) (p outputPath : string) (info : FileInfo)
          (r : Reader) (w0 w : World) (mode : Mode) (b : bytes.Buffer) (n : os.Node),
      IsDir info && String.eqb (Name info) ".templater" = false ->
      regexp.MatchString templRegEx (Name info) = true ->
      path.IsAbs p = true ->
      convertOutputPath env flags p = Ret outputPath ->
      inputReader flags p w0 = (w0, Ret (os.OK r)) ->
      scan_classify env p outputPath r w0 = (w, Ret (mode, b)) ->
      mode = MODIFY \/ mode = CREATE ->
      dryRun flags = false ->
      shouldPromptBeforeWrite flags = true ->
      os.Stat (fs w) outputPath = os.OK n ->
      accepted env (answer w) = false ->
      promptAndCreateOutputFile env flags outputPath w
      = (asked w outputPath, Ret (os.Err skipReplace)) /\
      scan_walkFn env flags p info None w0 = (asked w outputPath, Ret WalkNil) /\
      fs (asked w outputPath) = fs w /\
      logs (asked w outputPath) = logs w /\
      stdout (asked w outputPath) = stdout w ++ ["Replace " +:+ outputPath +:+ "? [y|n] "]).
Proof.
  split.
  - intros env flags outputPath w n Hd Hp Hs Ha.
    rewrite (promptAndCreateOutputFile_asks env flags outputPath w n); auto.
    now rewrite Ha.
  - intros env flags p outputPath info r w0 w mode b n
           Hdir Hre Habs Hconv Hin Hcls Hmode Hd Hp Hs Ha.
    assert (Hprompt : promptAndCreateOutputFile env flags outputPath w
                      = (asked w outputPath, Ret (os.Err skipReplace))).
    { rewrite (promptAndCreateOutputFile_asks env flags outputPath w n); auto.
      now rewrite Ha. }
    split; [exact Hprompt|]. split; [|repeat split].
    assert (Hne : outputPath <> "").
    { apply (convertOutputPath_nonempty env flags p); [|exact Hconv].
      intros ->. discriminate. }
    unfold scan_walkFn. rewrite Hdir, Hre, Habs. cbn [negb andb bool_decide].
    rewrite bool_decide_eq_true_2 by reflexivity. cbn [andb].
    unfold bind at 1. rewrite Hconv. cbn [lift ret].
    unfold bind at 1. rewrite Hin.
    unfold bind at 1. rewrite Hcls.
    unfold bind at 1.
    assert (Hw : scan_write env flags outputPath mode b w
                 = (asked w outputPath, Ret None)).
    { unfold scan_write, outputWriter. rewrite (eqb_nonempty _ Hne). cbn [negb].
      destruct Hmode as [-> | ->]; unfold bind; rewrite Hprompt; reflexivity. }
    now rewrite Hw.
Qed.

Lemma prompt_answer_witness :
  promptAndCreateOutputFile env0 interactiveFlags "/w/a"
    (mkWorld (fsOld 420) 18 false [" YES " +:+ nl] [] [])
  = createOutputFile "/w/a"
      (asked (mkWorld (fsOld 420) 18 false [" YES " +:+ nl] [] []) "/w/a") /\
  scan_walkFn env0 interactiveFlags "/w/a.tmpl" (mkFileInfo "a.tmpl" false) None
    (mkWorld (fsOld 420) 18 false ["n" +:+ nl] [] [])
  = (asked (mkWorld (fsOld 420) 18 false ["n" +:+ nl] [] []) "/w/a", Ret WalkNil).
Proof.
  split.
  - apply (proj1 prompt_answer env0 interactiveFlags "/w/a"
             (mkWorld (fsOld 420) 18 false [" YES " +:+ nl] [] []) (os.File 420 "old"));
      reflexivity.
  - apply (proj2 prompt_answer env0 interactiveFlags "/w/a.tmpl" "/w/a"
             (mkFileInfo "a.tmpl" false) (FileReader "/w/a.tmpl")
             (mkWorld (fsOld 420) 18 false ["n" +:+ nl] [] [])
             (mkWorld (fsOld 420) 18 false ["n" +:+ nl] [] [])
             MODIFY (bytes.mkBuffer (Some "Hello")) (os.File 420 "old"));
      first [reflexivity | (left; reflexivity)].
Defined.

(** In a dry run the gate hands out the sink that discards what is written,
    and touches nothing. *)
Lemma promptAndCreateOutputFile_dry_run
    (env : Env) (flags : Flags) (outputPath : string) (w : World) :
  dryRun flags = true ->
  promptAndCreateOutputFile env flags outputPath w = (w, Ret (os.OK Discard)).
Proof. intros H. unfold promptAndCreateOutputFile, shouldDryRun. now rewrite H. Qed.

(** In a dry run without the read-only option the write step of [scan]
    leaves the world and the decision as they are. *)
Lemma scan_write_dry_run
    (env : Env) (flags : Flags) (outputPath : string) (mode : Mode)
    (b : bytes.Buffer) (w : World) :
  dryRun flags = true -> readOnly flags = false -> outputPath <> "" ->
  scan_write env flags outputPath mode b w = (w, Ret (Some mode)).
Proof.
  intros Hd Hr Hne. unfold scan_write, outputWriter.
  rewrite (eqb_nonempty _ Hne), Hr. cbn [negb].
  destruct mode; try reflexivity;
    unfold bind; rewrite promptAndCreateOutputFile_dry_run by assumption;
    unfold io_Copy; destruct (Nat.eqb _ 0); reflexivity.
Qed.

(** In a dry run with the read-only option the write step changes the mode
    of the output path. *)
Lemma scan_write_dry_run_read_only
    (env : Env) (flags : Flags) (outputPath : string) (mode : Mode)
    (b : bytes.Buffer) (w : World) :
  dryRun flags = true -> readOnly flags = true -> outputPath <> "" ->
  mode = MODIFY \/ mode = CREATE ->
  fs (fst (scan_write env flags outputPath mode b w))
  = fst (os.Chmod (fs w) outputPath 292).
Proof.
  intros Hd Hr Hne Hm. unfold scan_write, outputWriter.
  rewrite (eqb_nonempty _ Hne), Hr. cbn [negb].
  destruct Hm as [-> | ->];
    unfold bind; rewrite promptAndCreateOutputFile_dry_run by assumption;
    unfold io_Copy; destruct (Nat.eqb _ 0); unfold ret, markFileReadOnly;
    destruct (os.Chmod (fs w) outputPath 292) as [fs' [e|]]; reflexivity.
Qed.

(** C7, at the input where the program departs from it.  A dry run with the
    read-only option, on a template next to an older output file of mode
    0644: the status line is MODIFY, the contents of the file are kept, and
    its mode is 0444 afterwards. *)
Theorem dry_run_read_only_chmods :
  fsOld 420 !! "/w/a" = Some (os.File 420 "old") /\
  fs (fst (scan_walkFn env0 dryRunReadOnlyFlags "/w/a.tmpl" (mkFileInfo "a.tmpl" false)
             None (mkWorld (fsOld 420) 18 false [] [] []))) !! "/w/a"
  = Some (os.File 292 "old") /\
  stdout (fst (scan_walkFn env0 dryRunReadOnlyFlags "/w/a.tmpl"
                 (mkFileInfo "a.tmpl" false) None (mkWorld (fsOld 420) 18 false [] [] [])))
  = ["MODIFY" +:+ tab +:+ "a.tmpl" +:+ tab +:+ "a" +:+ nl].
Proof. repeat split; vm_compute; reflexivity. Qed.

(** ** Replacing an output file *)

Lemma walk_None (fs : gmap string os.Node) (dirs : list string) :
  os.walk fs dirs = None <-> Forall (isDirectoryIn fs) dirs.
Proof.
  induction dirs as [|d dirs IH]; simpl.
  - split; [constructor | reflexivity].
  - destruct (fs !! d) as [[perm c|perm]|] eqn:E.
    + split; [discriminate|]. intros H. inversion H as [|? ? [q Hq] _]; subst.
      congruence.
    + rewrite IH. split.
      * intros H. constructor; [now exists perm | exact H].
      * intros H. now inversion H.
    + split; [discriminate|]. intros H. inversion H as [|? ? [q Hq] _]; subst.
      congruence.
Qed.

Lemma mkdirs_present (um : N) (fs : gmap string os.Node) (dirs : list string) (perm : N) :
  Forall (isDirectoryIn fs) dirs -> os.mkdirs um fs dirs perm = (fs, None).
Proof.
  induction 1 as [|d dirs [q Hq] _ IH]; simpl; [reflexivity|]. now rewrite Hq.
Qed.

Lemma isDirectoryIn_delete (fs : gmap string os.Node) (k d : string) (perm : N) (c : string) :
  fs !! k = Some (os.File perm c) -> isDirectoryIn fs d -> isDirectoryIn (delete k fs) d.
Proof.
  intros Hk [q Hq]. exists q. rewrite lookup_delete_ne; [exact Hq|].
  intros ->. congruence.
Qed.

Lemma Stat_inv (fs : gmap string os.Node) (name : string) (n : os.Node) :
  os.Stat fs name = os.OK n ->
  os.walk fs (os.ancestors (os.key name)) = None /\ fs !! os.key name = Some n.
Proof.
  unfold os.Stat, os.lookup.
  destruct (os.walk fs _); [discriminate|].
  destruct (fs !! os.key name); [|discriminate]. now intros [= ->].
Qed.

(** [os.Create] alone does not get past a file that may not be written. *)
Lemma Create_read_only (um : N) (fs : gmap string os.Node) (name c : string) (perm : N) :
  os.Stat fs name = os.OK (os.File perm c) ->
  os.writable perm = false ->
  os.Create um fs name = (fs, os.Err (os.PathError "open" name os.EACCES)).
Proof.
  intros H Hw. apply Stat_inv in H as [Hwalk Hk]. unfold os.Create.
  now rewrite Hwalk, Hk, Hw, andb_false_r.
Qed.

(** The gate of a run that is not a dry run either goes on to
    [createOutputFile], on the same files, or declines with [skipReplace]
    and leaves the files as they are. *)
Lemma promptAndCreateOutputFile_creates
    (env : Env) (flags : Flags) (outputPath : string) (w : World) :
  dryRun flags = false ->
  exists w1, fs w1 = fs w /\
    (promptAndCreateOutputFile env flags outputPath w = createOutputFile outputPath w1 \/
     promptAndCreateOutputFile env flags outputPath w = (w1, Ret (os.Err skipReplace))).
Proof.
  intros Hd. unfold promptAndCreateOutputFile, shouldDryRun. rewrite Hd.
  destruct (shouldPromptBeforeWrite flags); cbn [negb].
  2:{ exists w. auto. }
  destruct (os.Stat (fs w) outputPath) as [n|e].
  2:{ exists w. auto. }
  unfold bind, fmt_Printf, ReadString. cbn [stdin].
  match goal with
  | |- context [if ?c then _ else _] => destruct c
  end;
    eexists; (split; [|first [left; reflexivity | right; reflexivity]]); reflexivity.
Qed.

(** C10.  A write that is not a dry run goes through [createOutputFile],
    which removes the output path, makes its directory with the directories
    above, and creates the file, in this order.  An output file that exists
    in an existing directory is therefore replaced by a new, empty file that
    the returned writer writes to, whatever the permissions of the old file
    were: a file of mode 0444 as well. *)
Theorem createOutputFile_replaces :
  (forall (env : Env) (flags : Flags) (outputPath : string) (w : World),
      dryRun flags = false ->
      exists w1, fs w1 = fs w /\
        (promptAndCreateOutputFile env flags outputPath w = createOutputFile outputPath w1 \/
         promptAndCreateOutputFile env flags outputPath w
         = (w1, Ret (os.Err skipReplace)))) /\
  (forall (outputPath : string) (w : World),
      createOutputFile outputPath w =
      let fs1 := fst (os.Remove (fs w) outputPath) in
      let made := os.MkdirAll (umask w) fs1 (path.Dir outputPath) os.ModePerm in
      match snd made with
      | Some err => (set_fs w (fst made), Ret (os.Err err))
      | None =>
          let created := os.Create (umask w) (fst made) outputPath in
          (set_fs w (fst created),
           Ret (match snd created with
                | os.OK h => os.OK (FileWriter h)
                | os.Err err => os.Err err
                end))
      end) /\
  (forall (outputPath old : string) (perm dperm : N) (w : World),
      os.Stat (fs w) outputPath = os.OK (os.File perm old) ->
      os.Stat (fs w) (path.Dir outputPath) = os.OK (os.Directory dperm) ->
      createOutputFile outputPath w
      = (set_fs w (<[os.key outputPath := os.File (N.ldiff 438 (umask w)) ""]> (fs w)),
         Ret (os.OK (FileWriter (os.key outputPath))))).
Proof.
  split; [exact promptAndCreateOutputFile_creates|]. split.
  - intros outputPath w. unfold createOutputFile.
    destruct (os.Remove (fs w) outputPath) as [fs1 e1]. cbn [fst].
    destruct (os.MkdirAll (umask w) fs1 (path.Dir outputPath) os.ModePerm) as [fs2 [e2|]];
      cbn [fst snd]; [reflexivity|].
    destruct (os.Create (umask w) fs2 outputPath) as [fs3 [h|e3]]; reflexivity.
  - intros outputPath old perm dperm w Hfile Hdir.
    apply Stat_inv in Hfile as [Hwalk Hk]. apply Stat_inv in Hdir as [Hdwalk Hdk].
    apply walk_None in Hwalk. apply walk_None in Hdwalk.
    unfold createOutputFile, os.Remove, os.lookup.
    rewrite (proj2 (walk_None _ _) Hwalk), Hk.
    unfold os.MkdirAll. rewrite mkdirs_present.
    2:{ apply Forall_app. split.
        - eapply Forall_impl; [exact Hdwalk|]. intros d. now apply isDirectoryIn_delete with perm old.
        - constructor; [|constructor].
          apply isDirectoryIn_delete with perm old; [exact Hk | now exists dperm]. }
    unfold os.Create.
    rewrite (proj2 (walk_None (delete (os.key outputPath) (fs w)) _)).
    2:{ eapply Forall_impl; [exact Hwalk|]. intros d. now apply isDirectoryIn_delete with perm old. }
    rewrite lookup_delete_eq. now rewrite insert_delete_eq.
Qed.

Lemma createOutputFile_replaces_witness :
  createOutputFile "/w/a" (mkWorld (fsOld 292) 18 false [] [] [])
  = (set_fs (mkWorld (fsOld 292) 18 false [] [] [])
       (<[os.key "/w/a" := os.File (N.ldiff 438 18) ""]> (fsOld 292)),
     Ret (os.OK (FileWriter (os.key "/w/a")))).
Proof.
  apply (proj2 (proj2 createOutputFile_replaces) "/w/a" "old" 292%N 493%N
           (mkWorld (fsOld 292) 18 false [] [] [])); reflexivity.
Defined.

(** A run with the read-only option, a change of the template, and a later
    run: the file of mode 0444 that the first run left is replaced. *)
Lemma read_only_output_is_rewritten :
  let info := mkFileInfo "a.tmpl" false in
  let w1 := fst (scan_walkFn env0 readOnlyFlags "/w/a.tmpl" info None world0) in
  let w2 := set_fs w1 (<["/w/a.tmpl" := os.File 420 "Hello again"]> (fs w1)) in
  let w3 := fst (scan_walkFn env0 readOnlyFlags "/w/a.tmpl" info None w2) in
  fs w1 !! "/w/a" = Some (os.File 292 "Hello") /\
  fs w3 !! "/w/a" = Some (os.File 292 "Hello again") /\
  stdout w3 = ["CREATE" +:+ tab +:+ "a.tmpl" +:+ tab +:+ "a" +:+ nl;
               "MODIFY" +:+ tab +:+ "a.tmpl" +:+ tab +:+ "a" +:+ nl] /\
  logs w3 = [].
Proof. repeat split; vm_compute; reflexivity. Qed.

(** ** A dry run without the read-only option *)

Lemma keeps_fs_ret {A : Type} (a : A) : keeps_fs (ret a).
Proof. now intros w. Qed.

Lemma keeps_fs_bind {A B : Type} (m : M A) (k : A -> M B) :
  keeps_fs m -> (forall a, keeps_fs (k a)) -> keeps_fs (bind m k).
Proof.
  intros Hm Hk w. unfold bind. specialize (Hm w).
  destruct (m w) as [w' [a|msg|msg]]; cbn [fst] in *; [|assumption..].
  now rewrite Hk.
Qed.

Lemma keeps_fs_lift {A : Type} (o : outcome A) : keeps_fs (lift o).
Proof. now destruct o; intros w. Qed.

Lemma keeps_fs_log (line : string) : keeps_fs (log_Printf line).
Proof. now intros w. Qed.

Lemma keeps_fs_fmt (line : string) : keeps_fs (fmt_Printf line).
Proof. now intros w. Qed.

Lemma keeps_fs_inputReader (flags : Flags) (p : string) : keeps_fs (inputReader flags p).
Proof.
  intros w. unfold inputReader.
  destruct (negb _); [now destruct (os.Open _ _)|].
  destruct (isStdin flags); [reflexivity | now destruct (os.Open _ _)].
Qed.

Lemma keeps_fs_executeTemplate (env : Env) (r : Reader) (b : bytes.Buffer) :
  keeps_fs (executeTemplate env r b).
Proof.
  unfold executeTemplate. apply keeps_fs_bind.
  - intros w. now destruct r.
  - intros [bs|e]; [|apply keeps_fs_ret].
    destruct (template_Execute env bs). apply keeps_fs_ret.
Qed.

Lemma keeps_fs_getExisting (outputPath : string) :
  keeps_fs (getExistingOutputFileContents outputPath).
Proof.
  intros w. unfold getExistingOutputFileContents.
  destruct (String.eqb outputPath ""); [reflexivity|].
  destruct (os.Open _ _); [|reflexivity]. now destruct (os.ReadAll _ _).
Qed.

Lemma keeps_fs_scan_classify (env : Env) (scannedPath outputPath : string) (r : Reader) :
  keeps_fs (scan_classify env scannedPath outputPath r).
Proof.
  unfold scan_classify. apply keeps_fs_bind; [apply keeps_fs_executeTemplate|].
  intros [b [e|]].
  - apply keeps_fs_bind; [apply keeps_fs_lift|]. intros np.
    apply keeps_fs_bind; [apply keeps_fs_log | intros; apply keeps_fs_ret].
  - apply keeps_fs_bind; [apply keeps_fs_getExisting|]. intros [ex|e].
    + destruct (negb _); apply keeps_fs_ret.
    + apply keeps_fs_bind; [|intros; apply keeps_fs_ret].
      destruct (negb _); [apply keeps_fs_log | apply keeps_fs_ret].
Qed.

Lemma keeps_fs_scan_report (env : Env) (flags : Flags) (scannedPath outputPath : string)
    (mode : Mode) :
  keeps_fs (scan_report env flags scannedPath outputPath mode).
Proof.
  unfold scan_report.
  destruct (porcelain flags); [|destruct mode];
    repeat (apply keeps_fs_bind; [apply keeps_fs_lift | intros ?]);
    apply keeps_fs_fmt.
Qed.

(** In a dry run without the read-only option the walk function leaves
    every file as it is, whatever it is called on, and after the decision it
    goes straight on to the status line. *)
Lemma scan_walkFn_dry_run
    (env : Env) (flags : Flags) (p : string) (info : FileInfo) (err : option os.error) :
  dryRun flags = true -> readOnly flags = false ->
  keeps_fs (scan_walkFn env flags p info err).
Proof.
  intros Hd Hr. unfold scan_walkFn.
  destruct (_ && String.eqb _ ".templater"); [apply keeps_fs_ret|].
  destruct (_ && regexp.MatchString _ _); [|apply keeps_fs_ret].
  destruct (path.IsAbs p) eqn:Habs; cbn [negb]; [|now intros w].
  intros w. unfold bind at 1.
  destruct (convertOutputPath env flags p) as [outputPath|msg|msg] eqn:Hc;
    cbn [lift]; try reflexivity.
  assert (Hne : outputPath <> "").
  { apply (convertOutputPath_nonempty env flags p); [|exact Hc]. intros ->. discriminate. }
  change (fs (fst ((r <- inputReader flags p ;;
    match r with
    | os.Err err0 =>
        np <- lift (nicePath env p) ;;
        log_Printf ("Failed to open for reading " +:+ np +:+ ": " +:+ os.Error err0
                      +:+ " ... skipping") ;;; ret WalkNil
    | os.OK r0 =>
        cls <- scan_classify env p outputPath r0 ;;
        (let (mode, b) := cls in
         written <- scan_write env flags outputPath mode b ;;
         match written with
         | None => ret WalkNil
         | Some mode0 => scan_report env flags p outputPath mode0 ;;; ret WalkNil
         end)
    end) w)) = fs w).
  apply keeps_fs_bind; [apply keeps_fs_inputReader|]. intros [r|e].
  - apply keeps_fs_bind; [apply keeps_fs_scan_classify|]. intros [mode b].
    apply keeps_fs_bind.
    + intros w1. now rewrite scan_write_dry_run.
    + intros [mode'|]; [|apply keeps_fs_ret].
      apply keeps_fs_bind; [apply keeps_fs_scan_report | intros; apply keeps_fs_ret].
  - apply keeps_fs_bind; [apply keeps_fs_lift|]. intros np.
    apply keeps_fs_bind; [apply keeps_fs_log | intros; apply keeps_fs_ret].
Qed.

(** ** Answers in ASCII *)

Lemma ascii_cases (P : ascii -> bool) :
  forallb P (map ascii_of_nat (seq 0 256)) = true -> forall a, P a = true.
Proof.
  intros H a. rewrite forallb_forall in H. apply H.
  rewrite <- (ascii_nat_embedding a). apply in_map, in_seq.
  pose proof (nat_ascii_bounded a). lia.
Qed.

Lemma fold_lowerASCII (a b : ascii) :
  strings.isASCII a = true -> strings.isASCII b = true ->
  Ascii.eqb b a || strings.foldASCII a b = Ascii.eqb (lowerASCII a) (lowerASCII b).
Proof.
  intros Ha Hb.
  assert (H : forall a b, implb (strings.isASCII a && strings.isASCII b)
                (Bool.eqb (Ascii.eqb b a || strings.foldASCII a b)
                          (Ascii.eqb (lowerASCII a) (lowerASCII b))) = true).
  { intros x. apply (ascii_cases (fun y => implb (strings.isASCII x && strings.isASCII y)
                (Bool.eqb (Ascii.eqb y x || strings.foldASCII x y)
                          (Ascii.eqb (lowerASCII x) (lowerASCII y))))).
    revert x. apply (ascii_cases (fun x => forallb (fun y =>
                implb (strings.isASCII x && strings.isASCII y)
                (Bool.eqb (Ascii.eqb y x || strings.foldASCII x y)
                          (Ascii.eqb (lowerASCII x) (lowerASCII y))))
                (map ascii_of_nat (seq 0 256)))).
    vm_compute. reflexivity. }
  specialize (H a b). rewrite Ha, Hb in H. simpl in H.
  now apply Bool.eqb_prop in H.
Qed.

(** On ASCII strings [EqualFold] compares the strings in small letters. *)
Lemma EqualFold_ascii (u : string -> string -> bool) (s t : string) :
  sforall strings.isASCII s = true -> sforall strings.isASCII t = true ->
  strings.EqualFold u s t = String.eqb (toLower s) (toLower t).
Proof.
  revert t; induction s as [|a s IH]; intros [|b t]; simpl; try reflexivity.
  intros Hs Ht. apply andb_true_iff in Hs as [Ha Hs]. apply andb_true_iff in Ht as [Hb Ht].
  rewrite Ha, Hb. cbn [andb negb].
  rewrite <- (fold_lowerASCII a b Ha Hb), (IH t Hs Ht).
  destruct (Ascii.eqb b a); [reflexivity|]. now destruct (strings.foldASCII a b).
Qed.

Lemma sforall_srev_onto (P : ascii -> bool) (s acc : string) :
  sforall P (strings.srev_onto s acc) = sforall P s && sforall P acc.
Proof.
  revert acc; induction s as [|c s IH]; intros acc; simpl; [reflexivity|].
  rewrite IH. simpl. destruct (P c), (sforall P s); reflexivity.
Qed.

Lemma sforall_srev (P : ascii -> bool) (s : string) :
  sforall P (strings.srev s) = sforall P s.
Proof. unfold strings.srev. rewrite sforall_srev_onto. simpl. apply andb_true_r. Qed.

Lemma sforall_dropSpaces (P : ascii -> bool) (s : string) :
  sforall P s = true -> sforall P (dropSpaces s) = true.
Proof.
  induction s as [|c s IH]; simpl; [reflexivity|]. intros H.
  destruct (strings.asciiSpace c); [|exact H].
  apply andb_true_iff in H as [_ H]. now apply IH.
Qed.

Lemma sforall_trimASCII (P : ascii -> bool) (s : string) :
  sforall P s = true -> sforall P (trimASCII s) = true.
Proof.
  intros H. unfold trimASCII. rewrite sforall_srev. apply sforall_dropSpaces.
  rewrite sforall_srev. now apply sforall_dropSpaces.
Qed.

Lemma TrimSpace_stop_ascii (u : string -> string) (r : string) :
  sforall strings.isASCII r = true ->
  strings.TrimSpace_stop u r = strings.srev (dropSpaces r).
Proof.
  induction r as [|c r IH]; simpl; [reflexivity|]. intros H.
  apply andb_true_iff in H as [Hc H]. rewrite Hc. cbn [negb].
  destruct (strings.asciiSpace c); [now apply IH | reflexivity].
Qed.

(** On ASCII strings [TrimSpace] removes the ASCII white space at the two
    ends. *)
Lemma TrimSpace_ascii (u1 u2 : string -> string) (s : string) :
  sforall strings.isASCII s = true -> strings.TrimSpace u1 u2 s = trimASCII s.
Proof.
  induction s as [|c s IH]; [reflexivity|]. intros H.
  pose proof H as Hall. simpl in H. apply andb_true_iff in H as [Hc H].
  cbn [strings.TrimSpace]. rewrite Hc. cbn [negb]. unfold trimASCII. cbn [dropSpaces].
  destruct (strings.asciiSpace c); [now apply IH|].
  apply TrimSpace_stop_ascii. now rewrite sforall_srev.
Qed.

(** For an answer in ASCII, the test of the gate: the answer without the
    white space around it, in small letters, is [y] or [yes]. *)
Lemma accepted_ascii (env : Env) (text : string) :
  sforall strings.isASCII text = true ->
  accepted env text
  = String.eqb (toLower (trimASCII text)) "y"
    || String.eqb (toLower (trimASCII text)) "yes".
Proof.
  intros H. unfold accepted. rewrite (TrimSpace_ascii _ _ text H).
  rewrite !EqualFold_ascii; try reflexivity; now apply sforall_trimASCII.
Qed.

(** * Further properties of the program *)

(** ** Path mapping *)

Lemma Clean_IsAbs (p : string) : path.IsAbs p = true -> path.IsAbs (path.Clean p) = true.
Proof.
  intros H. unfold path.Clean. destruct (String.eqb_spec p "") as [->|_]; [discriminate|].
  now rewrite H.
Qed.

Lemma Join_IsAbs (a b : string) : path.IsAbs a = true -> path.IsAbs (path.Join a b) = true.
Proof.
  intros H. unfold path.Join. destruct a as [|c a]; [discriminate|]. simpl String.eqb.
  apply Clean_IsAbs. exact H.
Qed.

Lemma Abs_IsAbs (wd p a : string) :
  path.IsAbs wd = true -> filepath.Abs (os.OK wd) p = os.OK a -> path.IsAbs a = true.
Proof.
  intros Hwd. unfold filepath.Abs. destruct (path.IsAbs p) eqn:Hp; intros [= <-].
  - now apply Clean_IsAbs.
  - now apply Join_IsAbs.
Qed.

Lemma IsAbs_app (a b : string) : path.IsAbs a = true -> path.IsAbs (a +:+ b) = true.
Proof. now destruct a. Qed.

Lemma IsAbs_nonempty (a : string) : path.IsAbs a = true -> a <> "".
Proof. now destruct a. Qed.

(** X1.  With the two prefixes made absolute to [o] and [n], both not empty,
    a template whose directory is [o] followed by any [x] is mapped to the
    stripped base name in the directory [n] followed by [x]: the prefix is
    replaced as a string, and [x] need not begin at a separator. *)
Theorem convertOutputPath_rewrites_prefix
    (env : Env) (flags : Flags) (scannedPath p o n x : string) :
  convertInputPath env flags scannedPath = Ret (Some p) ->
  origParentAbs env flags = Ret o ->
  newParentAbs env flags = Ret n ->
  o <> "" ->
  n <> "" ->
  path.Dir (path.Clean p) = o +:+ x ->
  convertOutputPath env flags scannedPath
  = Ret (path.Join (n +:+ x) (stripTempl (path.Base (path.Clean p)))).
Proof.
  intros Hp Ho Hn Hone Hnne Hd.
  rewrite (convertOutputPath_unfold env flags scannedPath p o n Hp Ho Hn), Hd.
  rewrite convertOutputDir_rewrite; auto.
  - now rewrite sdrop_app.
  - apply prefix_app.
Qed.

Lemma convertOutputPath_rewrites_prefix_witness :
  convertOutputPath env0 (prefixFlags "/home/u" "/dst") "/home/ux/a.tmpl.sh"
  = Ret (path.Join ("/dst" +:+ "x")
           (stripTempl (path.Base (path.Clean "/home/ux/a.tmpl.sh")))).
Proof.
  apply (convertOutputPath_rewrites_prefix env0 (prefixFlags "/home/u" "/dst")
           "/home/ux/a.tmpl.sh" "/home/ux/a.tmpl.sh" "/home/u" "/dst" "x");
    first [reflexivity | discriminate].
Defined.

(** X2.  Without the two prefix flags, in a working directory [wd], a
    template whose directory lies under [wd] is rendered in place: the output
    path is the stripped base name joined to the template's own directory. *)
Theorem convertOutputPath_in_place
    (env : Env) (flags : Flags) (scannedPath wd : string) :
  scannedPath <> "" ->
  origParent flags = "" ->
  newParent flags = "" ->
  Getwd env = os.OK wd ->
  wd <> "" ->
  strings.HasPrefix (path.Dir (path.Clean scannedPath)) (path.Clean (wd +:+ "/")) = true ->
  convertOutputPath env flags scannedPath
  = Ret (path.Join (path.Dir (path.Clean scannedPath))
           (stripTempl (path.Base (path.Clean scannedPath)))).
Proof.
  intros Hsp Ho Hn Hwd Hne Hpre.
  rewrite (convertOutputPath_unfold env flags scannedPath scannedPath
             (path.Clean (wd +:+ "/")) (path.Clean (wd +:+ "/"))).
  - rewrite convertOutputDir_rewrite; auto using Clean_nonempty.
    unfold strings.HasPrefix in Hpre. now rewrite <- (prefix_split _ _ Hpre).
  - unfold convertInputPath. now rewrite (eqb_nonempty _ Hsp).
  - now apply origParentAbs_absent.
  - now apply newParentAbs_absent.
Qed.

Lemma convertOutputPath_in_place_witness :
  convertOutputPath env0 flags0 "/w/sub/a.tmpl"
  = Ret (path.Join (path.Dir (path.Clean "/w/sub/a.tmpl"))
           (stripTempl (path.Base (path.Clean "/w/sub/a.tmpl")))).
Proof.
  apply (convertOutputPath_in_place env0 flags0 "/w/sub/a.tmpl" "/w");
    first [reflexivity | discriminate].
Defined.

(** X3.  In an absolute working directory the output path of a template is
    never empty and always absolute, whatever the prefix flags are, relative
    ones included. *)
Theorem convertOutputPath_absolute
    (env : Env) (flags : Flags) (scannedPath wd out : string) :
  Getwd env = os.OK wd ->
  path.IsAbs wd = true ->
  scannedPath <> "" ->
  convertOutputPath env flags scannedPath = Ret out ->
  out <> "" /\ path.IsAbs out = true.
Proof.
  intros Hwd Habs Hsp Hout.
  split; [now apply (convertOutputPath_nonempty env flags scannedPath)|].
  revert Hout. unfold convertOutputPath, convertInputPath.
  rewrite (eqb_nonempty _ Hsp). cbn.
  unfold origParentAbs, newParentAbs. rewrite Hwd.
  destruct (filepath.Abs (os.OK wd) (origParent flags)) as [o|e] eqn:Ho; cbn; [|discriminate].
  destruct (filepath.Abs (os.OK wd) (newParent flags)) as [n|e] eqn:Hn; cbn; [|discriminate].
  pose proof (Abs_IsAbs wd _ o Habs Ho) as Hoa.
  pose proof (Abs_IsAbs wd _ n Habs Hn) as Hna.
  unfold convertOutputDir.
  rewrite (eqb_nonempty o (IsAbs_nonempty o Hoa)), (eqb_nonempty n (IsAbs_nonempty n Hna)).
  cbn [negb andb].
  destruct (negb (strings.HasPrefix _ o)); cbn; [discriminate|].
  intros [= <-]. apply Join_IsAbs.
  destruct (Nat.eqb _ _); [exact Hna | now apply IsAbs_app].
Qed.

Lemma convertOutputPath_absolute_witness :
  "/w/out/sub/a" <> "" /\ path.IsAbs "/w/out/sub/a" = true.
Proof.
  apply (convertOutputPath_absolute env0 (prefixFlags "." "out") "/w/sub/a.tmpl" "/w");
    first [reflexivity | discriminate].
Defined.

(** ** Suffix stripping and the pattern *)

Lemma Index_split (s old : string) (j : nat) :
  strings.Index s old = Some j ->
  s = stake j s +:+ old +:+ sdrop (j + String.length old) s.
Proof.
  revert j; induction s as [|c s IH]; intros j; rewrite Index_unfold.
  - destruct (String.prefix old "") eqn:E; [|discriminate]. intros [= <-].
    now apply prefix_split.
  - destruct (String.prefix old (String c s)) eqn:E.
    + intros [= <-]. now apply prefix_split.
    + destruct (strings.Index s old) as [j'|] eqn:Ej; [|discriminate].
      intros [= <-]. simpl. f_equal. now apply IH.
Qed.

Lemma Index_Contains (s old : string) :
  strings.Contains s old = true -> exists j, strings.Index s old = Some j.
Proof.
  induction s as [|c s IH]; rewrite Contains_unfold, Index_unfold; intros H.
  - rewrite orb_false_r in H. rewrite H. now exists 0.
  - destruct (String.prefix old (String c s)); [now exists 0|].
    destruct (IH H) as [j ->]. now exists (S j).
Qed.

Lemma stripTempl_Index (base : string) :
  stripTempl base =
  match strings.Index base ".tmpl" with
  | Some j => stake j base +:+ sdrop (j + 5) base
  | None => base
  end.
Proof.
  unfold stripTempl. change ("." +:+ extension) with ".tmpl". cbn [strings.Replace].
  now destruct (strings.Index base ".tmpl").
Qed.

(** X4.  A name that the pattern of the scanner matches loses exactly the
    five characters of one [.tmpl]: the stripped name is five characters
    shorter, so it is never the name of the template itself. *)
Theorem stripTempl_of_matched_name (name : string) :
  regexp.MatchString templRegEx name = true ->
  String.length (stripTempl name) + 5 = String.length name /\ stripTempl name <> name.
Proof.
  intros H. apply (proj1 templRegEx_matches) in H as (pre & rest & E & _ & _).
  assert (Hc : strings.Contains name ".tmpl" = true).
  { apply Contains_spec. now exists pre, rest. }
  apply Index_Contains in Hc as [j Hj].
  assert (Hl : String.length (stripTempl name) + 5 = String.length name).
  { rewrite stripTempl_Index, Hj. rewrite (Index_split name ".tmpl" j Hj) at 3.
    rewrite !slength_app. simpl. lia. }
  split; [exact Hl|]. intros Heq. rewrite Heq in Hl. lia.
Qed.

Lemma stripTempl_of_matched_name_witness :
  String.length (stripTempl "a.tmpl.sh") + 5 = String.length "a.tmpl.sh"
  /\ stripTempl "a.tmpl.sh" <> "a.tmpl.sh".
Proof. apply (stripTempl_of_matched_name "a.tmpl.sh"). reflexivity. Defined.

(** X5.  The stripped name is empty for exactly two base names: the empty
    one and [.tmpl] itself, which the pattern of the scanner matches. *)
Theorem stripTempl_empty (base : string) :
  stripTempl base = "" <-> base = "" \/ base = ".tmpl".
Proof.
  split.
  - rewrite stripTempl_Index. destruct (strings.Index base ".tmpl") as [j|] eqn:Hj.
    + intros H. apply sapp_eq_nil in H as [Ha Hb]. right.
      rewrite (Index_split base ".tmpl" j Hj). simpl String.length.
      now rewrite Ha, Hb.
    + now left.
  - intros [-> | ->]; reflexivity.
Qed.

(** X6.  The names that the pattern of the scanner matches are exactly those
    made of a part without a newline, then [.tmpl], then either nothing or a
    dot followed by anything. *)
Theorem templRegEx_language (name : string) :
  regexp.MatchString templRegEx name = true <->
  exists pre rest, name = pre +:+ ".tmpl" +:+ rest
                   /\ smem newline pre = false
                   /\ (rest = "" \/ String.prefix "." rest = true).
Proof. apply (proj1 templRegEx_matches). Qed.

Lemma templRegEx_language_witness :
  regexp.MatchString templRegEx (".bashrc" +:+ ".tmpl" +:+ ".d") = true.
Proof.
  apply (proj2 (templRegEx_language (".bashrc" +:+ ".tmpl" +:+ ".d"))).
  exists ".bashrc", ".d". repeat split. now right.
Defined.

Lemma Previous_templRegEx_MatchString (name : string) :
  regexp.MatchString Previous.templRegEx name
  = match name with
    | String c s =>
        negb (Ascii.eqb c newline)
        && regexp.matchK (regexp.Star regexp.AnyCharNotNL) false s afterDotStar
    | EmptyString => false
    end.
Proof.
  assert (Hlater : forall s, regexp.searchFrom Previous.templRegEx false s = false).
  { induction s as [|c s IH]; simpl; [reflexivity | exact IH]. }
  unfold regexp.MatchString. destruct name as [|c s]; cbn [regexp.searchFrom].
  - reflexivity.
  - rewrite Hlater, orb_false_r. reflexivity.
Qed.

(** X7.  The pattern of the previous version asks for at least one character
    in front of [.tmpl]: it matches the names made of a non-empty part
    without a newline, [.tmpl], and nothing or a dot and anything.  Every
    name it matches is matched by the current pattern. *)
Theorem Previous_templRegEx_language (name : string) :
  (regexp.MatchString Previous.templRegEx name = true <->
   exists pre rest, name = pre +:+ ".tmpl" +:+ rest
                    /\ pre <> ""
                    /\ smem newline pre = false
                    /\ (rest = "" \/ String.prefix "." rest = true)) /\
  (regexp.MatchString Previous.templRegEx name = true ->
   regexp.MatchString templRegEx name = true).
Proof.
  assert (Hk : forall st s, afterDotStar st s = afterDotStar true s).
  { intros st s. unfold afterDotStar. cbn [regexp.matchK]. now rewrite !andb_true_r. }
  assert (Hiff : regexp.MatchString Previous.templRegEx name = true <->
    exists pre rest, name = pre +:+ ".tmpl" +:+ rest /\ pre <> ""
                     /\ smem newline pre = false
                     /\ (rest = "" \/ String.prefix "." rest = true)).
  { rewrite Previous_templRegEx_MatchString. destruct name as [|c s].
    - split; [discriminate|]. intros (pre & rest & E & Hne & _).
      destruct pre; [congruence | discriminate].
    - rewrite andb_true_iff, (dotStar_spec (afterDotStar true) afterDotStar Hk). split.
      + intros [Hc (pre & tl & -> & Hnl & H)].
        apply afterDotStar_spec in H as (rest & -> & H).
        exists (String c pre), rest. repeat split; [discriminate| |exact H].
        simpl. rewrite Hnl, orb_false_r. now apply negb_true_iff in Hc.
      + intros (pre & rest & E & Hne & Hnl & H).
        destruct pre as [|d pre]; [congruence|]. simpl in E. injection E as -> ->.
        simpl in Hnl. apply orb_false_iff in Hnl as [Hc Hnl]. split.
        * now rewrite Hc.
        * exists pre, (".tmpl" +:+ rest). repeat split; [exact Hnl|].
          apply afterDotStar_spec. now exists rest. }
  split; [exact Hiff|].
  intros H. apply Hiff in H as (pre & rest & E & _ & Hnl & H).
  apply (proj1 templRegEx_matches). now exists pre, rest.
Qed.

Lemma Previous_templRegEx_language_witness :
  regexp.MatchString templRegEx "a.tmpl" = true.
Proof.
  apply (proj2 (Previous_templRegEx_language "a.tmpl")). reflexivity.
Defined.

(** ** The output gate *)

Lemma createOutputFile_world (outputPath : string) (w : World) :
  exists fs' r, createOutputFile outputPath w = (set_fs w fs', Ret r).
Proof.
  unfold createOutputFile. destruct (os.Remove (fs w) outputPath) as [fs1 e1].
  destruct (os.MkdirAll _ fs1 _ _) as [fs2 [e2|]]; [now eexists _, _|].
  destruct (os.Create _ fs2 outputPath) as [fs3 [h|e3]]; now eexists _, _.
Qed.

(** X8.  The gate prints its question and reads an answer only when the run
    is not a dry run, is interactive, does not take its template from
    standard input, and the output path exists.  When one of the four fails,
    standard input, standard output and the log are left as they are. *)
Theorem promptAndCreateOutputFile_silent
    (env : Env) (flags : Flags) (outputPath : string) (w : World) :
  dryRun flags = true \/ interactive flags = false \/ isStdin flags = true
  \/ (exists err, os.Stat (fs w) outputPath = os.Err err) ->
  let w' := fst (promptAndCreateOutputFile env flags outputPath w) in
  stdin w' = stdin w /\ stdout w' = stdout w /\ logs w' = logs w.
Proof.
  intros H. unfold promptAndCreateOutputFile, shouldDryRun, shouldPromptBeforeWrite.
  destruct (dryRun flags); [now cbn|].
  destruct (createOutputFile_world outputPath w) as (fs' & r & Hc).
  destruct (interactive flags); cbn [andb negb]; [|now rewrite Hc].
  destruct (isStdin flags); cbn [andb negb]; [now rewrite Hc|].
  destruct H as [H | [H | [H | [err H]]]]; try discriminate.
  rewrite H, Hc. now cbn.
Qed.

Lemma promptAndCreateOutputFile_silent_witness :
  let w := mkWorld (fsOld 420) 18 false ["y" +:+ nl] [] [] in
  let w' := fst (promptAndCreateOutputFile env0 (inputFlags "") "/w/a" w) in
  stdin w' = stdin w /\ stdout w' = stdout w /\ logs w' = logs w.
Proof.
  apply (promptAndCreateOutputFile_silent env0 (inputFlags "") "/w/a"
           (mkWorld (fsOld 420) 18 false ["y" +:+ nl] [] [])).
  right. left. reflexivity.
Defined.

(** X9.  For an answer made of ASCII characters the gate goes on exactly when
    the answer without the white space at its two ends, in small letters, is
    [y] or [yes]. *)
Theorem answer_in_ASCII (env : Env) (text : string) :
  sforall strings.isASCII text = true ->
  (accepted env text = true <->
   toLower (trimASCII text) = "y" \/ toLower (trimASCII text) = "yes").
Proof.
  intros H. rewrite (accepted_ascii env text H), orb_true_iff.
  now rewrite !String.eqb_eq.
Qed.

Lemma answer_in_ASCII_witness :
  accepted env0 ("  yEs" +:+ tab +:+ nl) = true <->
  toLower (trimASCII ("  yEs" +:+ tab +:+ nl)) = "y"
  \/ toLower (trimASCII ("  yEs" +:+ tab +:+ nl)) = "yes".
Proof. apply (answer_in_ASCII env0 ("  yEs" +:+ tab +:+ nl)). reflexivity. Defined.

(** X10.  Whenever [createOutputFile] returns a writer, the output path holds
    a regular file without contents and the writer is open on it: nothing of
    an older file is left.  Only the files change; nothing is printed, read
    or logged. *)
Theorem createOutputFile_gives_empty_file
    (outputPath : string) (w w' : World) (wr : Writer) :
  createOutputFile outputPath w = (w', Ret (os.OK wr)) ->
  wr = FileWriter (os.key outputPath) /\
  (exists perm, fs w' !! os.key outputPath = Some (os.File perm "")) /\
  stdin w' = stdin w /\ stdout w' = stdout w /\ logs w' = logs w.
Proof.
  unfold createOutputFile. destruct (os.Remove (fs w) outputPath) as [fs1 e1].
  destruct (os.MkdirAll _ fs1 _ _) as [fs2 [e2|]]; [discriminate|].
  unfold os.Create. destruct (os.walk fs2 _); [discriminate|].
  destruct (fs2 !! os.key outputPath) as [[perm c|perm]|] eqn:E.
  - destruct (os.readable perm && os.writable perm); [|discriminate].
    intros [= <- <-]. cbn. rewrite lookup_insert_eq. repeat split. now exists perm.
  - discriminate.
  - intros [= <- <-]. cbn. rewrite lookup_insert_eq. repeat split. now eexists.
Qed.

Lemma createOutputFile_gives_empty_file_witness :
  FileWriter "/w/a" = FileWriter (os.key "/w/a") /\
  (exists perm,
      fs (fst (createOutputFile "/w/a" (mkWorld (fsOld 420) 18 false [] [] [])))
        !! os.key "/w/a" = Some (os.File perm "")) /\
  stdin (fst (createOutputFile "/w/a" (mkWorld (fsOld 420) 18 false [] [] []))) = [] /\
  stdout (fst (createOutputFile "/w/a" (mkWorld (fsOld 420) 18 false [] [] []))) = [] /\
  logs (fst (createOutputFile "/w/a" (mkWorld (fsOld 420) 18 false [] [] []))) = [].
Proof.
  apply (createOutputFile_gives_empty_file "/w/a" (mkWorld (fsOld 420) 18 false [] [] [])
           (fst (createOutputFile "/w/a" (mkWorld (fsOld 420) 18 false [] [] [])))
           (FileWriter "/w/a")).
  reflexivity.
Defined.

Lemma Stat_dirs_present (fs : gmap string os.Node) (name : string) (perm : N) :
  os.Stat fs name = os.OK (os.Directory perm) ->
  Forall (isDirectoryIn fs) (os.ancestors (os.key name) ++ [os.key name]).
Proof.
  intros H. apply Stat_inv in H as [Hw Hk]. apply Forall_app. split.
  - now apply walk_None.
  - constructor; [now exists perm | constructor].
Qed.

(** X11.  A directory that is not empty at the output path stops the write:
    [createOutputFile] removes nothing, changes no file and returns the error
    "is a directory". *)
Theorem createOutputFile_on_directory
    (outputPath : string) (perm dperm : N) (w : World) :
  os.Stat (fs w) outputPath = os.OK (os.Directory perm) ->
  os.hasEntries (fs w) (os.key outputPath) = true ->
  os.Stat (fs w) (path.Dir outputPath) = os.OK (os.Directory dperm) ->
  createOutputFile outputPath w
  = (set_fs w (fs w), Ret (os.Err (os.PathError "open" outputPath os.EISDIR))).
Proof.
  intros Hop Hent Hdir. pose proof (Stat_inv _ _ _ Hop) as [Hwalk Hk].
  unfold createOutputFile, os.Remove, os.lookup. rewrite Hwalk, Hk, Hent.
  unfold os.MkdirAll. rewrite (mkdirs_present _ _ _ _ (Stat_dirs_present _ _ _ Hdir)).
  unfold os.Create. now rewrite Hwalk, Hk.
Qed.

Lemma createOutputFile_on_directory_witness :
  createOutputFile "/w" world0
  = (set_fs world0 (fs world0), Ret (os.Err (os.PathError "open" "/w" os.EISDIR))).
Proof.
  apply (createOutputFile_on_directory "/w" 493%N 493%N world0); reflexivity.
Defined.

(** X12.  In the previous version [createOutputFile] did not remove the old
    file first: on an existing file that may not be written, such as one of
    mode 0444, it fails with "permission denied" and changes nothing. *)
Theorem Previous_createOutputFile_read_only
    (outputPath old : string) (perm dperm : N) (w : World) :
  os.Stat (fs w) outputPath = os.OK (os.File perm old) ->
  os.writable perm = false ->
  os.Stat (fs w) (path.Dir outputPath) = os.OK (os.Directory dperm) ->
  Previous.createOutputFile outputPath w
  = (set_fs w (fs w), Ret (os.Err (os.PathError "open" outputPath os.EACCES))).
Proof.
  intros Hop Hw Hdir. unfold Previous.createOutputFile, os.MkdirAll.
  rewrite (mkdirs_present _ _ _ _ (Stat_dirs_present _ _ _ Hdir)).
  now rewrite (Create_read_only _ _ _ _ _ Hop Hw).
Qed.

Lemma Previous_createOutputFile_read_only_witness :
  Previous.createOutputFile "/w/a" (mkWorld (fsOld 292) 18 false [] [] [])
  = (set_fs (mkWorld (fsOld 292) 18 false [] [] []) (fsOld 292),
     Ret (os.Err (os.PathError "open" "/w/a" os.EACCES))).
Proof.
  apply (Previous_createOutputFile_read_only "/w/a" "old" 292%N 493%N
           (mkWorld (fsOld 292) 18 false [] [] [])); reflexivity.
Defined.

(** ** Writing the output *)

Lemma isDirectoryIn_insert_file (fs : gmap string os.Node) (k d : string) (n : os.Node) :
  ~ isDirectoryIn fs k -> isDirectoryIn fs d -> isDirectoryIn (<[k := n]> fs) d.
Proof.
  intros Hk [q Hq]. exists q. rewrite lookup_insert_ne; [exact Hq|].
  intros ->. apply Hk. now exists q.
Qed.

Lemma isDirectoryIn_delete_other (fs : gmap string os.Node) (k d : string) :
  ~ isDirectoryIn fs k -> isDirectoryIn fs d -> isDirectoryIn (delete k fs) d.
Proof.
  intros Hk [q Hq]. exists q. rewrite lookup_delete_ne; [exact Hq|].
  intros ->. apply Hk. now exists q.
Qed.

(** [createOutputFile] where the directory of the output path exists and the
    path itself is free or a regular file: a new, empty file. *)
Lemma createOutputFile_fresh (outputPath : string) (dperm : N) (w : World) :
  os.walk (fs w) (os.ancestors (os.key outputPath)) = None ->
  ~ isDirectoryIn (fs w) (os.key outputPath) ->
  os.Stat (fs w) (path.Dir outputPath) = os.OK (os.Directory dperm) ->
  createOutputFile outputPath w
  = (set_fs w (<[os.key outputPath := os.File (N.ldiff 438 (umask w)) ""]> (fs w)),
     Ret (os.OK (FileWriter (os.key outputPath)))).
Proof.
  intros Hwalk Hnd Hdir. pose proof (Stat_dirs_present _ _ _ Hdir) as Hdirs.
  pose proof (proj1 (walk_None _ _) Hwalk) as Hanc.
  unfold createOutputFile, os.Remove, os.lookup. rewrite Hwalk.
  destruct (fs w !! os.key outputPath) as [[perm c|perm]|] eqn:Hk.
  - unfold os.MkdirAll. rewrite mkdirs_present.
    2:{ eapply Forall_impl; [exact Hdirs|]. intros d. now apply isDirectoryIn_delete_other. }
    unfold os.Create. rewrite (proj2 (walk_None (delete (os.key outputPath) (fs w)) _)).
    2:{ eapply Forall_impl; [exact Hanc|]. intros d. now apply isDirectoryIn_delete_other. }
    rewrite lookup_delete_eq. now rewrite insert_delete_eq.
  - exfalso. apply Hnd. now exists perm.
  - unfold os.MkdirAll. rewrite mkdirs_present by exact Hdirs.
    unfold os.Create. now rewrite Hwalk, Hk.
Qed.

Lemma readable_292 : os.readable 292 = true.
Proof. reflexivity. Qed.

Lemma scan_write_creates
    (env : Env) (flags : Flags) (outputPath : string) (mode : Mode) (b : bytes.Buffer)
    (w w1 : World) (wr : Writer) :
  dryRun flags = false ->
  shouldPromptBeforeWrite flags = false ->
  outputPath <> "" ->
  mode = MODIFY \/ mode = CREATE ->
  createOutputFile outputPath w = (w1, Ret (os.OK wr)) ->
  scan_write env flags outputPath mode b w = scan_write_with flags outputPath mode b wr w1.
Proof.
  intros Hd Hp Hne Hmode Hc.
  unfold scan_write, outputWriter, promptAndCreateOutputFile, shouldDryRun.
  rewrite (eqb_nonempty _ Hne), Hd, Hp. cbn [negb].
  destruct Hmode as [-> | ->]; unfold bind at 1; rewrite Hc; reflexivity.
Qed.

Lemma Chmod_file (fs : gmap string os.Node) (name c : string) (perm mode : N) :
  os.walk fs (os.ancestors (os.key name)) = None ->
  fs !! os.key name = Some (os.File perm c) ->
  os.Chmod fs name mode = (<[os.key name := os.File mode c]> fs, None).
Proof. intros Hw Hk. unfold os.Chmod, os.lookup. now rewrite Hw, Hk. Qed.

Lemma walk_insert_file (fs : gmap string os.Node) (k : string) (n : os.Node)
    (dirs : list string) :
  ~ isDirectoryIn fs k -> os.walk fs dirs = None -> os.walk (<[k := n]> fs) dirs = None.
Proof.
  intros Hk H. apply walk_None. apply walk_None in H.
  eapply Forall_impl; [exact H|]. intros d. now apply isDirectoryIn_insert_file.
Qed.

(** X13.  A write that succeeds is seen by the next look at the output: when
    the directory of the output path exists, the path is free or a regular
    file, the device has room and the buffer is not empty, the write step of
    [scan] leaves a file with exactly the bytes of the buffer (of mode 0444
    with the read-only option), keeps the decision, and the comparison that
    [scan] makes between the same buffer and that file finds them equal. *)
Theorem scan_write_then_equal
    (env : Env) (flags : Flags) (outputPath : string) (mode : Mode) (d : string)
    (dperm : N) (w : World) :
  dryRun flags = false ->
  shouldPromptBeforeWrite flags = false ->
  outputPath <> "" ->
  mode = MODIFY \/ mode = CREATE ->
  os.walk (fs w) (os.ancestors (os.key outputPath)) = None ->
  ~ isDirectoryIn (fs w) (os.key outputPath) ->
  os.Stat (fs w) (path.Dir outputPath) = os.OK (os.Directory dperm) ->
  full w = false ->
  d <> "" ->
  readOnly flags = true \/ os.readable (N.ldiff 438 (umask w)) = true ->
  let b := bytes.mkBuffer (Some d) in
  let perm := if readOnly flags then 292%N else N.ldiff 438 (umask w) in
  let w' := set_fs w (<[os.key outputPath := os.File perm d]> (fs w)) in
  scan_write env flags outputPath mode b w = (w', Ret (Some mode)) /\
  getExistingOutputFileContents outputPath w'
  = (w', Ret (os.OK (bytes.ReadFrom bytes.new d))) /\
  reflect.DeepEqual (bytes.Bytes b) (bytes.Bytes (bytes.ReadFrom bytes.new d)) = true.
Proof.
  intros Hd Hp Hne Hmode Hwalk Hnd Hdir Hfull Hdne Hread b perm w'.
  assert (Hlen : Nat.eqb (bytes.Len b) 0 = false).
  { unfold b, bytes.Len. cbn. destruct d; [congruence | reflexivity]. }
  assert (Hr : os.readable perm = true).
  { unfold perm. destruct (readOnly flags); [reflexivity|].
    destruct Hread as [Hr|Hr]; [discriminate | exact Hr]. }
  split; [|split].
  - rewrite (scan_write_creates env flags outputPath mode b w _ _ Hd Hp Hne Hmode
               (createOutputFile_fresh outputPath dperm w Hwalk Hnd Hdir)).
    unfold scan_write_with, bind, io_Copy. rewrite Hlen.
    unfold os.Write. cbn [fs set_fs full umask]. rewrite lookup_insert_eq, Hfull.
    cbn [ret]. rewrite insert_insert_eq. unfold w', perm.
    destruct (readOnly flags); [|reflexivity].
    unfold markFileReadOnly. cbn [fs set_fs].
    rewrite (Chmod_file _ outputPath d (N.ldiff 438 (umask w)) 292).
    + cbn. unfold set_fs. cbn. now rewrite insert_insert_eq.
    + now apply walk_insert_file.
    + apply lookup_insert_eq.
  - unfold getExistingOutputFileContents. rewrite (eqb_nonempty _ Hne).
    unfold os.Open, os.lookup, w'. cbn [fs set_fs].
    rewrite (walk_insert_file _ _ _ _ Hnd Hwalk), lookup_insert_eq, Hr.
    unfold os.ReadAll. cbn [fs set_fs]. now rewrite lookup_insert_eq.
  - unfold b. cbn. apply String.eqb_refl.
Qed.

Lemma scan_write_then_equal_witness :
  scan_write env0 flags0 "/w/a" CREATE (bytes.mkBuffer (Some "Hello")) world0
  = (set_fs world0 (<[os.key "/w/a" := os.File (N.ldiff 438 18) "Hello"]> fs0),
     Ret (Some CREATE)) /\
  getExistingOutputFileContents "/w/a"
    (set_fs world0 (<[os.key "/w/a" := os.File (N.ldiff 438 18) "Hello"]> fs0))
  = (set_fs world0 (<[os.key "/w/a" := os.File (N.ldiff 438 18) "Hello"]> fs0),
     Ret (os.OK (bytes.ReadFrom bytes.new "Hello"))) /\
  reflect.DeepEqual (bytes.Bytes (bytes.mkBuffer (Some "Hello")))
    (bytes.Bytes (bytes.ReadFrom bytes.new "Hello")) = true.
Proof.
  apply (scan_write_then_equal env0 flags0 "/w/a" CREATE "Hello" 493%N world0);
    first [reflexivity | discriminate | (right; reflexivity)
          | (intros [q Hq]; vm_compute in Hq; discriminate)].
Defined.

(** X14.  When the device is full, the write step of [scan] has already
    replaced the old file: the output path is left as an empty file, the
    error of the copy is logged and the decision becomes FAIL. *)
Theorem scan_write_device_full
    (env : Env) (flags : Flags) (outputPath : string) (mode : Mode) (b : bytes.Buffer)
    (dperm : N) (w : World) :
  dryRun flags = false ->
  shouldPromptBeforeWrite flags = false ->
  readOnly flags = false ->
  outputPath <> "" ->
  mode = MODIFY \/ mode = CREATE ->
  os.walk (fs w) (os.ancestors (os.key outputPath)) = None ->
  ~ isDirectoryIn (fs w) (os.key outputPath) ->
  os.Stat (fs w) (path.Dir outputPath) = os.OK (os.Directory dperm) ->
  full w = true ->
  bytes.Len b <> 0 ->
  scan_write env flags outputPath mode b w
  = (logged (set_fs w (<[os.key outputPath := os.File (N.ldiff 438 (umask w)) ""]> (fs w)))
       ("Unexpected error copying file: "
          +:+ os.Error (os.PathError "write" (os.key outputPath) os.ENOSPC)),
     Ret (Some FAIL)).
Proof.
  intros Hd Hp Hro Hne Hmode Hwalk Hnd Hdir Hfull Hlen.
  rewrite (scan_write_creates env flags outputPath mode b w _ _ Hd Hp Hne Hmode
             (createOutputFile_fresh outputPath dperm w Hwalk Hnd Hdir)).
  unfold scan_write_with, bind, io_Copy.
  destruct (Nat.eqb_spec (bytes.Len b) 0) as [E|_]; [contradiction|].
  unfold os.Write. cbn [fs set_fs full umask]. rewrite lookup_insert_eq, Hfull, Hro.
  reflexivity.
Qed.

Lemma scan_write_device_full_witness :
  scan_write env0 flags0 "/w/a" MODIFY (bytes.mkBuffer (Some "Hello"))
    (mkWorld (fsOld 420) 18 true [] [] [])
  = (logged (set_fs (mkWorld (fsOld 420) 18 true [] [] [])
               (<[os.key "/w/a" := os.File (N.ldiff 438 18) ""]> (fsOld 420)))
       ("Unexpected error copying file: "
          +:+ os.Error (os.PathError "write" (os.key "/w/a") os.ENOSPC)),
     Ret (Some FAIL)).
Proof.
  apply (scan_write_device_full env0 flags0 "/w/a" MODIFY (bytes.mkBuffer (Some "Hello"))
           493%N (mkWorld (fsOld 420) 18 true [] [] []));
    first [reflexivity | discriminate | (left; reflexivity)
          | (intros [q Hq]; vm_compute in Hq; discriminate)].
Defined.

(** ** Cleaned paths *)

Lemma split_noSlash (s : string) : Forall noSlash (path.split s).
Proof.
  induction s as [|c s IH]; simpl.
  - repeat constructor.
  - destruct (Ascii.eqb c slash) eqn:E.
    + constructor; [reflexivity | exact IH].
    + destruct (path.split s) as [|e es]; [repeat constructor; unfold noSlash; simpl;
        now rewrite E|].
      inversion IH as [|? ? He Hes]; subst. constructor; [|exact Hes].
      unfold noSlash in *. simpl. now rewrite E, He.
Qed.

Lemma split_single (e : string) : noSlash e -> path.split e = [e].
Proof.
  unfold noSlash. induction e as [|c e IH]; simpl; [reflexivity|].
  intros H. apply orb_false_iff in H as [Hc He]. rewrite Hc, (IH He). reflexivity.
Qed.

Lemma split_app_slash (e s : string) :
  noSlash e -> path.split (e +:+ String slash s) = e :: path.split s.
Proof.
  unfold noSlash. induction e as [|c e IH]; simpl.
  - intros _. reflexivity.
  - intros H. apply orb_false_iff in H as [Hc He]. rewrite Hc, (IH He). reflexivity.
Qed.

Lemma split_join (es : list string) :
  Forall noSlash es -> es <> [] -> path.split (path.join es) = es.
Proof.
  induction es as [|e es IH]; [congruence|]. intros H _.
  inversion H as [|? ? He Hes]; subst. destruct es as [|e' es].
  - now apply split_single.
  - change (path.join (e :: e' :: es)) with (e +:+ String slash (path.join (e' :: es))).
    rewrite (split_app_slash _ _ He), IH; [reflexivity | exact Hes | discriminate].
Qed.

Lemma clean_step_proper (rooted : bool) (st : list string) (e : string) :
  properElement e -> path.clean_step rooted st e = e :: st.
Proof.
  intros (H1 & H2 & H3 & _). unfold path.clean_step.
  now rewrite (proj2 (String.eqb_neq _ _) H1), (proj2 (String.eqb_neq _ _) H2),
    (proj2 (String.eqb_neq _ _) H3).
Qed.

Lemma fold_proper (rooted : bool) (es st : list string) :
  Forall properElement es -> fold_left (path.clean_step rooted) es st = rev es ++ st.
Proof.
  revert st; induction es as [|e es IH]; intros st H; [reflexivity|].
  inversion H as [|? ? He Hes]; subst. simpl.
  rewrite (clean_step_proper _ _ _ He), (IH _ Hes). now rewrite <- app_assoc.
Qed.

Lemma fold_dotdot (ds st : list string) :
  Forall (eq "..") ds -> Forall (eq "..") st ->
  fold_left (path.clean_step false) ds st = rev ds ++ st.
Proof.
  revert st; induction ds as [|e ds IH]; intros st H Hst; [reflexivity|].
  inversion H as [|? ? He Hds]; subst. simpl.
  assert (Hs : path.clean_step false st ".." = ".." :: st).
  { unfold path.clean_step. simpl. destruct st as [|top rest]; [reflexivity|].
    inversion Hst as [|? ? Ht _]; subst. reflexivity. }
  rewrite Hs, IH; [now rewrite <- app_assoc | exact Hds | now constructor].
Qed.

Lemma clean_step_stackOK (rooted : bool) (st : list string) (e : string) :
  noSlash e -> stackOK rooted st -> stackOK rooted (path.clean_step rooted st e).
Proof.
  intros He (ps & ds & -> & Hps & Hds & Hr). unfold path.clean_step.
  destruct (String.eqb_spec e "") as [->|H1]; [now exists ps, ds|].
  destruct (String.eqb_spec e ".") as [->|H2]; [now exists ps, ds|]. cbn [orb].
  destruct (String.eqb_spec e "..") as [->|H3].
  - destruct ps as [|q ps]; cbn [app].
    + destruct ds as [|d ds].
      * destruct rooted; [now exists [], [] |].
        exists [], [".."]. repeat split; auto. discriminate.
      * inversion Hds as [|? ? Hd Hds']; subst. simpl.
        exists [], (".." :: ".." :: ds). repeat split; auto.
        intros Ht. specialize (Hr Ht). discriminate.
    + inversion Hps as [|? ? Hq Hps']; subst.
      destruct Hq as (_ & _ & Hq3 & _).
      rewrite (proj2 (String.eqb_neq _ _) Hq3). now exists ps, ds.
  - exists (e :: ps), ds. repeat split; auto. constructor; [|exact Hps].
    repeat split; assumption.
Qed.

Lemma fold_stackOK (rooted : bool) (es st : list string) :
  Forall noSlash es -> stackOK rooted st ->
  stackOK rooted (fold_left (path.clean_step rooted) es st).
Proof.
  revert st; induction es as [|e es IH]; intros st H Hst; [exact Hst|].
  inversion H as [|? ? He Hes]; subst. simpl. apply IH; [exact Hes|].
  now apply clean_step_stackOK.
Qed.

Lemma join_nonempty (es : list string) :
  Forall (fun e => e <> "") es -> es <> [] -> path.join es <> "".
Proof.
  intros H Hne. destruct es as [|e es]; [congruence|].
  inversion H as [|? ? He _]; subst. destruct es; simpl; [exact He|].
  destruct e; [congruence | discriminate].
Qed.

Lemma join_not_abs (es : list string) :
  Forall (fun e => e <> "" /\ noSlash e) es -> path.IsAbs (path.join es) = false.
Proof.
  intros H. destruct es as [|e es]; [reflexivity|].
  inversion H as [|? ? [He Hs] _]; subst.
  destruct e as [|c e]; [congruence|]. unfold noSlash in Hs. simpl in Hs.
  apply orb_false_iff in Hs as [Hc _]. destruct es; simpl; exact Hc.
Qed.

Lemma Forall_rev_list {A : Type} (Q : A -> Prop) (l : list A) :
  Forall Q l -> Forall Q (rev l).
Proof.
  induction 1 as [|x l Hx Hl IH]; simpl; [constructor|].
  apply Forall_app. split; [exact IH | now constructor].
Qed.

(** the elements that [path.Clean] puts out, in order: [..] elements, none of
    them in a rooted path, and proper elements behind them *)
Lemma Clean_elements (p : string) :
  p <> "" ->
  exists ds ps,
    rev (fold_left (path.clean_step (path.IsAbs p)) (path.split p) []) = ds ++ ps
    /\ Forall (eq "..") ds /\ Forall properElement ps
    /\ (path.IsAbs p = true -> ds = []).
Proof.
  intros _.
  destruct (fold_stackOK (path.IsAbs p) (path.split p) [] (split_noSlash p))
    as (ps & ds & E & Hps & Hds & Hr).
  { exists [], []. repeat split; auto. }
  exists (rev ds), (rev ps). rewrite E, rev_app_distr. repeat split.
  - now apply Forall_rev_list.
  - now apply Forall_rev_list.
  - intros Ht. now rewrite (Hr Ht).
Qed.

Lemma Clean_of_elements (rooted : bool) (ds ps : list string) :
  Forall (eq "..") ds -> Forall properElement ps -> (rooted = true -> ds = []) ->
  fold_left (path.clean_step rooted) (ds ++ ps) [] = rev (ds ++ ps).
Proof.
  intros Hds Hps Hr. rewrite fold_left_app.
  assert (Hd : fold_left (path.clean_step rooted) ds [] = rev ds).
  { destruct rooted.
    - rewrite (Hr eq_refl). reflexivity.
    - rewrite (fold_dotdot ds [] Hds); [apply app_nil_r | constructor]. }
  rewrite Hd, (fold_proper _ _ _ Hps). now rewrite rev_app_distr.
Qed.

Lemma elements_noSlash (ds ps : list string) :
  Forall (eq "..") ds -> Forall properElement ps ->
  Forall (fun e => e <> "" /\ noSlash e) (ds ++ ps).
Proof.
  intros Hds Hps. apply Forall_app. split.
  - eapply Forall_impl; [exact Hds|]. intros x <-. split; [discriminate | reflexivity].
  - eapply Forall_impl; [exact Hps|]. intros x (H1 & _ & _ & H4). now split.
Qed.

Lemma Clean_rooted_form (ps : list string) :
  Forall properElement ps ->
  path.Clean (String slash (path.join ps)) = String slash (path.join ps).
Proof.
  intros Hps. pose proof (elements_noSlash [] ps (Forall_nil_2 _) Hps) as Hel.
  cbn [app] in Hel.
  assert (Hns : Forall noSlash ps).
  { eapply Forall_impl; [exact Hel|]. now intros x [_ H]. }
  unfold path.Clean. cbn [String.eqb path.IsAbs Ascii.eqb]. cbv zeta.
  cbn [path.split]. rewrite Ascii.eqb_refl.
  destruct ps as [|e es]; [reflexivity|].
  rewrite (split_join (e :: es) Hns) by discriminate.
  change (fold_left (path.clean_step true) ("" :: e :: es) [])
    with (fold_left (path.clean_step true) (e :: es) []).
  rewrite (fold_proper true (e :: es) [] Hps), app_nil_r.
  now rewrite rev_involutive.
Qed.

Lemma Clean_relative_form (ds ps : list string) :
  Forall (eq "..") ds -> Forall properElement ps -> ds ++ ps <> [] ->
  path.Clean (path.join (ds ++ ps)) = path.join (ds ++ ps).
Proof.
  intros Hds Hps Hne. pose proof (elements_noSlash ds ps Hds Hps) as Hel.
  assert (Hns : Forall noSlash (ds ++ ps)).
  { eapply Forall_impl; [exact Hel|]. now intros x [_ H]. }
  assert (Hj : path.join (ds ++ ps) <> "").
  { apply join_nonempty; [|exact Hne]. eapply Forall_impl; [exact Hel|]. now intros x [H _]. }
  unfold path.Clean. rewrite (proj2 (String.eqb_neq _ _) Hj), (join_not_abs _ Hel).
  cbv zeta. rewrite (split_join _ Hns Hne).
  rewrite (Clean_of_elements false ds ps); auto; [|discriminate].
  rewrite rev_involutive. now rewrite (proj2 (String.eqb_neq _ _) Hj).
Qed.

(** [path.Clean] is idempotent. *)
Lemma Clean_Clean (p : string) : path.Clean (path.Clean p) = path.Clean p.
Proof.
  destruct (String.eqb_spec p "") as [->|Hp]; [reflexivity|].
  destruct (Clean_elements p Hp) as (ds & ps & E & Hds & Hps & Hr).
  assert (Hc : path.Clean p =
               if path.IsAbs p then String slash (path.join ps)
               else if path.join (ds ++ ps) =? "" then "." else path.join (ds ++ ps)).
  { unfold path.Clean. rewrite (proj2 (String.eqb_neq _ _) Hp). cbv zeta. rewrite E.
    destruct (path.IsAbs p); [|reflexivity]. now rewrite (Hr eq_refl). }
  rewrite Hc. destruct (path.IsAbs p).
  - now apply Clean_rooted_form.
  - destruct (String.eqb_spec (path.join (ds ++ ps)) "") as [_|Hj]; [reflexivity|].
    apply Clean_relative_form; auto. intros E0. now rewrite E0 in Hj.
Qed.

(** ** The configuration *)

Lemma configFile_path {AnyConfig Template : Type} (sys : Full.Sys AnyConfig Template)
    (w w1 : World) (name : string) :
  Full.configFile sys w = (w1, Ret name) -> name = Full.configPath sys.
Proof.
  unfold Full.configFile. intros H.
  destruct (os.Stat (fs w) (Full.configPath sys)) as [n|err]; [congruence|].
  destruct (os.IsNotExist err); [|congruence].
  destruct (os.MkdirAll _ _ _ _) as [fs1 [e1|]]; [discriminate|].
  destruct (os.Create _ _ _) as [fs2 [f|e2]]; [|discriminate].
  destruct (os.Write _ _ _ _) as [fs3 [e3|]]; [discriminate|]. congruence.
Qed.

Lemma ReadFile_world (name : string) (w : World) : fst (Full.ReadFile name w) = w.
Proof. unfold Full.ReadFile. now destruct (os.Open (fs w) name). Qed.

(** what a call of [config] that returns has done, when nothing was cached *)
Lemma config_fresh_inv {AnyConfig Template : Type} (sys : Full.Sys AnyConfig Template)
    (flags : Flags) (p p' : Full.Process AnyConfig Template) (c : Full.Config AnyConfig) :
  Full.cachedConfig p = None ->
  Full.config sys flags p = (p', Ret c) ->
  exists w1 bs exConfig hostName username,
    Full.configFile sys (Full.world p) = (w1, Ret (Full.configPath sys))
    /\ Full.ReadFile (Full.configPath sys) w1 = (w1, Ret (os.OK bs))
    /\ Full.yaml_UnmarshalStrict sys bs = os.OK exConfig
    /\ Full.Hostname sys = os.OK hostName
    /\ Full.user_Current sys = os.OK username
    /\ c = (let host := if negb (String.eqb (hostOverride flags) "")
                         then hostOverride flags else hostName in
            let user := if negb (String.eqb (userOverride flags) "")
                         then userOverride flags else username in
            Full.mkConfig host user (user +:+ "@" +:+ host) exConfig)
    /\ p' = Full.mkProcess w1 (Some c) (Full.t p).
Proof.
  intros Hc. unfold Full.config. rewrite Hc. unfold Full.bindP, Full.liftW.
  destruct (Full.configFile sys (Full.world p)) as [w1 o] eqn:Ef.
  destruct o as [name|msg|msg]; [|discriminate|discriminate].
  pose proof (configFile_path sys _ _ _ Ef) as ->. cbn [Full.world Full.cachedConfig Full.t].
  pose proof (ReadFile_world (Full.configPath sys) w1) as Hw.
  destruct (Full.ReadFile (Full.configPath sys) w1) as [w2 o2] eqn:Er.
  cbn [fst] in Hw. subst w2.
  assert (Ho : exists r, o2 = Ret r).
  { unfold Full.ReadFile in Er. destruct (os.Open (fs w1) (Full.configPath sys));
      inversion Er; eauto. }
  destruct Ho as [r ->]. cbn [Full.world Full.cachedConfig Full.t].
  destruct r as [bs|err]; [|unfold panic; discriminate].
  destruct (Full.yaml_UnmarshalStrict sys bs) as [exConfig|err] eqn:Ey;
    [|unfold log_Fatalf, bind, log_Printf; discriminate].
  destruct (Full.Hostname sys) as [hostName|err] eqn:Eh; [|unfold panic; discriminate].
  destruct (Full.user_Current sys) as [username|err] eqn:Eu; [|unfold panic; discriminate].
  cbn [Full.world Full.cachedConfig Full.t]. intros H.
  exists w1, bs, exConfig, hostName, username.
  repeat split; try reflexivity; now inversion H.
Qed.

Lemma config_sets_cache {AnyConfig Template : Type} (sys : Full.Sys AnyConfig Template)
    (flags : Flags) (p p' : Full.Process AnyConfig Template) (c : Full.Config AnyConfig) :
  Full.config sys flags p = (p', Ret c) -> Full.cachedConfig p' = Some c.
Proof.
  intros H. destruct (Full.cachedConfig p) as [c0|] eqn:Hc.
  - unfold Full.config in H. rewrite Hc in H. inversion H; subst. exact Hc.
  - destruct (config_fresh_inv sys flags p p' c Hc H)
      as (w1 & bs & ex & h & u & _ & _ & _ & _ & _ & _ & ->). reflexivity.
Qed.

(** X15.  The configuration is computed once: after a call of [config] that
    returned, every later call returns the same configuration and leaves the
    process as it is, whatever has become of the configuration file, the
    environment, the host name, the user and the override flags. *)
Theorem config_computed_once {AnyConfig Template : Type}
    (sys sys' : Full.Sys AnyConfig Template) (flags flags' : Flags)
    (p p' q : Full.Process AnyConfig Template) (c : Full.Config AnyConfig) :
  Full.config sys flags p = (p', Ret c) ->
  Full.cachedConfig q = Full.cachedConfig p' ->
  Full.config sys' flags' q = (q, Ret c).
Proof.
  intros H Hq. rewrite (config_sets_cache sys flags p p' c H) in Hq.
  unfold Full.config. now rewrite Hq.
Qed.

Lemma config_computed_once_witness :
  let c := Full.mkConfig "box" "bob" "bob@box" tt in
  let q := Full.mkProcess world0 (Some c) "x" in
  Full.config sys0 flags0 (process0 fsConfigured)
  = (Full.mkProcess (Full.world (process0 fsConfigured)) (Some c) "", Ret c)
  /\ Full.config (Full.mkSys (fun _ => "") (os.Err (os.errorString "no host name"))
                    (os.OK "eve") (fun _ => os.OK tt) (fun _ text => (text, None))
                    (fun _ _ => ([], None)))
       (mkFlags true true false false false "" "" "" "" "h" "u") q
     = (q, Ret c).
Proof.
  intros c q.
  assert (H : Full.config sys0 flags0 (process0 fsConfigured)
              = (Full.mkProcess (Full.world (process0 fsConfigured)) (Some c) "", Ret c)).
  { vm_compute. reflexivity. }
  split; [exact H|].
  exact (config_computed_once sys0 _ flags0 _ _ _ q c H eq_refl).
Defined.

(** X16.  A configuration that [config] has just computed: the user and the
    host are the override flags where these are not empty, and the name of
    the current user and the host name of the system otherwise; [UserHost]
    is the user, an [@] and the host; the values are what the strict parser
    made of the bytes of the configuration file. *)
Theorem config_fresh_values {AnyConfig Template : Type}
    (sys : Full.Sys AnyConfig Template) (flags : Flags)
    (p p' : Full.Process AnyConfig Template) (c : Full.Config AnyConfig) :
  Full.cachedConfig p = None ->
  Full.config sys flags p = (p', Ret c) ->
  Full.UserHost c = Full.User c +:+ "@" +:+ Full.Host c
  /\ (hostOverride flags <> "" -> Full.Host c = hostOverride flags)
  /\ (hostOverride flags = "" -> Full.Hostname sys = os.OK (Full.Host c))
  /\ (userOverride flags <> "" -> Full.User c = userOverride flags)
  /\ (userOverride flags = "" -> Full.user_Current sys = os.OK (Full.User c))
  /\ exists bs,
       Full.ReadFile (Full.configPath sys) (Full.world p') = (Full.world p', Ret (os.OK bs))
       /\ Full.yaml_UnmarshalStrict sys bs = os.OK (Full.Values c).
Proof.
  intros Hc H.
  destruct (config_fresh_inv sys flags p p' c Hc H)
    as (w1 & bs & ex & h & u & _ & Hr & Hy & Hh & Hu & -> & ->).
  cbn [Full.UserHost Full.User Full.Host Full.Values Full.world].
  split; [reflexivity|].
  destruct (String.eqb_spec (hostOverride flags) "") as [E1|E1];
    destruct (String.eqb_spec (userOverride flags) "") as [E2|E2]; cbn [negb];
    repeat split; try congruence; now exists bs.
Qed.

Lemma config_fresh_values_witness :
  let flags := mkFlags true true false false false "" "" "" "" "" "alice" in
  let c := Full.mkConfig "box" "alice" "alice@box" tt in
  Full.config sys0 flags (process0 fsConfigured)
  = (Full.mkProcess (Full.world (process0 fsConfigured)) (Some c) "", Ret c)
  /\ Full.UserHost c = Full.User c +:+ "@" +:+ Full.Host c
  /\ (userOverride flags <> "" -> Full.User c = "alice")
  /\ (hostOverride flags = "" -> Full.Hostname sys0 = os.OK (Full.Host c)).
Proof.
  intros flags c.
  assert (H : Full.config sys0 flags (process0 fsConfigured)
              = (Full.mkProcess (Full.world (process0 fsConfigured)) (Some c) "", Ret c)).
  { vm_compute. reflexivity. }
  split; [exact H|].
  destruct (config_fresh_values sys0 flags (process0 fsConfigured) _ c eq_refl H)
    as (HUH & _ & Hh & Hu & _).
  repeat split; assumption.
Defined.

(** X17.  The override flags do not spare the look-ups: when the host name or
    the current user cannot be had, a call of [config] with nothing cached
    does not return, also with [-host] and [-user] given. *)
Theorem config_needs_host_and_user {AnyConfig Template : Type}
    (sys : Full.Sys AnyConfig Template) (flags : Flags)
    (p : Full.Process AnyConfig Template) (err : os.error) :
  Full.cachedConfig p = None ->
  Full.Hostname sys = os.Err err \/ Full.user_Current sys = os.Err err ->
  forall c, snd (Full.config sys flags p) <> Ret c.
Proof.
  intros Hc Herr c Hret.
  destruct (Full.config sys flags p) as [p' o] eqn:E. cbn [snd] in Hret. subst o.
  destruct (config_fresh_inv sys flags p p' c Hc E)
    as (w1 & bs & ex & h & u & _ & _ & _ & Hh & Hu & _).
  destruct Herr; congruence.
Qed.

Lemma config_needs_host_and_user_witness :
  snd (Full.config (Full.mkSys (Full.Getenv sys0) (os.Err (os.errorString "no host name"))
                      (os.OK "bob") (fun _ => os.OK tt) (Full.template_Parse sys0)
                      (Full.template_ExecuteWith sys0))
         (mkFlags true true false false false "" "" "" "" "box" "bob")
         (process0 fsConfigured))
  <> Ret (Full.mkConfig "box" "bob" "bob@box" tt).
Proof.
  apply (config_needs_host_and_user _ _ _ (os.errorString "no host name"));
    [reflexivity | left; reflexivity].
Defined.

Lemma Stat_not_directory_target (fs : gmap string os.Node) (name : string)
    (err : os.error) :
  os.Stat fs name = os.Err err -> os.IsNotExist err = true ->
  os.walk fs (os.ancestors (os.key name)) = Some os.ENOENT
  \/ (os.walk fs (os.ancestors (os.key name)) = None /\ fs !! os.key name = None).
Proof.
  unfold os.Stat, os.lookup.
  destruct (os.walk fs (os.ancestors (os.key name))) as [e|] eqn:Ew.
  - intros H Hn. inversion H; subst. destruct e; try discriminate. now left.
  - destruct (fs !! os.key name) eqn:Ek; [discriminate|]. intros _ _. now right.
Qed.

(** X18.  The first run: when [os.Stat] reports that the configuration file
    does not exist and [configFile] returns, the file is there and holds
    exactly the default configuration; a call of [config] that returns then
    has parsed these bytes. *)
Theorem configFile_first_run {AnyConfig Template : Type}
    (sys : Full.Sys AnyConfig Template) (flags : Flags)
    (p p' : Full.Process AnyConfig Template) (c : Full.Config AnyConfig) (err : os.error) :
  Full.cachedConfig p = None ->
  os.Stat (fs (Full.world p)) (Full.configPath sys) = os.Err err ->
  os.IsNotExist err = true ->
  Full.config sys flags p = (p', Ret c) ->
  (exists perm, fs (Full.world p') !! os.key (Full.configPath sys)
                = Some (os.File perm Full.defaultConfig))
  /\ Full.yaml_UnmarshalStrict sys Full.defaultConfig = os.OK (Full.Values c).
Proof.
  intros Hc Hs Hn H.
  destruct (config_fresh_inv sys flags p p' c Hc H)
    as (w1 & bs & ex & h & u & Hf & Hr & Hy & _ & _ & -> & ->).
  cbn [Full.world Full.Values].
  unfold Full.configFile in Hf. rewrite Hs, Hn in Hf.
  destruct (os.MkdirAll _ _ _ _) as [fs1 [e1|]]; [discriminate|].
  unfold os.Create in Hf.
  destruct (os.walk fs1 (os.ancestors (os.key (Full.configPath sys)))) as [e|];
    [discriminate|].
  assert (Hfile : exists perm, fs w1 !! os.key (Full.configPath sys)
                               = Some (os.File perm Full.defaultConfig)).
  { destruct (fs1 !! os.key (Full.configPath sys)) as [[perm0 d0|perm0]|] eqn:Ek.
    - destruct (os.readable perm0 && os.writable perm0); [|discriminate].
      unfold os.Write in Hf. rewrite lookup_insert_eq in Hf.
      destruct (full (Full.world p)); [discriminate|].
      inversion Hf; subst. cbn [fs set_fs]. rewrite lookup_insert_eq. now exists perm0.
    - discriminate.
    - unfold os.Write in Hf. rewrite lookup_insert_eq in Hf.
      destruct (full (Full.world p)); [discriminate|].
      inversion Hf; subst. cbn [fs set_fs]. rewrite lookup_insert_eq. eauto. }
  split; [exact Hfile|]. destruct Hfile as [perm Hk].
  unfold Full.ReadFile, os.Open, os.lookup in Hr.
  destruct (os.walk (fs w1) _) as [e|]; [inversion Hr|].
  rewrite Hk in Hr.
  destruct (os.readable perm); [|inversion Hr].
  unfold os.ReadAll in Hr. rewrite Hk in Hr. inversion Hr; subst. exact Hy.
Qed.

Lemma configFile_first_run_witness :
  let c := Full.mkConfig "box" "bob" "bob@box" tt in
  let fs' := <["/home" := os.Directory 493]> (<["/home/u" := os.Directory 493]>
    (<["/home/u/.config" := os.Directory 493]>
    (<["/home/u/.config/templater" := os.Directory 493]>
    (<["/home/u/.config/templater/config" := os.File 420 Full.defaultConfig]> fsTree)))) in
  Full.config sys0 flags0 (process0 fsTree)
  = (Full.mkProcess (mkWorld fs' 18 false [] [] []) (Some c) "", Ret c)
  /\ (exists perm, fs' !! "/home/u/.config/templater/config"
                   = Some (os.File perm Full.defaultConfig))
  /\ Full.yaml_UnmarshalStrict sys0 Full.defaultConfig = os.OK tt.
Proof.
  intros c fs'.
  assert (H : Full.config sys0 flags0 (process0 fsTree)
              = (Full.mkProcess (mkWorld fs' 18 false [] [] []) (Some c) "", Ret c)).
  { vm_compute. reflexivity. }
  split; [exact H|].
  assert (Hs : os.Stat fsTree (Full.configPath sys0)
               = os.Err (os.PathError "stat" "/home/u/.config/templater/config" os.ENOENT)).
  { vm_compute. reflexivity. }
  exact (configFile_first_run sys0 flags0 (process0 fsTree) _ c _ eq_refl Hs eq_refl H).
Defined.

(** ** What a dry run leaves alone *)

Section KeepsFiles.

Context {AnyConfig Template : Type} (sys : Full.Sys AnyConfig Template).

Lemma keeps_files_same {A : Type} (m : Full.P AnyConfig Template A) :
  (forall p, fs (Full.world (fst (m p))) = fs (Full.world p)) -> keeps_files sys m.
Proof. intros H p. rewrite H. split; auto. Qed.

Lemma keeps_files_ret {A : Type} (a : A) : keeps_files sys (Full.retP a).
Proof. now apply keeps_files_same. Qed.

Lemma keeps_files_liftW {A : Type} (m : M A) : keeps_fs m -> keeps_files sys (Full.liftW m).
Proof.
  intros H. apply keeps_files_same. intros p. unfold Full.liftW.
  specialize (H (Full.world p)). now destruct (m (Full.world p)).
Qed.

Lemma keeps_files_bind {A B : Type} (m : Full.P AnyConfig Template A)
    (k : A -> Full.P AnyConfig Template B) :
  keeps_files sys m -> (forall a, keeps_files sys (k a)) -> keeps_files sys (Full.bindP m k).
Proof.
  intros Hm Hk p. unfold Full.bindP. destruct (Hm p) as [H1 H2].
  destruct (m p) as [p1 [a|msg|msg]]; cbn [fst] in *; try (split; assumption).
  destruct (Hk a p1) as [H3 H4]. split.
  - intros k0 n Hne Hl. apply H3; auto.
  - intros Hs. rewrite H4; [exact (H2 Hs) | rewrite (H2 Hs); exact Hs].
Qed.

Lemma mkdirs_keeps (umask perm : N) (dirs : list string) :
  forall (fs : gmap string os.Node) (k : string) (n : os.Node),
    fs !! k = Some n -> fst (os.mkdirs umask fs dirs perm) !! k = Some n.
Proof.
  induction dirs as [|d rest IH]; intros fs k n H; simpl; [exact H|].
  destruct (fs !! d) as [[?|?]|] eqn:Ed; [exact H | now apply IH |].
  unfold os.Mkdir. rewrite Ed. apply IH. rewrite lookup_insert_ne; [exact H|].
  intros ->. congruence.
Qed.

Lemma configFile_keeps (w : World) :
  (forall k n, k <> os.key (Full.configPath sys) -> fs w !! k = Some n ->
               fs (fst (Full.configFile sys w)) !! k = Some n)
  /\ (configSettled sys (fs w) -> fst (Full.configFile sys w) = w).
Proof.
  unfold Full.configFile.
  destruct (os.Stat (fs w) (Full.configPath sys)) as [n0|err] eqn:Es; [now split|].
  destruct (os.IsNotExist err) eqn:En; [|now split].
  split; [|intros Hs; specialize (Hs err Es); congruence].
  intros k n Hne Hk.
  pose proof (mkdirs_keeps (umask w) os.ModePerm
                (os.ancestors (os.key (path.Dir (Full.configPath sys)))
                 ++ [os.key (path.Dir (Full.configPath sys))]) (fs w) k n Hk) as Hm.
  unfold os.MkdirAll.
  destruct (os.mkdirs _ _ _ _) as [fs1 [e1|]]; cbn [fst] in Hm; [exact Hm|].
  unfold os.Create.
  destruct (os.walk fs1 _) as [e|]; [exact Hm|].
  assert (Hw : forall fs2, fs2 !! k = Some n ->
     fs (fst (let (fs3, e3) := os.Write (full w) fs2 (os.key (Full.configPath sys))
                                 Full.defaultConfig in
              match e3 with
              | Some err0 => (set_fs w fs3, Panic (os.Error err0))
              | None => (set_fs w fs3, Ret (Full.configPath sys))
              end)) !! k = Some n).
  { intros fs2 H2. unfold os.Write.
    destruct (fs2 !! os.key (Full.configPath sys)) as [[perm old|perm]|]; [|exact H2..].
    destruct (full w); [exact H2|]. cbn. now rewrite lookup_insert_ne by congruence. }
  destruct (fs1 !! os.key (Full.configPath sys)) as [[perm0 d0|perm0]|].
  - destruct (os.readable perm0 && os.writable perm0); [|exact Hm].
    apply Hw. now rewrite lookup_insert_ne by congruence.
  - exact Hm.
  - apply Hw. now rewrite lookup_insert_ne by congruence.
Qed.

Lemma config_fs (flags : Flags) (p : Full.Process AnyConfig Template) :
  Full.cachedConfig p = None ->
  fs (Full.world (fst (Full.config sys flags p)))
  = fs (fst (Full.configFile sys (Full.world p))).
Proof.
  intros Hc. unfold Full.config. rewrite Hc. unfold Full.bindP, Full.liftW.
  destruct (Full.configFile sys (Full.world p)) as [w1 [name|msg|msg]];
    cbn [fst Full.world Full.cachedConfig Full.t]; try reflexivity.
  pose proof (ReadFile_world name w1) as Hw.
  destruct (Full.ReadFile name w1) as [w2 o2]. cbn [fst] in Hw. subst w2.
  destruct o2 as [[bs|e]|msg|msg]; cbn [fst Full.world Full.cachedConfig Full.t];
    try reflexivity.
  destruct (Full.yaml_UnmarshalStrict sys bs); [|reflexivity].
  destruct (Full.Hostname sys); [|reflexivity].
  destruct (Full.user_Current sys); reflexivity.
Qed.

Lemma keeps_files_config (flags : Flags) : keeps_files sys (Full.config sys flags).
Proof.
  intros p. destruct (Full.cachedConfig p) as [c|] eqn:Hc.
  - unfold Full.config. rewrite Hc. now split.
  - rewrite (config_fs flags p Hc).
    destruct (configFile_keeps (Full.world p)) as [H1 H2].
    split; [exact H1 | intros Hs; now rewrite (H2 Hs)].
Qed.

Lemma keeps_files_render (flags : Flags) (r : Reader) :
  keeps_files sys (Full.render sys flags r).
Proof.
  unfold Full.render. apply keeps_files_bind.
  - apply keeps_files_liftW. intros w. now destruct r.
  - intros [bs|e]; [|apply keeps_files_ret]. intros p.
    destruct (Full.template_Parse sys (Full.t p) bs) as [templ [e|]]; [now split|].
    exact (keeps_files_bind _ _ (keeps_files_config flags)
             (fun c => keeps_files_ret _)
             (Full.mkProcess (Full.world p) (Full.cachedConfig p) templ)).
Qed.

Lemma keeps_files_executeTemplate (flags : Flags) (r : Reader) (b : bytes.Buffer) :
  keeps_files sys (Full.executeTemplate sys flags r b).
Proof.
  unfold Full.executeTemplate.
  apply keeps_files_bind; [apply keeps_files_render | intros; apply keeps_files_ret].
Qed.

Lemma keeps_files_scan_classify (env : Env) (flags : Flags)
    (scannedPath outputPath : string) (r : Reader) :
  keeps_files sys (Full.scan_classify sys env flags scannedPath outputPath r).
Proof.
  unfold Full.scan_classify.
  apply keeps_files_bind; [apply keeps_files_executeTemplate|].
  intros [b [e|]].
  - apply keeps_files_bind; [apply keeps_files_liftW, keeps_fs_lift|]. intros np.
    apply keeps_files_bind; [apply keeps_files_liftW, keeps_fs_log|].
    intros; apply keeps_files_ret.
  - apply keeps_files_bind; [apply keeps_files_liftW, keeps_fs_getExisting|]. intros [ex|e].
    + destruct (negb _); apply keeps_files_ret.
    + apply keeps_files_bind; [|intros; apply keeps_files_ret].
      destruct (negb _); [apply keeps_files_liftW, keeps_fs_log | apply keeps_files_ret].
Qed.

Lemma keeps_files_bind_result {A B : Type} (m : Full.P AnyConfig Template A)
    (k : A -> Full.P AnyConfig Template B) (Q : A -> Prop) :
  keeps_files sys m -> (forall p a, snd (m p) = Ret a -> Q a) ->
  (forall a, Q a -> keeps_files sys (k a)) -> keeps_files sys (Full.bindP m k).
Proof.
  intros Hm HQ Hk p. unfold Full.bindP. destruct (Hm p) as [H1 H2].
  specialize (HQ p).
  destruct (m p) as [p1 [a|msg|msg]]; cbn [fst snd] in *; try (split; assumption).
  destruct (Hk a (HQ a eq_refl) p1) as [H3 H4]. split.
  - intros k0 n Hne Hl. apply H3; auto.
  - intros Hs. rewrite H4; [exact (H2 Hs) | rewrite (H2 Hs); exact Hs].
Qed.

Lemma liftW_lift_result {A : Type} (o : outcome A) (p : Full.Process AnyConfig Template)
    (a : A) :
  snd (Full.liftW (lift o) p) = Ret a -> o = Ret a.
Proof. unfold Full.liftW. now destruct o. Qed.

Lemma keeps_files_scan_walkFn (env : Env) (flags : Flags) (p : string)
    (info : option FileInfo) (err : option os.error) :
  dryRun flags = true -> readOnly flags = false ->
  keeps_files sys (Full.scan_walkFn sys env flags p info err).
Proof.
  intros Hd Hr. unfold Full.scan_walkFn.
  destruct info as [info|]; [|apply keeps_files_liftW; now intros w].
  destruct (_ && String.eqb _ ".templater"); [apply keeps_files_ret|].
  destruct (_ && regexp.MatchString _ _); [|apply keeps_files_ret].
  destruct (path.IsAbs p) eqn:Habs; cbn [negb]; [|apply keeps_files_liftW; now intros w].
  apply (keeps_files_bind_result _ _ (fun o => o <> "")).
  - apply keeps_files_liftW, keeps_fs_lift.
  - intros proc o Ho. apply liftW_lift_result in Ho.
    apply (convertOutputPath_nonempty env flags p); [|exact Ho]. intros ->. discriminate.
  - intros outputPath Hne.
    apply keeps_files_bind; [apply keeps_files_liftW, keeps_fs_inputReader|]. intros [r|e].
    + apply keeps_files_bind; [apply keeps_files_scan_classify|]. intros [mode b].
      apply keeps_files_bind.
      * apply keeps_files_liftW. intros w1. now rewrite scan_write_dry_run.
      * intros [mode'|]; [|apply keeps_files_ret].
        apply keeps_files_bind; [apply keeps_files_liftW, keeps_fs_scan_report|].
        intros; apply keeps_files_ret.
    + apply keeps_files_bind; [apply keeps_files_liftW, keeps_fs_lift|]. intros np.
      apply keeps_files_bind; [apply keeps_files_liftW, keeps_fs_log|].
      intros; apply keeps_files_ret.
Qed.

Lemma keeps_files_walk
    (walkFn : string -> option FileInfo -> option os.error -> Full.P AnyConfig Template WalkErr) :
  (forall p info err, keeps_files sys (walkFn p info err)) ->
  forall fuel p info, keeps_files sys (Full.walk fuel walkFn p info).
Proof.
  intros Hf. induction fuel as [|fuel IH]; intros p info.
  - cbn [Full.walk]. destruct (negb (IsDir info)); [apply Hf|].
    intros proc. cbv zeta.
    apply (keeps_files_bind _ _ (Hf _ _ _)). intros [|]; apply keeps_files_ret.
  - cbn [Full.walk]. destruct (negb (IsDir info)); [apply Hf|].
    intros proc. cbv zeta.
    apply (keeps_files_bind _ _ (Hf _ _ _)). intros [|]; [|apply keeps_files_ret].
    generalize (Full.readDirNames (fs (Full.world proc)) p). clear proc.
    intros names. induction names as [|name rest IHn]; [apply keeps_files_ret|].
    intros proc'.
    destruct (Full.lstat (fs (Full.world proc')) (filepath.Join p name)) as [fileInfo|e].
    + apply (keeps_files_bind _ _ (IH _ _)).
      intros [|]; [exact IHn | destruct (IsDir fileInfo); [exact IHn | apply keeps_files_ret]].
    + apply (keeps_files_bind _ _ (Hf _ _ _)). intros _. exact IHn.
Qed.

Lemma keeps_files_scan (env : Env) (flags : Flags) (fuel : nat) :
  dryRun flags = true -> readOnly flags = false ->
  keeps_files sys (Full.scan sys env flags fuel).
Proof.
  intros Hd Hr. unfold Full.scan.
  destruct (Getwd env) as [cwd|e]; [|apply keeps_files_liftW; now intros w].
  unfold Full.filepath_Walk. intros proc.
  destruct (Full.lstat (fs (Full.world proc)) cwd) as [info|e].
  - apply (keeps_files_bind _ _ (keeps_files_walk _
             (fun p info err => keeps_files_scan_walkFn env flags p info err Hd Hr) fuel cwd info)).
    intros; apply keeps_files_ret.
  - apply (keeps_files_bind _ _ (keeps_files_scan_walkFn env flags _ _ _ Hd Hr)).
    intros; apply keeps_files_ret.
Qed.

End KeepsFiles.

(** X19.  A dry run of a scan without the read-only option keeps every entry
    of the file system as it is, the configuration file apart, which the
    first rendering makes when it is missing; where the configuration file
    is there (or [os.Stat] fails on it for another reason than its absence),
    the file system after the scan is the one before it. *)
Theorem scan_dry_run {AnyConfig Template : Type}
    (sys : Full.Sys AnyConfig Template) (env : Env) (flags : Flags) (fuel : nat)
    (p : Full.Process AnyConfig Template) :
  dryRun flags = true ->
  readOnly flags = false ->
  (forall k n, k <> os.key (Full.configPath sys) ->
               fs (Full.world p) !! k = Some n ->
               fs (Full.world (fst (Full.scan sys env flags fuel p))) !! k = Some n)
  /\ (configSettled sys (fs (Full.world p)) ->
      fs (Full.world (fst (Full.scan sys env flags fuel p))) = fs (Full.world p)).
Proof. intros Hd Hr. exact (keeps_files_scan sys env flags fuel Hd Hr p). Qed.

Lemma scan_dry_run_witness :
  fs (Full.world (fst (Full.scan sys0 env0 dryRunFlags 10 (process0 fsTree)))) !! "/w/a.tmpl"
  = Some (os.File 420 "Hello ")
  /\ fs (Full.world (fst (Full.scan sys0 env0 dryRunFlags 10 (process0 fsConfigured))))
     = fsConfigured.
Proof.
  split.
  - apply (proj1 (scan_dry_run sys0 env0 dryRunFlags 10 (process0 fsTree) eq_refl eq_refl));
      [vm_compute; discriminate | vm_compute; reflexivity].
  - apply (proj2 (scan_dry_run sys0 env0 dryRunFlags 10 (process0 fsConfigured)
                    eq_refl eq_refl)).
    intros err H. vm_compute in H. discriminate.
Defined.

(** ** A tree without templates *)

Section Idle.

Context {AnyConfig Template : Type} (sys : Full.Sys AnyConfig Template).
Variable fs0 : gmap string os.Node.

Lemma idle_ret {A : Type} (a : A) : idle (AnyConfig:=AnyConfig) (Template:=Template) fs0 (Full.retP a).
Proof. now intros p _. Qed.

Lemma idle_bind {A B : Type} (m : Full.P AnyConfig Template A)
    (k : A -> Full.P AnyConfig Template B) :
  idle fs0 m -> (forall a, idle fs0 (k a)) -> idle fs0 (Full.bindP m k).
Proof.
  intros Hm Hk p Hp. unfold Full.bindP. destruct (Hm p Hp) as (H1 & H2 & H3).
  destruct (m p) as [p1 [a|msg|msg]]; cbn [fst] in *; try (repeat split; assumption).
  destruct (Hk a p1) as (H4 & H5 & H6); [now rewrite H1|].
  repeat split; congruence.
Qed.

Lemma Base_Join_Clean (a b : string) :
  path.Base (path.Clean (path.Join a b)) = path.Base (path.Join a b).
Proof.
  unfold path.Join.
  destruct (String.eqb a ""); [destruct (String.eqb b ""); [reflexivity|] |];
    now rewrite Clean_Clean.
Qed.

Lemma lstat_Name (name : string) (info : FileInfo) :
  Full.lstat fs0 name = os.OK info ->
  Name info = path.Base name /\ is_Some (fs0 !! os.key name).
Proof.
  unfold Full.lstat, os.Stat, os.lookup.
  destruct (os.walk fs0 _); [discriminate|].
  destruct (fs0 !! os.key name) as [[perm d|perm]|]; [| |discriminate];
    intros H; inversion H; split; eauto.
Qed.

Lemma scan_walkFn_idle (env : Env) (flags : Flags) (p : string) (info : option FileInfo)
    (err : option os.error) :
  (forall i, info = Some i -> regexp.MatchString templRegEx (Name i) = false) ->
  idle fs0 (Full.scan_walkFn sys env flags p info err).
Proof.
  intros H proc _. unfold Full.scan_walkFn. destruct info as [i|]; [|now repeat split].
  rewrite (H i eq_refl), andb_false_r. now destruct (_ && _).
Qed.

Hypothesis Hfs : noTemplates fs0.

Lemma lstat_no_template (name : string) (info : FileInfo) :
  path.Base (os.key name) = path.Base name ->
  Full.lstat fs0 name = os.OK info ->
  regexp.MatchString templRegEx (Name info) = false.
Proof.
  intros Hb Hl. destruct (lstat_Name name info Hl) as [-> [n Hn]].
  rewrite <- Hb. exact (Hfs _ _ Hn).
Qed.

Lemma walk_idle (env : Env) (flags : Flags) :
  forall fuel p info,
    regexp.MatchString templRegEx (Name info) = false ->
    idle fs0 (Full.walk fuel (Full.scan_walkFn sys env flags) p info).
Proof.
  assert (Hf : forall p info,
             regexp.MatchString templRegEx (Name info) = false ->
             idle fs0 (Full.scan_walkFn sys env flags p (Some info) None)).
  { intros p info H. apply scan_walkFn_idle. now intros i [= <-]. }
  induction fuel as [|fuel IH]; intros p info Hn.
  - cbn [Full.walk]. destruct (negb (IsDir info)); [now apply Hf|].
    intros proc Hp. cbv zeta. revert Hp.
    apply (idle_bind _ _ (Hf _ _ Hn)). intros [|]; apply idle_ret.
  - cbn [Full.walk]. destruct (negb (IsDir info)); [now apply Hf|].
    intros proc Hp. cbv zeta. revert Hp.
    apply (idle_bind _ _ (Hf _ _ Hn)). intros [|]; [|apply idle_ret].
    generalize (Full.readDirNames (fs (Full.world proc)) p). clear proc.
    intros names. induction names as [|name rest IHn]; [apply idle_ret|].
    intros proc' Hp'. rewrite Hp'.
    destruct (Full.lstat fs0 (filepath.Join p name)) as [fileInfo|e] eqn:El; revert Hp'.
    + apply (idle_bind _ _ (IH _ _ (lstat_no_template _ _ (Base_Join_Clean p name) El))).
      intros [|]; [exact IHn | destruct (IsDir fileInfo); [exact IHn | apply idle_ret]].
    + apply idle_bind; [|intros _; exact IHn].
      apply scan_walkFn_idle. discriminate.
Qed.

End Idle.

(** X20.  A scan of a tree in which no name matches the pattern does nothing:
    nothing is printed, logged, read or written, no template is parsed and
    the configuration is not loaded. *)
Theorem scan_without_templates {AnyConfig Template : Type}
    (sys : Full.Sys AnyConfig Template) (env : Env) (flags : Flags) (fuel : nat)
    (p : Full.Process AnyConfig Template) (cwd : string) :
  Getwd env = os.OK cwd ->
  path.Clean cwd = cwd ->
  noTemplates (fs (Full.world p)) ->
  Full.world (fst (Full.scan sys env flags fuel p)) = Full.world p
  /\ Full.cachedConfig (fst (Full.scan sys env flags fuel p)) = Full.cachedConfig p
  /\ Full.t (fst (Full.scan sys env flags fuel p)) = Full.t p.
Proof.
  intros Hwd Hc Hfs. unfold Full.scan. rewrite Hwd. unfold Full.filepath_Walk.
  destruct (Full.lstat (fs (Full.world p)) cwd) as [info|e] eqn:El.
  - assert (Hn : regexp.MatchString templRegEx (Name info) = false).
    { apply (lstat_no_template (fs (Full.world p)) Hfs cwd); [|exact El].
      unfold os.key. now rewrite Hc. }
    exact (idle_bind _ _ _ (walk_idle sys _ Hfs env flags fuel cwd info Hn)
             (fun _ => idle_ret _ tt) p eq_refl).
  - refine (idle_bind (fs (Full.world p)) _ _ _ (fun _ => idle_ret _ tt) p eq_refl).
    apply scan_walkFn_idle. discriminate.
Qed.

Lemma scan_without_templates_witness :
  Full.world (fst (Full.scan sys0 env0 flags0 10 (process0 fsPlain)))
  = Full.world (process0 fsPlain).
Proof.
  apply (scan_without_templates sys0 env0 flags0 10 (process0 fsPlain) "/w").
  - reflexivity.
  - reflexivity.
  - apply (bool_decide_unpack _). vm_compute. reflexivity.
Defined.

(** ** The shape of the output path *)

Lemma Join_is_Clean (a b : string) :
  path.Join a b <> "" -> exists x, path.Join a b = path.Clean x.
Proof.
  unfold path.Join. destruct (String.eqb a ""); [destruct (String.eqb b "")|]; eauto.
  congruence.
Qed.

Lemma convertOutputPath_is_Join (env : Env) (flags : Flags) (p out : string) :
  p <> "" -> convertOutputPath env flags p = Ret out -> exists a b, out = path.Join a b.
Proof.
  intros Hp. unfold convertOutputPath, convertInputPath.
  rewrite (eqb_nonempty p Hp). cbn.
  destruct (origParentAbs env flags) as [o|?|?]; cbn; try discriminate.
  destruct (newParentAbs env flags) as [n|?|?]; cbn; try discriminate.
  destruct (convertOutputDir o n _) as [d|?|?]; cbn; try discriminate.
  intros [= <-]. eauto.
Qed.

Lemma Clean_rooted_elements (x : string) :
  path.IsAbs (path.Clean x) = true ->
  exists ps, Forall properElement ps /\ path.Clean x = String slash (path.join ps).
Proof.
  destruct (String.eqb_spec x "") as [->|Hx]; [discriminate|].
  destruct (Clean_elements x Hx) as (ds & ps & E & Hds & Hps & Hr).
  unfold path.Clean. rewrite (proj2 (String.eqb_neq _ _) Hx). cbv zeta. rewrite E.
  destruct (path.IsAbs x).
  - rewrite (Hr eq_refl). intros _. now exists ps.
  - pose proof (join_not_abs _ (elements_noSlash ds ps Hds Hps)) as Hj.
    destruct (String.eqb _ ""); [discriminate | congruence].
Qed.

Lemma rooted_split (ps : list string) (e : string) :
  Forall properElement ps -> In e (path.split (String slash (path.join ps))) ->
  e <> "." /\ e <> "..".
Proof.
  intros Hps. cbn [path.split]. rewrite Ascii.eqb_refl.
  destruct ps as [|q qs].
  - cbn. intros [<-|[<-|[]]]; split; discriminate.
  - rewrite split_join; [|eapply Forall_impl; [exact Hps|]; now intros x (_ & _ & _ & H)
                          |discriminate].
    intros [<-|Hin]; [split; discriminate|].
    destruct (proj1 (List.Forall_forall _ _) Hps e Hin) as (_ & H2 & H3 & _). now split.
Qed.

(** X21.  The output path of a template is a cleaned path: cleaning it again
    changes nothing, and when it is absolute none of its elements is [.] or
    [..], so that it names a place below the root without going up. *)
Theorem convertOutputPath_cleaned (env : Env) (flags : Flags) (scannedPath out : string) :
  scannedPath <> "" ->
  convertOutputPath env flags scannedPath = Ret out ->
  path.Clean out = out
  /\ (path.IsAbs out = true ->
      forall e, In e (path.split out) -> e <> "." /\ e <> "..").
Proof.
  intros Hp Hout.
  pose proof (convertOutputPath_nonempty env flags scannedPath out Hp Hout) as Hne.
  destruct (convertOutputPath_is_Join env flags scannedPath out Hp Hout) as (a & b & ->).
  destruct (Join_is_Clean a b Hne) as [x ->].
  split; [apply Clean_Clean|].
  intros Habs e Hin. destruct (Clean_rooted_elements x Habs) as (ps & Hps & E).
  rewrite E in Hin. exact (rooted_split ps e Hps Hin).
Qed.

Lemma convertOutputPath_cleaned_witness :
  convertOutputPath env0 (prefixFlags "/w" "/dst/../out/./") "/w/sub//a.tmpl" = Ret "/out/sub/a"
  /\ path.Clean "/out/sub/a" = "/out/sub/a".
Proof.
  assert (H : convertOutputPath env0 (prefixFlags "/w" "/dst/../out/./") "/w/sub//a.tmpl"
              = Ret "/out/sub/a").
  { vm_compute. reflexivity. }
  split; [exact H|].
  apply (convertOutputPath_cleaned env0 (prefixFlags "/w" "/dst/../out/./")
           "/w/sub//a.tmpl" "/out/sub/a"); [discriminate | exact H].
Defined.

(** ** The decision of the whole process *)

Lemma scan_classify_result {AnyConfig Template : Type}
    (sys : Full.Sys AnyConfig Template) (env : Env) (flags : Flags)
    (scannedPath outputPath np : string) (r : Reader)
    (p p1 : Full.Process AnyConfig Template)
    (chunks : list string) (err : option os.error) :
  Full.render sys flags r p = (p1, Ret (chunks, err)) ->
  nicePath env scannedPath = Ret np ->
  outputPath <> "" ->
  Full.scan_classify sys env flags scannedPath outputPath r p
  = (Full.mkProcess (classified np outputPath err (Full.world p1))
       (Full.cachedConfig p1) (Full.t p1),
     Ret (decision err (rendered chunks) (contents (fs (Full.world p1)) outputPath),
          fold_left bytes.Write chunks bytes.new)).
Proof.
  intros Hr Hn Hne.
  unfold Full.scan_classify, Full.executeTemplate, Full.bindP at 1 2. rewrite Hr.
  cbn [Full.retP fst snd]. unfold classified. destruct err as [e|].
  - unfold Full.bindP, Full.liftW. rewrite Hn. now cbn.
  - unfold Full.bindP at 1, Full.liftW at 1, getExistingOutputFileContents, contents.
    rewrite (eqb_nonempty _ Hne).
    destruct (os.Open (fs (Full.world p1)) outputPath) as [file|e]; cbn [decision].
    + destruct (os.ReadAll (fs (Full.world p1)) file) as [d|e].
      * rewrite DeepEqual_rendered.
        now destruct (String.eqb (rendered chunks) d && negb (String.eqb d "")).
      * now destruct (os.IsNotExist e).
    + now destruct (os.IsNotExist e).
Qed.

Lemma scan_report_prints (env : Env) (flags : Flags) (scannedPath outputPath src dst : string)
    (mode : Mode) (w : World) :
  nicePath env scannedPath = Ret src ->
  nicePath env outputPath = Ret dst ->
  scan_report env flags scannedPath outputPath mode w
  = (printed w (statusLine flags mode src dst), Ret tt).
Proof.
  intros Hs Hd. unfold scan_report, statusLine, bind.
  destruct (porcelain flags); [|destruct mode]; rewrite ?Hs, ?Hd; reflexivity.
Qed.

(** X22.  The decision of [scan] is a function of how rendering ended and of
    the output file as it is after rendering: FAIL when rendering gave an
    error; otherwise CREATE when the output cannot be read, KEEP when it
    holds exactly the rendered bytes and these are not empty, and MODIFY in
    every other case.  The buffer handed on holds what was rendered, and no
    file is changed by the look-up. *)
Theorem scan_decision {AnyConfig Template : Type}
    (sys : Full.Sys AnyConfig Template) (env : Env) (flags : Flags)
    (scannedPath outputPath np : string) (r : Reader)
    (p p1 : Full.Process AnyConfig Template)
    (chunks : list string) (err : option os.error) :
  Full.render sys flags r p = (p1, Ret (chunks, err)) ->
  nicePath env scannedPath = Ret np ->
  outputPath <> "" ->
  snd (Full.scan_classify sys env flags scannedPath outputPath r p)
  = Ret (decision err (rendered chunks) (contents (fs (Full.world p1)) outputPath),
         fold_left bytes.Write chunks bytes.new)
  /\ fs (Full.world (fst (Full.scan_classify sys env flags scannedPath outputPath r p)))
     = fs (Full.world p1).
Proof.
  intros Hr Hn Hne.
  rewrite (scan_classify_result sys env flags scannedPath outputPath np r p p1 chunks err
             Hr Hn Hne).
  cbn [fst snd Full.world]. split; [reflexivity|].
  unfold classified. destruct err as [e|]; [reflexivity|].
  destruct (contents (fs (Full.world p1)) outputPath) as [d|e]; [reflexivity|].
  now destruct (os.IsNotExist e).
Qed.

Lemma scan_decision_witness :
  snd (Full.scan_classify sys0 env0 flags0 "/w/a.tmpl" "/w/a" (FileReader "/w/a.tmpl")
         (process0 (<["/w/a" := os.File 420 "Hello bob"]> fsConfigured)))
  = Ret (KEEP, fold_left bytes.Write ["Hello "; "bob"] bytes.new).
Proof.
  destruct (scan_decision sys0 env0 flags0 "/w/a.tmpl" "/w/a" "a.tmpl" (FileReader "/w/a.tmpl")
              (process0 (<["/w/a" := os.File 420 "Hello bob"]> fsConfigured))
              (Full.mkProcess
                 (mkWorld (<["/w/a" := os.File 420 "Hello bob"]> fsConfigured)
                    18 false [] [] [])
                 (Some (Full.mkConfig "box" "bob" "bob@box" tt)) "Hello ")
              ["Hello "; "bob"] None) as [H _].
  - vm_compute. reflexivity.
  - reflexivity.
  - discriminate.
  - rewrite H. vm_compute. reflexivity.
Defined.

(** ** The walk *)

(** A directory with the name [.templater] is left out: the walk returns
    from it at once with [SkipDir], whatever is below it, and the process is
    as before. *)
Lemma walk_skips_templater_directory {AnyConfig Template : Type}
    (sys : Full.Sys AnyConfig Template) (env : Env) (flags : Flags) (fuel : nat)
    (p : string) (proc : Full.Process AnyConfig Template) :
  Full.walk fuel (Full.scan_walkFn sys env flags) p (mkFileInfo ".templater" true) proc
  = (proc, Ret SkipDir).
Proof. destruct fuel; reflexivity. Qed.

(** ** A run on one file *)

(** X25.  In a run on one file the answer to the question counts as in a scan,
    but a declined replacement is no silent skip: [main] ends with the fatal
    message [Failed to create file ...: should skip], with the files as
    they were. *)
Theorem main_declined_is_fatal {AnyConfig Template : Type}
    (sys : Full.Sys AnyConfig Template) (env : Env) (flags : Flags) (fuel : nat)
    (p : Full.Process AnyConfig Template) (h : string) (n : os.Node) :
  out flags <> "" ->
  isStdin flags = false ->
  dryRun flags = false ->
  interactive flags = true ->
  os.Open (fs (Full.world p)) (in_ flags) = os.OK h ->
  os.Stat (fs (Full.world p)) (out flags) = os.OK n ->
  accepted env (answer (Full.world p)) = false ->
  let msg := "Failed to create file " +:+ out flags +:+ ": should skip" in
  Full.main sys env flags fuel p
  = (Full.mkProcess (logged (asked (Full.world p) (out flags)) msg)
       (Full.cachedConfig p) (Full.t p), Fatal msg).
Proof.
  intros Hout Hstdin Hd Hi Hopen Hstat Hacc msg.
  assert (Hscan : shouldScan flags = false).
  { unfold shouldScan. rewrite (eqb_nonempty _ Hout). apply andb_false_r. }
  assert (Hprompt : shouldPromptBeforeWrite flags = true).
  { unfold shouldPromptBeforeWrite. now rewrite Hi, Hstdin. }
  unfold Full.main. rewrite Hscan.
  unfold Full.bindP at 1, Full.liftW at 1, inputReader. cbn [String.eqb negb].
  rewrite Hstdin, Hopen. cbn [Full.world Full.cachedConfig Full.t].
  unfold Full.bindP at 1, Full.liftW at 1, outputWriter. cbn [String.eqb negb].
  unfold getOutputPathForNonScan. rewrite Hscan, (eqb_nonempty _ Hout).
  unfold bind, lift, ret. cbn [Full.world]. rewrite (eqb_nonempty _ Hout).
  rewrite (promptAndCreateOutputFile_asks env flags (out flags) (Full.world p) n Hd Hprompt Hstat).
  rewrite Hacc. cbn [Full.world Full.cachedConfig Full.t].
  reflexivity.
Qed.

Lemma main_declined_is_fatal_witness :
  snd (Full.main sys0 env0 askFlags 0
         (Full.mkProcess (mkWorld (fsOld 420) 18 false ["n"] [] []) None ""))
  = Fatal "Failed to create file /w/a: should skip".
Proof.
  rewrite (main_declined_is_fatal sys0 env0 askFlags 0
             (Full.mkProcess (mkWorld (fsOld 420) 18 false ["n"] [] []) None "")
             "/w/a.tmpl" (os.File 420 "old"));
    [reflexivity | discriminate | reflexivity | reflexivity | reflexivity
    | vm_compute; reflexivity | vm_compute; reflexivity | vm_compute; reflexivity].
Defined.

(** X26.  A dry run that would read the template from standard input ends
    after its message: standard input is not read, no template is parsed,
    the configuration is not loaded and no file is changed. *)
Theorem main_dry_run_on_stdin {AnyConfig Template : Type}
    (sys : Full.Sys AnyConfig Template) (env : Env) (flags : Flags) (fuel : nat)
    (p : Full.Process AnyConfig Template) :
  isStdin flags = true ->
  dryRun flags = true ->
  let p' := fst (Full.main sys env flags fuel p) in
  fs (Full.world p') = fs (Full.world p)
  /\ stdin (Full.world p') = stdin (Full.world p)
  /\ Full.cachedConfig p' = Full.cachedConfig p
  /\ Full.t p' = Full.t p.
Proof.
  intros Hstdin Hd.
  assert (Hscan : shouldScan flags = false).
  { unfold isStdin in Hstdin. apply andb_true_iff in Hstdin as [_ Hs].
    unfold shouldScan. destruct (scan flags); [discriminate | reflexivity]. }
  assert (H : exists w',
             fst (Full.main sys env flags fuel p)
             = Full.mkProcess w' (Full.cachedConfig p) (Full.t p)
             /\ fs w' = fs (Full.world p) /\ stdin w' = stdin (Full.world p)).
  { unfold Full.main. rewrite Hscan.
    unfold Full.bindP at 1, Full.liftW at 1, inputReader. cbn [String.eqb negb].
    rewrite Hstdin. cbn [Full.world Full.cachedConfig Full.t].
    unfold Full.bindP at 1, Full.liftW at 1, outputWriter. cbn [String.eqb negb].
    unfold bind. cbn [Full.world Full.cachedConfig Full.t].
    destruct (getOutputPathForNonScan env flags) as [o|msg|msg] eqn:Eo; cbn [lift];
      [|cbn; eauto..].
    assert (Hw : exists wr,
               (if String.eqb o "" then ret (os.OK StdoutWriter)
                else promptAndCreateOutputFile env flags o) (Full.world p)
               = (Full.world p, Ret (os.OK wr))).
    { destruct (String.eqb o ""); [now exists StdoutWriter|].
      exists Discard. unfold promptAndCreateOutputFile, shouldDryRun. now rewrite Hd. }
    destruct Hw as [wr Hw]. unfold ret at 1. rewrite Hw.
    cbn [Full.world Full.cachedConfig Full.t].
    unfold shouldDryRun. rewrite Hd.
    unfold Full.bindP, Full.liftW. cbn [Full.world Full.cachedConfig Full.t].
    cbn [lift]. unfold ret. cbn [Full.world Full.cachedConfig Full.t].
    destruct (nicePath env o) as [np|msg|msg]; cbn; eauto. }
  destruct H as (w' & E & H1 & H2). intros p'. subst p'. rewrite E. now cbn.
Qed.

Lemma main_dry_run_on_stdin_witness :
  stdin (Full.world (fst (Full.main sys0 env0
           (mkFlags false false true false false "/w/a" "" "" "" "" "") 0
           (Full.mkProcess (mkWorld fsTree 18 false ["{{.User}}"] [] []) None ""))))
  = ["{{.User}}"].
Proof.
  apply (main_dry_run_on_stdin sys0 env0
           (mkFlags false false true false false "/w/a" "" "" "" "" "") 0
           (Full.mkProcess (mkWorld fsTree 18 false ["{{.User}}"] [] []) None ""));
    reflexivity.
Defined.

(** The question before a replacement in a scan: the current version asks
    exactly when [-i] is given; the previous version took a scan for a run
    on standard input, because [-in] is empty there, and never asked. *)
Lemma scan_prompts_since_isStdin_fix (flags : Flags) :
  shouldScan flags = true ->
  shouldPromptBeforeWrite flags = interactive flags
  /\ Previous.shouldPromptBeforeWrite flags = false.
Proof.
  unfold shouldScan, shouldPromptBeforeWrite, Previous.shouldPromptBeforeWrite,
    isStdin, Previous.isStdin.
  intros H. apply andb_true_iff in H as [H _]. apply andb_true_iff in H as [-> ->].
  split; [apply andb_true_r | apply andb_false_r].
Qed.

(** ** One template in a scan *)

(** the walk function on a template that can be opened, up to the decision *)
Lemma scan_walkFn_on_template {AnyConfig Template : Type}
    (sys : Full.Sys AnyConfig Template) (env : Env) (flags : Flags)
    (p outputPath h : string) (info : FileInfo)
    (w : World) (c : option (Full.Config AnyConfig)) (tt0 : Template) :
  IsDir info && String.eqb (Name info) ".templater" = false ->
  regexp.MatchString templRegEx (Name info) = true ->
  path.IsAbs p = true ->
  convertOutputPath env flags p = Ret outputPath ->
  os.Open (fs w) p = os.OK h ->
  Full.scan_walkFn sys env flags p (Some info) None (Full.mkProcess w c tt0)
  = Full.bindP (Full.scan_classify sys env flags p outputPath (FileReader h))
      (fun cls =>
         let (mode, b) := cls in
         Full.bindP (Full.liftW (scan_write env flags outputPath mode b))
           (fun written =>
              match written with
              | None => Full.retP WalkNil
              | Some mode =>
                  Full.bindP (Full.liftW (scan_report env flags p outputPath mode))
                    (fun _ => Full.retP WalkNil)
              end))
      (Full.mkProcess w c tt0).
Proof.
  intros Ht Hm Habs Hc Ho. unfold Full.scan_walkFn. rewrite Ht, Hm, Habs.
  cbn [negb andb bool_decide decide_rel]. rewrite bool_decide_eq_true_2 by reflexivity.
  cbn [andb]. unfold Full.bindP at 1, Full.liftW at 1. rewrite Hc. cbn [lift ret].
  unfold ret. cbn [Full.world Full.cachedConfig Full.t].
  unfold Full.bindP at 1, Full.liftW at 1, inputReader.
  rewrite (eqb_nonempty p) by (intros ->; discriminate). cbn [negb Full.world].
  rewrite Ho. reflexivity.
Qed.

(** X28.  A template that cannot be opened does not end the scan: the failure
    is logged, no file is changed, nothing is printed, and the walk goes on
    to the next entry. *)
Theorem scan_walkFn_unreadable_template {AnyConfig Template : Type}
    (sys : Full.Sys AnyConfig Template) (env : Env) (flags : Flags)
    (p outputPath np : string) (info : FileInfo) (err : os.error)
    (proc : Full.Process AnyConfig Template) :
  IsDir info && String.eqb (Name info) ".templater" = false ->
  regexp.MatchString templRegEx (Name info) = true ->
  path.IsAbs p = true ->
  convertOutputPath env flags p = Ret outputPath ->
  os.Open (fs (Full.world proc)) p = os.Err err ->
  nicePath env p = Ret np ->
  Full.scan_walkFn sys env flags p (Some info) None proc
  = (Full.mkProcess
       (logged (Full.world proc)
          ("Failed to open for reading " +:+ np +:+ ": " +:+ os.Error err +:+ " ... skipping"))
       (Full.cachedConfig proc) (Full.t proc),
     Ret WalkNil).
Proof.
  intros Ht Hm Habs Hc Ho Hn. unfold Full.scan_walkFn. rewrite Ht, Hm, Habs.
  rewrite bool_decide_eq_true_2 by reflexivity.
  cbn [negb andb]. unfold Full.bindP at 1, Full.liftW at 1. rewrite Hc. cbn [lift].
  unfold ret. cbn [Full.world Full.cachedConfig Full.t].
  unfold Full.bindP at 1, Full.liftW at 1, inputReader.
  rewrite (eqb_nonempty p) by (intros ->; discriminate). cbn [negb Full.world].
  rewrite Ho. cbn [Full.world Full.cachedConfig Full.t].
  unfold Full.bindP, Full.liftW. rewrite Hn. reflexivity.
Qed.

Lemma scan_walkFn_unreadable_template_witness :
  Full.scan_walkFn sys0 env0 flags0 "/w/a.tmpl" (Some (mkFileInfo "a.tmpl" false)) None
    (process0 fsLocked)
  = (Full.mkProcess
       (logged (Full.world (process0 fsLocked))
          "Failed to open for reading a.tmpl: open /w/a.tmpl: permission denied ... skipping")
       None "",
     Ret WalkNil).
Proof.
  apply (scan_walkFn_unreadable_template sys0 env0 flags0 "/w/a.tmpl" "/w/a" "a.tmpl"
           (mkFileInfo "a.tmpl" false) (os.PathError "open" "/w/a.tmpl" os.EACCES)
           (process0 fsLocked));
    vm_compute; reflexivity.
Defined.

(** X29.  A template whose rendering fails does not end the scan either: the
    error is logged, the line for FAIL is printed, the output file is
    neither written nor marked read-only, and the walk goes on. *)
Theorem scan_walkFn_render_failure {AnyConfig Template : Type}
    (sys : Full.Sys AnyConfig Template) (env : Env) (flags : Flags)
    (p outputPath h src dst : string) (info : FileInfo)
    (w : World) (c : option (Full.Config AnyConfig)) (tt0 : Template)
    (p1 : Full.Process AnyConfig Template) (chunks : list string) (err : os.error) :
  IsDir info && String.eqb (Name info) ".templater" = false ->
  regexp.MatchString templRegEx (Name info) = true ->
  path.IsAbs p = true ->
  convertOutputPath env flags p = Ret outputPath ->
  os.Open (fs w) p = os.OK h ->
  Full.render sys flags (FileReader h) (Full.mkProcess w c tt0) = (p1, Ret (chunks, Some err)) ->
  nicePath env p = Ret src ->
  nicePath env outputPath = Ret dst ->
  Full.scan_walkFn sys env flags p (Some info) None (Full.mkProcess w c tt0)
  = (Full.mkProcess
       (printed
          (logged (Full.world p1)
             ("Failed to execute template " +:+ src +:+ ":" +:+ nl +:+ "    "
                +:+ os.Error err +:+ nl))
          (statusLine flags FAIL src dst))
       (Full.cachedConfig p1) (Full.t p1),
     Ret WalkNil).
Proof.
  intros Ht Hm Habs Hc Ho Hr Hs Hd.
  assert (Hne : outputPath <> "").
  { apply (convertOutputPath_nonempty env flags p); [|exact Hc]. intros ->. discriminate. }
  rewrite (scan_walkFn_on_template sys env flags p outputPath h info w c tt0 Ht Hm Habs Hc Ho).
  unfold Full.bindP at 1.
  rewrite (scan_classify_result sys env flags p outputPath src _ _ p1 chunks (Some err) Hr Hs Hne).
  cbn [decision classified scan_write].
  unfold Full.bindP, Full.liftW, ret. cbn [Full.world Full.cachedConfig Full.t].
  rewrite (scan_report_prints env flags p outputPath src dst FAIL _ Hs Hd). reflexivity.
Qed.

Lemma scan_walkFn_render_failure_witness :
  let w := mkWorld fsTree 18 false [] [] [] in
  Full.scan_walkFn sysRefusing env0 readOnlyFlags "/w/a.tmpl"
    (Some (mkFileInfo "a.tmpl" false)) None (Full.mkProcess w None "")
  = (Full.mkProcess
       (printed
          (logged w ("Failed to execute template a.tmpl:" +:+ nl +:+ "    "
                       +:+ "template: unclosed action" +:+ nl))
          ("FAIL" +:+ tab +:+ "a.tmpl" +:+ tab +:+ "a" +:+ nl))
       None "",
     Ret WalkNil).
Proof.
  intros w.
  apply (scan_walkFn_render_failure sysRefusing env0 readOnlyFlags "/w/a.tmpl" "/w/a"
           "/w/a.tmpl" "a.tmpl" "a" (mkFileInfo "a.tmpl" false) w None ""
           (Full.mkProcess w None "") [] (os.errorString "template: unclosed action"));
    vm_compute; reflexivity.
Defined.

(** X30.  An output file that already holds the rendered bytes, which are not
    empty, is left alone: the line for KEEP is printed, and the file is
    neither written again nor marked read-only. *)
Theorem scan_walkFn_keeps_equal_output {AnyConfig Template : Type}
    (sys : Full.Sys AnyConfig Template) (env : Env) (flags : Flags)
    (p outputPath h src dst : string) (info : FileInfo)
    (w : World) (c : option (Full.Config AnyConfig)) (tt0 : Template)
    (p1 : Full.Process AnyConfig Template) (chunks : list string) :
  IsDir info && String.eqb (Name info) ".templater" = false ->
  regexp.MatchString templRegEx (Name info) = true ->
  path.IsAbs p = true ->
  convertOutputPath env flags p = Ret outputPath ->
  os.Open (fs w) p = os.OK h ->
  Full.render sys flags (FileReader h) (Full.mkProcess w c tt0) = (p1, Ret (chunks, None)) ->
  contents (fs (Full.world p1)) outputPath = os.OK (rendered chunks) ->
  rendered chunks <> "" ->
  nicePath env p = Ret src ->
  nicePath env outputPath = Ret dst ->
  Full.scan_walkFn sys env flags p (Some info) None (Full.mkProcess w c tt0)
  = (Full.mkProcess (printed (Full.world p1) (statusLine flags KEEP src dst))
       (Full.cachedConfig p1) (Full.t p1),
     Ret WalkNil).
Proof.
  intros Ht Hm Habs Hc Ho Hr Hex Hne0 Hs Hd.
  assert (Hne : outputPath <> "").
  { apply (convertOutputPath_nonempty env flags p); [|exact Hc]. intros ->. discriminate. }
  rewrite (scan_walkFn_on_template sys env flags p outputPath h info w c tt0 Ht Hm Habs Hc Ho).
  unfold Full.bindP at 1.
  rewrite (scan_classify_result sys env flags p outputPath src _ _ p1 chunks None Hr Hs Hne).
  unfold classified. rewrite Hex. cbn [decision].
  rewrite String.eqb_refl, (eqb_nonempty _ Hne0). cbn [andb negb scan_write].
  unfold Full.bindP, Full.liftW, ret. cbn [Full.world Full.cachedConfig Full.t].
  rewrite (scan_report_prints env flags p outputPath src dst KEEP _ Hs Hd). reflexivity.
Qed.

Lemma scan_walkFn_keeps_equal_output_witness :
  let w := mkWorld fsRendered 18 false [] [] [] in
  Full.scan_walkFn sys0 env0 readOnlyFlags "/w/a.tmpl"
    (Some (mkFileInfo "a.tmpl" false)) None (Full.mkProcess w None "")
  = (Full.mkProcess (printed w ("KEEP" +:+ tab +:+ "a.tmpl" +:+ tab +:+ "a" +:+ nl))
       (Some (Full.mkConfig "box" "bob" "bob@box" tt)) "Hello ",
     Ret WalkNil).
Proof.
  intros w.
  apply (scan_walkFn_keeps_equal_output sys0 env0 readOnlyFlags "/w/a.tmpl" "/w/a"
           "/w/a.tmpl" "a.tmpl" "a" (mkFileInfo "a.tmpl" false) w None ""
           (Full.mkProcess w (Some (Full.mkConfig "box" "bob" "bob@box" tt)) "Hello ")
           ["Hello "; "bob"]);
    try (vm_compute; reflexivity). discriminate.
Defined.

(** X24.  When the working directory cannot be looked up, [filepath.Walk] calls
    the function of [scan] without a [FileInfo], and the scan ends in a panic
    on the nil value, with nothing logged and nothing changed. *)
Theorem scan_panics_on_missing_root {AnyConfig Template : Type}
    (sys : Full.Sys AnyConfig Template) (env : Env) (flags : Flags) (fuel : nat)
    (p : Full.Process AnyConfig Template) (cwd : string) (err : os.error) :
  Getwd env = os.OK cwd ->
  os.Stat (fs (Full.world p)) cwd = os.Err err ->
  Full.scan sys env flags fuel p
  = (Full.mkProcess (Full.world p) (Full.cachedConfig p) (Full.t p),
     Panic "runtime error: invalid memory address or nil pointer dereference").
Proof.
  intros Hwd Hs. unfold Full.scan. rewrite Hwd.
  unfold Full.filepath_Walk, Full.lstat. rewrite Hs. reflexivity.
Qed.

Lemma scan_panics_on_missing_root_witness :
  snd (Full.scan sys0 env0 flags0 10 (process0 ∅))
  = Panic "runtime error: invalid memory address or nil pointer dereference".
Proof.
  rewrite (scan_panics_on_missing_root sys0 env0 flags0 10 (process0 ∅) "/w"
             (os.PathError "stat" "/w" os.ENOENT)); [reflexivity | reflexivity |].
  vm_compute. reflexivity.
Defined.

(** ** Cleaned absolute paths *)

Lemma join_snoc (qs : list string) (e : string) :
  qs <> [] -> path.join (qs ++ [e]) = path.join qs +:+ String slash e.
Proof.
  induction qs as [|q qs IH]; [congruence|]. intros _.
  destruct qs as [|q' qs]; [reflexivity|].
  change (path.join ((q :: q' :: qs) ++ [e]))
    with (q +:+ String slash (path.join ((q' :: qs) ++ [e]))).
  rewrite IH by discriminate.
  change (path.join (q :: q' :: qs)) with (q +:+ String slash (path.join (q' :: qs))).
  now rewrite sapp_assoc.
Qed.

Lemma rooted_snoc (qs : list string) (e : string) :
  rooted (qs ++ [e]) = (if qs is [] then "" else rooted qs) +:+ String slash e.
Proof.
  unfold rooted. destruct qs as [|q qs]; [reflexivity|].
  now rewrite join_snoc by discriminate.
Qed.

Lemma smem_app_slash (s e : string) : smem slash (s +:+ String slash e) = true.
Proof.
  induction s as [|c s IH]; simpl; [reflexivity|].
  rewrite IH. apply orb_true_r.
Qed.

Lemma afterLastSlash_app (s e : string) :
  noSlash e -> path.afterLastSlash (s +:+ String slash e) = S (String.length s).
Proof.
  intros He. induction s as [|c s IH]; simpl.
  - unfold noSlash in He. now rewrite He.
  - now rewrite smem_app_slash, IH.
Qed.

Lemma Split_app (s e : string) :
  noSlash e -> path.Split (s +:+ String slash e) = (s +:+ "/", e).
Proof.
  intros He. unfold path.Split. rewrite (afterLastSlash_app s e He).
  change (s +:+ String slash e) with (s +:+ ("/" +:+ e)).
  rewrite <- sapp_assoc.
  replace (S (String.length s)) with (String.length (s +:+ "/")).
  - now rewrite stake_app, sdrop_app.
  - rewrite slength_app. simpl. lia.
Qed.

Lemma stripTrailingSlashes_proper (e : string) :
  e <> "" -> noSlash e -> path.stripTrailingSlashes e = e.
Proof.
  unfold noSlash. induction e as [|c e IH]; [congruence|]. intros _ H. simpl in H.
  apply orb_false_iff in H as [Hc He]. simpl.
  destruct e as [|c' e].
  - simpl. now rewrite Hc.
  - rewrite IH by (auto; discriminate). reflexivity.
Qed.

Lemma stripTrailingSlashes_app (s e : string) :
  e <> "" -> noSlash e -> path.stripTrailingSlashes (s +:+ e) = s +:+ e.
Proof.
  intros Hne He. induction s as [|c s IH]; simpl.
  - now apply stripTrailingSlashes_proper.
  - rewrite IH. destruct (s +:+ e) eqn:E; [|reflexivity].
    destruct s; simpl in E; [congruence | discriminate].
Qed.

Lemma Base_app (s e : string) :
  e <> "" -> noSlash e -> path.Base (s +:+ String slash e) = e.
Proof.
  intros Hne He. unfold path.Base.
  assert (Hn : s +:+ String slash e <> "") by (destruct s; discriminate).
  rewrite (proj2 (String.eqb_neq _ _) Hn). cbv zeta.
  change (s +:+ String slash e) with (s +:+ ("/" +:+ e)). rewrite <- sapp_assoc.
  rewrite (stripTrailingSlashes_app (s +:+ "/") e Hne He).
  rewrite sapp_assoc. change ("/" +:+ e) with (String slash e).
  rewrite (afterLastSlash_app s e He).
  change (s +:+ String slash e) with (s +:+ ("/" +:+ e)). rewrite <- sapp_assoc.
  replace (S (String.length s)) with (String.length (s +:+ "/"))
    by (rewrite slength_app; simpl; lia).
  rewrite sdrop_app. now rewrite (proj2 (String.eqb_neq _ _) Hne).
Qed.

Lemma split_join_app (qs : list string) (t : string) :
  Forall noSlash qs -> qs <> [] ->
  path.split (path.join qs +:+ String slash t) = qs ++ path.split t.
Proof.
  induction qs as [|q qs IH]; [congruence|]. intros H _.
  inversion H as [|? ? Hq Hqs]; subst. destruct qs as [|q' qs].
  - cbn [path.join app]. now rewrite split_app_slash.
  - change (path.join (q :: q' :: qs)) with (q +:+ String slash (path.join (q' :: qs))).
    rewrite sapp_assoc.
    change (String slash (path.join (q' :: qs)) +:+ String slash t)
      with (String slash (path.join (q' :: qs) +:+ String slash t)).
    rewrite (split_app_slash _ _ Hq), IH; [reflexivity | exact Hqs | discriminate].
Qed.

Lemma proper_noSlash (ps : list string) : Forall properElement ps -> Forall noSlash ps.
Proof. intros H. eapply Forall_impl; [exact H|]. now intros x (_ & _ & _ & Hx). Qed.

(** cleaning an absolute path from its elements *)
Lemma Clean_of_split (x : string) (ps : list string) :
  path.IsAbs x = true ->
  fold_left (path.clean_step true) (path.split x) [] = rev ps ->
  path.Clean x = rooted ps.
Proof.
  intros Habs Hf. unfold path.Clean.
  destruct (String.eqb_spec x "") as [->|_]; [discriminate|].
  rewrite Habs. cbv zeta. rewrite Hf, rev_involutive. reflexivity.
Qed.

Lemma Dir_rooted_snoc (qs : list string) (e : string) :
  Forall properElement qs -> noSlash e ->
  path.Dir (rooted (qs ++ [e])) = rooted qs.
Proof.
  intros Hqs He. rewrite rooted_snoc. unfold path.Dir.
  rewrite (Split_app _ e He). cbn [fst].
  destruct qs as [|q qs]; [reflexivity|].
  apply Clean_of_split; [reflexivity|].
  unfold rooted. cbn [String.append path.split]. rewrite Ascii.eqb_refl.
  change (path.join (q :: qs) +:+ "/") with (path.join (q :: qs) +:+ String slash "").
  rewrite split_join_app; [|now apply proper_noSlash | discriminate].
  change (fold_left (path.clean_step true) ("" :: (q :: qs) ++ path.split "") [])
    with (fold_left (path.clean_step true) ((q :: qs) ++ [""]) []).
  rewrite fold_left_app, (fold_proper true (q :: qs) [] Hqs), app_nil_r. reflexivity.
Qed.

Lemma Base_rooted_snoc (qs : list string) (e : string) :
  e <> "" -> noSlash e -> path.Base (rooted (qs ++ [e])) = e.
Proof. intros Hne He. rewrite rooted_snoc. now apply Base_app. Qed.

Lemma Join_rooted (qs : list string) (e : string) :
  Forall properElement qs -> properElement e ->
  path.Join (rooted qs) e = rooted (qs ++ [e]).
Proof.
  intros Hqs He. unfold path.Join. unfold rooted at 1. cbn [String.eqb].
  apply Clean_of_split; [reflexivity|].
  assert (Hall : Forall properElement (qs ++ [e])).
  { apply Forall_app. split; [exact Hqs | now constructor]. }
  destruct He as (_ & _ & _ & Hes).
  unfold rooted. cbn [String.append path.split]. rewrite Ascii.eqb_refl.
  destruct qs as [|q qs].
  - cbn [path.join String.append path.split]. rewrite Ascii.eqb_refl.
    rewrite (split_single e Hes).
    change (fold_left (path.clean_step true) ["" ; "" ; e] [])
      with (fold_left (path.clean_step true) ([] ++ [e]) []).
    now rewrite (fold_proper true _ [] Hall), app_nil_r.
  - change (path.join (q :: qs) +:+ "/" +:+ e)
      with (path.join (q :: qs) +:+ String slash e).
    rewrite split_join_app; [|now apply proper_noSlash; inversion Hall; subst;
                               apply Forall_app in Hall as [H _] | discriminate].
    rewrite (split_single e Hes).
    change (fold_left (path.clean_step true) ("" :: (q :: qs) ++ [e]) [])
      with (fold_left (path.clean_step true) ((q :: qs) ++ [e]) []).
    now rewrite (fold_proper true _ [] Hall), app_nil_r.
Qed.

Lemma rooted_inj (ps qs : list string) :
  Forall properElement ps -> Forall properElement qs -> rooted ps = rooted qs -> ps = qs.
Proof.
  intros Hps Hqs [= E].
  destruct ps as [|p ps], qs as [|q qs]; [reflexivity | | |].
  - exfalso. symmetry in E. revert E. apply join_nonempty; [|discriminate].
    eapply Forall_impl; [exact Hqs|]. now intros x [H _].
  - exfalso. revert E. apply join_nonempty; [|discriminate].
    eapply Forall_impl; [exact Hps|]. now intros x [H _].
  - rewrite <- (split_join (p :: ps)), <- (split_join (q :: qs)), E;
      [reflexivity | now apply proper_noSlash | discriminate
      | now apply proper_noSlash | discriminate].
Qed.

Lemma rooted_elements (k : string) :
  path.Clean k = k -> path.IsAbs k = true ->
  exists ps, Forall properElement ps /\ k = rooted ps.
Proof.
  intros Hc Ha. rewrite <- Hc in Ha.
  destruct (Clean_rooted_elements k Ha) as (ps & Hps & E).
  exists ps. split; [exact Hps|]. now rewrite <- Hc.
Qed.

Lemma split_rooted (ps : list string) :
  Forall properElement ps ->
  path.split (rooted ps) = "" :: (if ps is [] then [""] else ps).
Proof.
  intros Hps. unfold rooted. cbn [path.split]. rewrite Ascii.eqb_refl.
  destruct ps as [|p ps]; [reflexivity|].
  rewrite split_join; [reflexivity | now apply proper_noSlash | discriminate].
Qed.

(** ** Directories that the scan leaves out *)

Lemma readDirNames_In (fs : gmap string os.Node) (p name : string) :
  In name (Full.readDirNames fs p) ->
  exists k n, fs !! k = Some n /\ k <> os.key p /\ path.Dir k = os.key p
              /\ name = path.Base k.
Proof.
  unfold Full.readDirNames. intros H.
  apply list_elem_of_In in H. rewrite merge_sort_Permutation in H.
  apply list_elem_of_In, in_map_iff in H as (k & <- & Hk).
  apply list_elem_of_In, list_elem_of_filter in Hk as [[H1 H2] Hk].
  apply list_elem_of_In, in_map_iff in Hk as ([k' n] & <- & Hk).
  apply list_elem_of_In, elem_of_map_to_list in Hk. now exists k', n.
Qed.

Lemma hiddenPath_rooted (ps : list string) :
  Forall properElement ps ->
  hiddenPath (rooted ps) = existsb (String.eqb ".templater") (removelast ps).
Proof.
  intros Hps. unfold hiddenPath. rewrite (split_rooted ps Hps).
  destruct ps as [|p ps]; reflexivity.
Qed.

Section Hidden.

Context {AnyConfig Template : Type} (sys : Full.Sys AnyConfig Template).
Variable fs0 : gmap string os.Node.
Hypothesis Hwf : wellFormed fs0.
Hypothesis Hhid : templatesHidden fs0.

Lemma visited_no_match (p : string) (info : FileInfo) :
  visited fs0 p info -> regexp.MatchString templRegEx (Name info) = false.
Proof.
  intros (ps & Hps & -> & Hex & Hn & [n Hk]). rewrite Hn.
  destruct (regexp.MatchString templRegEx (path.Base (rooted ps))) eqn:Hm; [|reflexivity].
  pose proof (Hhid _ _ Hk Hm) as Hh. rewrite (hiddenPath_rooted ps Hps) in Hh. congruence.
Qed.

Lemma visited_child (p name : string) (info fi : FileInfo) :
  visited fs0 p info ->
  IsDir info && String.eqb (Name info) ".templater" = false ->
  IsDir info = true ->
  In name (Full.readDirNames fs0 p) ->
  Full.lstat fs0 (filepath.Join p name) = os.OK fi ->
  visited fs0 (filepath.Join p name) fi.
Proof.
  intros (ps & Hps & -> & Hex & Hn & Hsome) Ht Hd Hin Hl.
  destruct (readDirNames_In fs0 _ _ Hin) as (k & n & Hk & Hne & Hdir & ->).
  assert (Hkey : os.key (rooted ps) = rooted ps) by (apply Clean_rooted_form; exact Hps).
  rewrite Hkey in Hne, Hdir.
  destruct (Hwf _ _ Hk) as [Hc Ha].
  destruct (rooted_elements k Hc Ha) as (ps' & Hps' & ->).
  destruct ps' as [|p0 ps0]; [exfalso; apply Hne; rewrite <- Hdir; reflexivity|].
  destruct (exists_last (l:=p0 :: ps0) ltac:(discriminate)) as (qs & e & E).
  rewrite E in *. clear E p0 ps0.
  apply Forall_app in Hps' as [Hqs He]. inversion He as [|? ? He' _]; subst.
  pose proof He' as (He1 & _ & _ & He4).
  rewrite (Dir_rooted_snoc qs e Hqs He4) in Hdir.
  apply (rooted_inj qs ps Hqs Hps) in Hdir. subst qs.
  rewrite (Base_rooted_snoc ps e He1 He4) in *.
  unfold filepath.Join in *. rewrite (Join_rooted ps e Hps He') in *.
  exists (ps ++ [e]). repeat split.
  - apply Forall_app. split; [exact Hps | now constructor].
  - rewrite removelast_last.
    rewrite Hd in Ht. cbn [andb] in Ht.
    destruct ps as [|p0 ps0] using rev_ind; [reflexivity|].
    rewrite removelast_last in Hex. rewrite existsb_app, Hex. cbn [orb existsb].
    apply Forall_app in Hps as [_ Hp0]. inversion Hp0 as [|? ? (Hp1 & _ & _ & Hp4) _]; subst.
    rewrite (Base_rooted_snoc ps0 p0 Hp1 Hp4) in Hn. rewrite Hn in Ht.
    rewrite String.eqb_sym. now rewrite Ht.
  - now destruct (lstat_Name fs0 _ _ Hl).
  - eauto.
Qed.

Lemma walk_hidden (env : Env) (flags : Flags) :
  forall fuel p info,
    visited fs0 p info -> idle fs0 (Full.walk fuel (Full.scan_walkFn sys env flags) p info).
Proof.
  assert (Hf : forall p info,
             visited fs0 p info ->
             idle fs0 (Full.scan_walkFn sys env flags p (Some info) None)).
  { intros p info H. apply scan_walkFn_idle. intros i [= <-]. now apply (visited_no_match p). }
  induction fuel as [|fuel IH]; intros p info Hv.
  - cbn [Full.walk]. destruct (negb (IsDir info)); [now apply Hf|].
    intros proc Hp. cbv zeta. revert Hp.
    apply (idle_bind _ _ _ (Hf _ _ Hv)). intros [|]; apply idle_ret.
  - cbn [Full.walk]. destruct (IsDir info) eqn:Hd; cbn [negb]; [|now apply Hf].
    destruct (IsDir info && String.eqb (Name info) ".templater") eqn:Ht.
    + intros proc _. cbv zeta. unfold Full.bindP, Full.scan_walkFn.
      rewrite Ht. now cbn.
    + intros proc Hp. cbv zeta. rewrite Hp. revert Hp.
      apply (idle_bind _ _ _ (Hf _ _ Hv)). intros [|]; [|apply idle_ret].
      match goal with
      | |- idle _ (?f (Full.readDirNames fs0 p)) =>
          cut (forall l, (forall name, In name l -> In name (Full.readDirNames fs0 p)) ->
                         idle fs0 (f l)); [intros Hcut; apply Hcut; auto|]
      end.
      induction l as [|name rest IHl]; intros Hin; [apply idle_ret|].
      assert (Hrest : forall name0, In name0 rest -> In name0 (Full.readDirNames fs0 p)).
      { intros name0 H0. apply Hin. now right. }
      intros proc' Hp'. rewrite Hp'.
      destruct (Full.lstat fs0 (filepath.Join p name)) as [fileInfo|e] eqn:El; revert Hp'.
      * apply (idle_bind _ _ _
                 (IH _ _ (visited_child p name info fileInfo Hv Ht Hd
                            (Hin name (or_introl eq_refl)) El))).
        intros [|]; [now apply IHl
                    | destruct (IsDir fileInfo); [now apply IHl | apply idle_ret]].
      * apply idle_bind; [|intros _; now apply IHl].
        apply scan_walkFn_idle. discriminate.
Qed.

End Hidden.

(** X23.  Templates below a directory [.templater] are ignored: in a file
    system of cleaned absolute paths where every entry with the name of a
    template lies below such a directory, a scan from a working directory
    that is not itself below one does nothing; nothing is printed, read,
    logged or written, no template is parsed and the configuration is not
    loaded. *)
Theorem scan_ignores_templater {AnyConfig Template : Type}
    (sys : Full.Sys AnyConfig Template) (env : Env) (flags : Flags) (fuel : nat)
    (p : Full.Process AnyConfig Template) (cwd : string) :
  Getwd env = os.OK cwd ->
  path.Clean cwd = cwd ->
  path.IsAbs cwd = true ->
  hiddenPath cwd = false ->
  wellFormed (fs (Full.world p)) ->
  templatesHidden (fs (Full.world p)) ->
  Full.world (fst (Full.scan sys env flags fuel p)) = Full.world p
  /\ Full.cachedConfig (fst (Full.scan sys env flags fuel p)) = Full.cachedConfig p
  /\ Full.t (fst (Full.scan sys env flags fuel p)) = Full.t p.
Proof.
  intros Hwd Hc Ha Hh Hwf Hhid. unfold Full.scan. rewrite Hwd. unfold Full.filepath_Walk.
  destruct (Full.lstat (fs (Full.world p)) cwd) as [info|e] eqn:El.
  - refine (idle_bind _ _ _ (walk_hidden sys _ Hwf Hhid env flags fuel cwd info _)
              (fun _ => idle_ret _ tt) p eq_refl).
    destruct (rooted_elements cwd Hc Ha) as (ps & Hps & E).
    exists ps. repeat split; auto.
    + rewrite E, (hiddenPath_rooted ps Hps) in Hh. exact Hh.
    + now destruct (lstat_Name _ _ _ El).
    + destruct (lstat_Name _ _ _ El) as [_ H]. unfold os.key in H. now rewrite Hc in H.
  - refine (idle_bind (fs (Full.world p)) _ _ _ (fun _ => idle_ret _ tt) p eq_refl).
    apply scan_walkFn_idle. discriminate.
Qed.

Lemma scan_ignores_templater_witness :
  Full.world (fst (Full.scan sys0 env0 flags0 10 (process0 fsHidden)))
  = Full.world (process0 fsHidden).
Proof.
  apply (scan_ignores_templater sys0 env0 flags0 10 (process0 fsHidden) "/w").
  - reflexivity.
  - reflexivity.
  - reflexivity.
  - reflexivity.
  - apply (bool_decide_unpack _). vm_compute. reflexivity.
  - apply (bool_decide_unpack _). vm_compute. reflexivity.
Defined.

(** ** The directories above the output *)

Lemma join_length (ps : list string) :
  Forall (fun e => e <> "") ps -> length ps <= String.length (path.join ps).
Proof.
  induction ps as [|p ps IH]; [simpl; lia|]. intros H.
  inversion H as [|? ? Hp Hps]; subst. destruct ps as [|q ps].
  - destruct p; [congruence | simpl; lia].
  - change (path.join (p :: q :: ps)) with (p +:+ String slash (path.join (q :: ps))).
    rewrite slength_app. specialize (IH Hps). simpl in *. lia.
Qed.

Lemma rooted_length (ps : list string) :
  Forall properElement ps -> length ps < String.length (rooted ps).
Proof.
  intros H. unfold rooted. simpl.
  assert (length ps <= String.length (path.join ps)); [|lia].
  apply join_length. eapply Forall_impl; [exact H|]. now intros x [Hx _].
Qed.

Lemma rooted_snoc_length (qs : list string) (e : string) :
  String.length (rooted qs) <= String.length (rooted (qs ++ [e])).
Proof.
  rewrite rooted_snoc. destruct qs as [|q qs].
  - simpl. lia.
  - rewrite slength_app. lia.
Qed.

Lemma rooted_snoc_neq (qs : list string) (e : string) :
  Forall properElement (qs ++ [e]) -> rooted qs <> rooted (qs ++ [e]).
Proof.
  intros H E. apply Forall_app in H as H'. destruct H' as [Hqs _].
  apply (rooted_inj qs (qs ++ [e]) Hqs H) in E.
  apply (f_equal (@length string)) in E. rewrite length_app in E. simpl in E. lia.
Qed.

Lemma parents_rooted_snoc (fuel : nat) (qs : list string) (e : string) :
  Forall properElement (qs ++ [e]) ->
  os.parents (S fuel) (rooted (qs ++ [e])) = rooted qs :: os.parents fuel (rooted qs).
Proof.
  intros H. apply Forall_app in H as H'. destruct H' as [Hqs He].
  inversion He as [|? ? (_ & _ & _ & He4) _]; subst.
  cbn [os.parents]. rewrite (Dir_rooted_snoc qs e Hqs He4).
  now rewrite (proj2 (String.eqb_neq _ _) (rooted_snoc_neq qs e H)).
Qed.

(** the directories above an absolute path do not depend on the bound of
    the search, once it is large enough *)
Lemma parents_rooted_fuel (ps : list string) :
  Forall properElement ps ->
  forall f1 f2, length ps < f1 -> length ps < f2 ->
                os.parents f1 (rooted ps) = os.parents f2 (rooted ps).
Proof.
  induction ps as [|e qs IH] using rev_ind; intros Hps f1 f2 H1 H2.
  - destruct f1, f2; try lia. reflexivity.
  - rewrite length_app in H1, H2. simpl in H1, H2.
    destruct f1 as [|f1], f2 as [|f2]; try lia.
    rewrite !(parents_rooted_snoc _ qs e Hps). f_equal.
    apply IH; [now apply Forall_app in Hps as [H _] | lia | lia].
Qed.

Lemma ancestors_rooted_snoc (qs : list string) (e : string) :
  Forall properElement (qs ++ [e]) ->
  os.ancestors (rooted (qs ++ [e])) = os.ancestors (rooted qs) ++ [rooted qs].
Proof.
  intros H. apply Forall_app in H as H'. destruct H' as [Hqs _].
  unfold os.ancestors.
  pose proof (rooted_length (qs ++ [e]) H) as Hl. rewrite length_app in Hl.
  cbn [length] in Hl.
  destruct (String.length (rooted (qs ++ [e]))) as [|f] eqn:Ef; [lia|].
  rewrite (parents_rooted_snoc f qs e H). cbn [rev].
  rewrite (parents_rooted_fuel qs Hqs f (String.length (rooted qs))); [reflexivity | lia |].
  now apply rooted_length.
Qed.

Lemma ancestors_shorter (ps : list string) (d : string) :
  Forall properElement ps ->
  In d (os.ancestors (rooted ps)) -> String.length d < String.length (rooted ps).
Proof.
  induction ps as [|e qs IH] using rev_ind; intros Hps Hin.
  - contradiction.
  - rewrite (ancestors_rooted_snoc qs e Hps) in Hin.
    apply Forall_app in Hps as H'. destruct H' as [Hqs _].
    assert (Hlt : String.length (rooted qs) < String.length (rooted (qs ++ [e]))).
    { pose proof (rooted_snoc_length qs e) as Hle.
      destruct (Nat.eq_dec (String.length (rooted qs)) (String.length (rooted (qs ++ [e]))))
        as [E|]; [|lia].
      exfalso. rewrite rooted_snoc in E. destruct qs as [|q qs].
      - simpl in E. destruct e; [|simpl in E; lia].
        apply Forall_app in Hps as [_ He]. inversion He as [|? ? (He1 & _) _]. congruence.
      - rewrite slength_app in E. simpl in E. lia. }
    apply in_app_or in Hin as [Hin|[<-|[]]]; [|exact Hlt].
    specialize (IH Hqs Hin). lia.
Qed.

(** [os.MkdirAll] where no file is in the way: the missing directories are
    made, the others are kept, and nothing else changes *)
Lemma mkdirs_makes (um perm : N) (dirs : list string) :
  forall fs : gmap string os.Node,
    (forall d, In d dirs -> fs !! d = None \/ isDirectoryIn fs d) ->
    exists fs',
      os.mkdirs um fs dirs perm = (fs', None)
      /\ Forall (isDirectoryIn fs') dirs
      /\ (forall k, ~ In k dirs -> fs' !! k = fs !! k)
      /\ (forall k n, fs !! k = Some n -> fs' !! k = Some n).
Proof.
  induction dirs as [|d rest IH]; intros fs H.
  - exists fs. repeat split; auto.
  - assert (Hstep : forall fs1 : gmap string os.Node,
               isDirectoryIn fs1 d ->
               (forall k, k <> d -> fs1 !! k = fs !! k) ->
               (forall k n, fs !! k = Some n -> fs1 !! k = Some n) ->
               exists fs',
                 os.mkdirs um fs1 rest perm = (fs', None)
                 /\ Forall (isDirectoryIn fs') (d :: rest)
                 /\ (forall k, ~ In k (d :: rest) -> fs' !! k = fs !! k)
                 /\ (forall k n, fs !! k = Some n -> fs' !! k = Some n)).
    { intros fs1 Hd Hsame Hkeep.
      destruct (IH fs1) as (fs' & E & Hall & Hout & Hin).
      - intros d' Hd'. destruct (String.eqb_spec d' d) as [->|Hne]; [now right|].
        rewrite (Hsame d' Hne). destruct (H d' (or_intror Hd')) as [Hn|[pm Hp]]; [now left|].
        right. exists pm. now rewrite (Hsame d' Hne).
      - exists fs'. repeat split; auto.
        + constructor; [|exact Hall]. destruct Hd as [pm Hp]. exists pm. now apply Hin.
        + intros k Hk. rewrite Hout by (intros Hr; apply Hk; now right).
          apply Hsame. intros ->. apply Hk. now left. }
    cbn [os.mkdirs].
    destruct (H d (or_introl eq_refl)) as [Hn|[pm Hp]].
    + rewrite Hn. unfold os.Mkdir. rewrite Hn.
      apply Hstep.
      * exists (N.ldiff perm um). apply lookup_insert_eq.
      * intros k Hk. now rewrite lookup_insert_ne.
      * intros k n Hk. rewrite lookup_insert_ne; [exact Hk | congruence].
    + rewrite Hp. apply Hstep; auto. now exists pm.
Qed.

Lemma Remove_absent (fs : gmap string os.Node) (name : string) :
  fs !! os.key name = None -> fst (os.Remove fs name) = fs.
Proof.
  intros H. unfold os.Remove, os.lookup.
  destruct (os.walk fs _); [reflexivity|]. now rewrite H.
Qed.

(** X27.  Where no regular file is in the way and the output does not exist
    yet, [createOutputFile] makes every missing directory above the output
    path, keeps the directories that exist, creates the output as an empty
    file and changes nothing else. *)
Theorem createOutputFile_makes_directories (outputPath : string) (w : World) :
  path.Clean outputPath = outputPath ->
  path.IsAbs outputPath = true ->
  outputPath <> "/" ->
  (forall d, In d (os.ancestors outputPath) ->
             fs w !! d = None \/ isDirectoryIn (fs w) d) ->
  fs w !! outputPath = None ->
  exists fs',
    createOutputFile outputPath w = (set_fs w fs', Ret (os.OK (FileWriter outputPath)))
    /\ Forall (isDirectoryIn fs') (os.ancestors outputPath)
    /\ fs' !! outputPath = Some (os.File (N.ldiff 438 (umask w)) "")
    /\ (forall k n, fs w !! k = Some n -> fs' !! k = Some n)
    /\ (forall k, ~ In k (os.ancestors outputPath) -> k <> outputPath ->
                  fs' !! k = fs w !! k).
Proof.
  intros Hc Ha Hroot Hdirs Hfree.
  destruct (rooted_elements outputPath Hc Ha) as (ps & Hps & ->).
  destruct ps as [|p0 ps0]; [now contradiction Hroot|].
  destruct (exists_last (l:=p0 :: ps0) ltac:(discriminate)) as (qs & e & E).
  rewrite E in *. clear E p0 ps0.
  apply Forall_app in Hps as H'. destruct H' as [Hqs He].
  inversion He as [|? ? (_ & _ & _ & He4) _]; subst.
  assert (Hkey : os.key (rooted (qs ++ [e])) = rooted (qs ++ [e])) by exact Hc.
  assert (Hkq : os.key (rooted qs) = rooted qs) by (apply Clean_rooted_form; exact Hqs).
  pose proof (ancestors_rooted_snoc qs e Hps) as Hanc.
  unfold createOutputFile.
  pose proof (Remove_absent (fs w) (rooted (qs ++ [e]))) as Hrm.
  rewrite Hkey in Hrm. specialize (Hrm Hfree).
  destruct (os.Remove (fs w) (rooted (qs ++ [e]))) as [fs1 r]. cbn [fst] in Hrm. subst fs1.
  rewrite (Dir_rooted_snoc qs e Hqs He4). unfold os.MkdirAll. rewrite Hkq, <- Hanc.
  destruct (mkdirs_makes (umask w) os.ModePerm (os.ancestors (rooted (qs ++ [e]))) (fs w) Hdirs)
    as (fs2 & -> & Hall & Hout & Hkeep).
  assert (Hnot : ~ In (rooted (qs ++ [e])) (os.ancestors (rooted (qs ++ [e])))).
  { intros Hin. apply (ancestors_shorter _ _ Hps) in Hin. lia. }
  unfold os.Create. rewrite Hkey, (proj2 (walk_None fs2 _) Hall).
  rewrite (Hout _ Hnot), Hfree.
  exists (<[rooted (qs ++ [e]) := os.File (N.ldiff 438 (umask w)) ""]> fs2).
  repeat split.
  - eapply Forall_impl; [exact Hall|]. intros d Hd. apply isDirectoryIn_insert_file; [|exact Hd].
    intros [pm Hp]. rewrite (Hout _ Hnot), Hfree in Hp. discriminate.
  - apply lookup_insert_eq.
  - intros k n Hk. rewrite lookup_insert_ne; [now apply Hkeep | congruence].
  - intros k Hk Hne. rewrite lookup_insert_ne by congruence. now apply Hout.
Qed.

Lemma createOutputFile_makes_directories_witness :
  exists fs',
    createOutputFile "/out/sub/deep/a" world0
    = (set_fs world0 fs', Ret (os.OK (FileWriter "/out/sub/deep/a")))
    /\ Forall (isDirectoryIn fs') ["/"; "/out"; "/out/sub"; "/out/sub/deep"]
    /\ fs' !! "/w/a.tmpl" = Some (os.File 420 "Hello").
Proof.
  destruct (createOutputFile_makes_directories "/out/sub/deep/a" world0)
    as (fs' & E & Hdirs & _ & Hkeep & _).
  - reflexivity.
  - reflexivity.
  - discriminate.
  - intros d Hd. vm_compute in Hd.
    destruct Hd as [<-|[<-|[<-|[<-|[]]]]];
      [right; exists 493%N; reflexivity | left; reflexivity..].
  - reflexivity.
  - exists fs'. split; [exact E|]. split; [exact Hdirs|]. now apply Hkeep.
Defined.
